(** * Execution orchestration engine of the code-runner backend

    A shallow embedding of the Express backend (the server file holding
    [analyzeComplexity], [generateAISuggestions], [executeCode], the
    [/api/execute] route and the [/api/abort] route) together with the
    properties its specification states about it.

    Modelling conventions.
    - A JavaScript string is a [string] that holds its UTF-8 encoding,
      which is also what [writeFile] puts into a file. The classes
      [\d] and [\w] are ASCII in JavaScript; white space ([\s] and
      [trim]) and the line terminators the dot stops at include
      characters of two and three bytes. What a child writes to a
      stream is bytes, decoded chunk by chunk by [data.toString()].
    - A JavaScript number is a [number]: [NaN], [Infinity] or the exact
      value of a double. [parseFloat] rounds to the nearest double;
      the quotients [ms / 1000] and [ns / 1000000000] and [parseInt]
      are kept exact.
    - The file system is a finite map from paths to contents
      ([gmap string string]); the only file error in the model is
      "no such file".
    - The operating system is a [World]: what a spawned command does, as
      a function of the command line, the text written to its standard
      input and the file system at launch.
    - An [async] function is a computation in the monad [M]: it threads
      the state (file system, clock, the [process] variable, the trace
      of events) and ends by returning, throwing, never resolving
      ([Hang]) or bringing the server down ([Crash]).
    - The clock advances only while the server waits for a child.
    - An error event of a child that no listener handles is an uncaught
      exception of the server ([Crash]).
    - Console logging is left out, and so is the timer of a race that
      fires after the job has ended. One job is followed at a time;
      what other jobs do to the file system in the meantime is part of
      what a [World] may do. *)

From Stdlib Require Import ZArith QArith Ascii String List Lia.
From stdpp Require Import base strings gmap pretty.

Local Open Scope Z_scope.

(** ** Strings *)

Module Str.

(** The double-quote character, spliced into the program templates. *)
Definition dq : string := String (ascii_of_nat 34) EmptyString.

(** The line-feed character. *)
Definition nl : string := String (ascii_of_nat 10) EmptyString.

Definition in_range (lo hi : nat) (c : ascii) : bool :=
  let n := nat_of_ascii c in (lo <=? n)%nat && (n <=? hi)%nat.

(** [\d] *)
Definition is_digit (c : ascii) : bool := in_range 48 57 c.

(** [[\d.]] *)
Definition is_digit_or_dot (c : ascii) : bool :=
  is_digit c || Ascii.eqb c "."%char.

(** [\w], that is [[A-Za-z0-9_]] *)
Definition is_word (c : ascii) : bool :=
  in_range 65 90 c || in_range 97 122 c || is_digit c || Ascii.eqb c "_"%char.

(** The string made of the given bytes. *)
Definition bytes (l : list nat) : string :=
  fold_right (fun n s => String (ascii_of_nat n) s) EmptyString l.

(** White space, that is [\s] and what [trim] removes, by the length of
    the UTF-8 encoding. One byte: tab, line feed, vertical tab, form
    feed, carriage return and space. *)
Definition is_space1 (a : ascii) : bool :=
  in_range 9 13 a || Ascii.eqb a " "%char.

(** Two bytes: U+00A0. *)
Definition is_space2 (a b : ascii) : bool :=
  (nat_of_ascii a =? 194)%nat && (nat_of_ascii b =? 160)%nat.

(** Three bytes: U+1680; U+2000 to U+200A, U+2028, U+2029 and U+202F;
    U+205F; U+3000; U+FEFF. *)
Definition is_space3 (a b c : ascii) : bool :=
  let x := nat_of_ascii a in
  let y := nat_of_ascii b in
  let z := nat_of_ascii c in
  (x =? 225)%nat && (y =? 154)%nat && (z =? 128)%nat
  || (x =? 226)%nat && (y =? 128)%nat
     && ((128 <=? z)%nat && (z <=? 138)%nat
         || (z =? 168)%nat || (z =? 169)%nat || (z =? 175)%nat)
  || (x =? 226)%nat && (y =? 129)%nat && (z =? 159)%nat
  || (x =? 227)%nat && (y =? 128)%nat && (z =? 128)%nat
  || (x =? 239)%nat && (y =? 187)%nat && (z =? 191)%nat.

(** [strip_prefix p s] is [Some r] when [s = p +:+ r]. *)
Fixpoint strip_prefix (p s : string) : option string :=
  match p, s with
  | EmptyString, _ => Some s
  | String a p', String b s' =>
      if Ascii.eqb a b then strip_prefix p' s' else None
  | String _ _, EmptyString => None
  end.

(** The longest prefix of [s] made of characters of class [f], and the
    rest: the greedy star of a character class. *)
Fixpoint span (f : ascii -> bool) (s : string) : string * string :=
  match s with
  | EmptyString => (EmptyString, EmptyString)
  | String c s' =>
      if f c then let '(a, b) := span f s' in (String c a, b)
      else (EmptyString, s)
  end.

(** The greedy plus of a character class. None of the patterns below is
    followed by a character of the class it repeats, so giving back
    characters never helps and the longest run is the only candidate. *)
Definition plus (f : ascii -> bool) (s : string) : option (string * string) :=
  match span f s with
  | (EmptyString, _) => None
  | (a, b) => Some (a, b)
  end.

(** Leftmost match: try the pattern at every position, from the left. *)
Fixpoint search {A : Type} (here : string -> option A) (s : string) : option A :=
  match here s with
  | Some a => Some a
  | None =>
      match s with
      | EmptyString => None
      | String _ s' => search here s'
      end
  end.

(** [s.includes(p)] *)
Definition includes (p s : string) : bool :=
  match search (strip_prefix p) s with Some _ => true | None => false end.

(** [s] without the white space it starts with. *)
Fixpoint drop_spaces (s : string) : string :=
  match s with
  | EmptyString => EmptyString
  | String a s1 =>
      if is_space1 a then drop_spaces s1
      else
        match s1 with
        | EmptyString => s
        | String b s2 =>
            if is_space2 a b then drop_spaces s2
            else
              match s2 with
              | EmptyString => s
              | String c s3 => if is_space3 a b c then drop_spaces s3 else s
              end
        end
  end.

(** The same on a reversed string: the bytes of a character come last
    byte first. *)
Fixpoint drop_spaces_reversed (s : string) : string :=
  match s with
  | EmptyString => EmptyString
  | String c s1 =>
      if is_space1 c then drop_spaces_reversed s1
      else
        match s1 with
        | EmptyString => s
        | String b s2 =>
            if is_space2 b c then drop_spaces_reversed s2
            else
              match s2 with
              | EmptyString => s
              | String a s3 =>
                  if is_space3 a b c then drop_spaces_reversed s3 else s
              end
        end
  end.

(** [\s+] at the start of [s]: what follows the white space, when there
    is some. None of the patterns below has [\s+] followed by white
    space, so the longest run is the only candidate. *)
Definition spaces (s : string) : option string :=
  let r := drop_spaces s in
  if (String.length r <? String.length s)%nat then Some r else None.

Fixpoint rev_onto (s acc : string) : string :=
  match s with
  | EmptyString => acc
  | String c s' => rev_onto s' (String c acc)
  end.

Definition rev (s : string) : string := rev_onto s EmptyString.

(** [s.trim()] *)
Definition trim (s : string) : string :=
  rev (drop_spaces_reversed (rev (drop_spaces s))).

(** [s.split('\n').map(line => pre + line).join('\n')] *)
Fixpoint prefix_lines (pre s : string) : string :=
  match s with
  | EmptyString => EmptyString
  | String c s' =>
      if Ascii.eqb c (ascii_of_nat 10)
      then String c (pre +:+ prefix_lines pre s')
      else String c (prefix_lines pre s')
  end.

Definition indent_lines (pre s : string) : string := pre +:+ prefix_lines pre s.

Definition is_empty (s : string) : bool :=
  match s with EmptyString => true | String _ _ => false end.

(** U+FFFD, the replacement character. *)
Definition replacement : string := bytes [239; 191; 189]%nat.

(** What a byte that begins a character asks for: the number of bytes
    that must follow, and the range of the first of them. [None] is a
    byte that begins no character. *)
Definition lead (b : ascii) : option (nat * nat * nat) :=
  let n := nat_of_ascii b in
  if (n <=? 127)%nat then Some (0, 128, 191)%nat
  else if (194 <=? n)%nat && (n <=? 223)%nat then Some (1, 128, 191)%nat
  else if (n =? 224)%nat then Some (2, 160, 191)%nat
  else if (n =? 237)%nat then Some (2, 128, 159)%nat
  else if (225 <=? n)%nat && (n <=? 239)%nat then Some (2, 128, 191)%nat
  else if (n =? 240)%nat then Some (3, 144, 191)%nat
  else if (n =? 244)%nat then Some (3, 128, 143)%nat
  else if (241 <=? n)%nat && (n <=? 243)%nat then Some (3, 128, 191)%nat
  else None.

(** The UTF-8 decoder behind [data.toString()], with its output held in
    UTF-8 again: a well-formed character is handed on as it is, and
    each ill-formed run (a byte that begins no character, or a
    character cut short by a byte that cannot continue it or by the
    end of the data) becomes one U+FFFD. [need] bytes are still to
    come for the character under way, the next of them between [lo]
    and [hi], and [held] is what has been read of it. *)
Fixpoint decode (need lo hi : nat) (held data : string) : string :=
  match data with
  | EmptyString =>
      match need with
      | O => EmptyString
      | S _ => replacement
      end
  | String b rest =>
      let afresh :=
        match lead b with
        | Some (O, _, _) => String b (decode 0 128 191 EmptyString rest)
        | Some (S k, lo', hi') => decode (S k) lo' hi' (String b EmptyString) rest
        | None => replacement +:+ decode 0 128 191 EmptyString rest
        end in
      match need with
      | O => afresh
      | S k =>
          if in_range lo hi b then
            match k with
            | O => held +:+ String b (decode 0 128 191 EmptyString rest)
            | S _ => decode k 128 191 (held +:+ String b EmptyString) rest
            end
          else replacement +:+ afresh
      end
  end.

(** [data.toString()] on a chunk of a stream. *)
Definition toString (data : string) : string :=
  decode 0 128 191 EmptyString data.

End Str.

(** ** Numbers *)

Inductive number : Type :=
| NaN
| Num (q : Q)
| Infinity.

Definition zero : number := Num 0.

(** JavaScript truthiness of a number: [0] and [NaN] are falsy. *)
Definition truthy (x : number) : bool :=
  match x with
  | NaN => false
  | Num q => negb (Qeq_bool q 0)
  | Infinity => true
  end.

(** The integer nearest to [n / d], the even one of two that are
    equally near; [0 <= n] and [0 < d]. *)
Definition round_half_even (n d : Z) : Z :=
  let q := n / d in
  let r := n mod d in
  if 2 * r <? d then q
  else if d <? 2 * r then q + 1
  else if Z.even q then q else q + 1.

(** The double nearest to [n / d], for [0 <= n]: round to nearest, ties
    to even, with 53 bits above the smallest exponent [-1074], and
    [Infinity] from [2^1024] on. *)
Definition to_double (n : Z) (d : positive) : number :=
  if n <=? 0 then Num 0
  else
    let e0 := Z.log2 n - Z.log2 (Zpos d) in
    (* the exponent of [n / d]: [2^e <= n / d < 2^(e + 1)] *)
    let e :=
      if (if 0 <=? e0 then Zpos d * 2 ^ e0 <=? n else Zpos d <=? n * 2 ^ (- e0))
      then e0 else e0 - 1 in
    (* the exponent of the last bit kept *)
    let k := Z.max (e - 52) (-1074) in
    let m :=
      if 0 <=? k then round_half_even n (Zpos d * 2 ^ k)
      else round_half_even (n * 2 ^ (- k)) (Zpos d) in
    if 0 <=? k then
      if 2 ^ 1024 <=? m * 2 ^ k then Infinity
      else Num (inject_Z (m * 2 ^ k))
    else Num (Qred (Qmake m (Z.to_pos (2 ^ (- k))))).

(** The value of a run of decimal digits, most significant first. *)
Fixpoint digits_value (acc : Z) (s : string) : Z :=
  match s with
  | EmptyString => acc
  | String c s' => digits_value (10 * acc + (Z.of_nat (nat_of_ascii c) - 48)) s'
  end.

(** [parseInt] on the strings the capture group [(\d+)] yields. *)
Definition parseInt (s : string) : number :=
  if Str.is_empty s then NaN else Num (inject_Z (digits_value 0 s)).

(** [parseFloat] on the strings the capture group [([\d.]+)] yields:
    the longest prefix that is a decimal literal (digits, then
    optionally a dot and digits; at least one digit in all) as a
    double, and [NaN] when there is none. *)
Definition parseFloat (s : string) : number :=
  let '(ip, rest) := Str.span Str.is_digit s in
  let fp :=
    match Str.strip_prefix "." rest with
    | Some r => fst (Str.span Str.is_digit r)
    | None => EmptyString
    end in
  if Str.is_empty ip && Str.is_empty fp then NaN
  else to_double (digits_value 0 (ip +:+ fp))
                 (Z.to_pos (10 ^ Z.of_nat (String.length fp))).

(** [ms / 1000] for a difference of two [Date.now()] readings. *)
Definition seconds_of_ms (ms : Z) : number := Num (Qred (Qmake ms 1000)).

(** [ns / 1_000_000_000.0] *)
Definition seconds_of_ns (x : number) : number :=
  match x with
  | NaN => NaN
  | Num q => Num (Qred (q / inject_Z 1000000000))
  | Infinity => Infinity
  end.

(** ** The regular expressions of the server *)

Module Re.
Import Str.

(** [/public\s+class\s+(\w+)/] anchored at the start of [s]; the result
    is the capture group. *)
Definition class_decl_here (s : string) : option string :=
  r1 ← strip_prefix "public" s;
  r2 ← spaces r1;
  r3 ← strip_prefix "class" r2;
  r4 ← spaces r3;
  '(name, _) ← plus is_word r4;
  Some name.

(** [code.match(/public\s+class\s+(\w+)/)], capture group 1 *)
Definition classNameMatch (code : string) : option string :=
  search class_decl_here code.

(** [/Execution Time: ([\d.]+) s/], capture group 1 *)
Definition time_here (s : string) : option string :=
  r1 ← strip_prefix "Execution Time: " s;
  '(payload, r2) ← plus is_digit_or_dot r1;
  _ ← strip_prefix " s" r2;
  Some payload.

Definition timeMatch (text : string) : option string := search time_here text.

(** [/Memory Usage: ([\d.]+) MB/], capture group 1 and what follows the
    match *)
Definition memory_here (s : string) : option (string * string) :=
  r1 ← strip_prefix "Memory Usage: " s;
  '(payload, r2) ← plus is_digit_or_dot r1;
  r3 ← strip_prefix " MB" r2;
  Some (payload, r3).

Definition memoryMatch (text : string) : option string :=
  search (fun s => fst <$> memory_here s) text.

(** [/Execution Time: (\d+) ns/], capture group 1 *)
Definition time_ns_here (s : string) : option string :=
  r1 ← strip_prefix "Execution Time: " s;
  '(payload, r2) ← plus is_digit r1;
  _ ← strip_prefix " ns" r2;
  Some payload.

Definition timeMatchNs (text : string) : option string := search time_ns_here text.

(** [/Memory Usage: [\d.]+ MB\n?/] anchored at the start of [s]; the
    result is what follows the match (the optional line feed is taken
    when it is there). *)
Definition memory_line_here (s : string) : option string :=
  '(_, r) ← memory_here s;
  Some (match strip_prefix nl r with Some r' => r' | None => r end).

(** [/.*Memory Usage: [\d.]+ MB\n?/s] anchored at the start of [s]. The
    star is greedy and the [s] flag lets the dot cross lines, so the
    memory line is looked for at the rightmost position first. *)
Fixpoint metrics_tail (s : string) : option string :=
  let later :=
    match s with
    | EmptyString => None
    | String _ s' => metrics_tail s'
    end in
  match later with
  | Some r => Some r
  | None => memory_line_here s
  end.

(** [/Performance Metrics:.*Memory Usage: [\d.]+ MB\n?/s] anchored at
    the start of [s]. *)
Definition metrics_here (s : string) : option string :=
  r ← strip_prefix "Performance Metrics:" s;
  metrics_tail r.

(** [output.replace(/Performance Metrics:.*Memory Usage: [\d.]+ MB\n?/s, '')]:
    the leftmost match is cut out, and the string is unchanged when
    there is none. *)
Fixpoint strip_metrics (s : string) : string :=
  match metrics_here s with
  | Some r => r
  | None =>
      match s with
      | EmptyString => EmptyString
      | String c s' => String c (strip_metrics s')
      end
  end.

End Re.


(** ** The programs the materializer writes *)

Module Templates.
Import Str.

(** The file written for a JavaScript job: the source inside a [try] block
    that reads the clock and the heap before and after it. *)
Definition wrappedCode (code : string) : string :=
"
          try {
            const startTime = process.hrtime.bigint();
            const startMemory = process.memoryUsage();
            
            " +:+
(code) +:+
"
            
            const endTime = process.hrtime.bigint();
            const endMemory = process.memoryUsage();
            
            // Calculate execution time in seconds
            const executionTime = Number(endTime - startTime) / 1_000_000_000;
            
            // Calculate memory usage in MB
            const memoryUsed = (endMemory.heapUsed - startMemory.heapUsed) / 1024 / 1024;
            
            console.log(" +:+ dq +:+
"Performance Metrics:" +:+ dq +:+
");
            console.log(" +:+ dq +:+
"Execution Time:" +:+ dq +:+
", executionTime.toFixed(3), " +:+ dq +:+
"s" +:+ dq +:+
");
            console.log(" +:+ dq +:+
"Memory Usage:" +:+ dq +:+
", memoryUsed.toFixed(2), " +:+ dq +:+
"MB" +:+ dq +:+
");
          } catch (error) {
            console.error('Error:', error.message);
            process.exit(1);
          }
        ".

(** The file written for a Python job: the source, indented by four
    spaces, inside a [try] block that reads the clock around it. *)
Definition pythonCode (code : string) : string :=
"
import sys
import os
import time
import gc

def get_memory_usage():
    # Force garbage collection
    gc.collect()
    # Get memory usage in MB
    return os.getpid()  # Just return process ID for now

try:
    start_time = time.time()
    start_memory = get_memory_usage()
    
    # User's code with proper indentation
" +:+
(indent_lines "    " code) +:+
"
    
    end_time = time.time()
    end_memory = get_memory_usage()
    
    execution_time = end_time - start_time
    # For Windows, we'll use a simple memory estimate
    memory_used = 0.0  # Memory tracking disabled for Windows compatibility
    
    print(" +:+ dq +:+
"Performance Metrics:" +:+ dq +:+
")
    print(f" +:+ dq +:+
"Execution Time: {execution_time:.3f} s" +:+ dq +:+
")
    print(f" +:+ dq +:+
"Memory Usage: {memory_used:.2f} MB" +:+ dq +:+
")
except Exception as e:
    print(f'Error: {str(e)}', file=sys.stderr)
    sys.exit(1)
".

(** The file written for a Java job. *)
Definition javaProgram (className : string) : string :=
"
public class " +:+
(className) +:+
" {
    public static void main(String[] args) {
        // Start timing in nanoseconds
        long startTime = System.nanoTime();
        
        try {
            // Create a large array to sort
            int[] arr = new int[10000];
            for (int i = 0; i < arr.length; i++) {
                arr[i] = (int)(Math.random() * 10000);
            }
            
            System.out.println(" +:+ dq +:+
"Original array (first 10 elements):" +:+ dq +:+
");
            for (int i = 0; i < 10; i++) {
                System.out.print(arr[i] + " +:+ dq +:+
" " +:+ dq +:+
");
            }
            System.out.println(" +:+ dq +:+
"..." +:+ dq +:+
");
            
            // Start sorting
            System.out.println(" +:+ dq +:+
"\nSorting array..." +:+ dq +:+
");
            quickSort(arr, 0, arr.length - 1);
            
            System.out.println(" +:+ dq +:+
"\nSorted array (first 10 elements):" +:+ dq +:+
");
            for (int i = 0; i < 10; i++) {
                System.out.print(arr[i] + " +:+ dq +:+
" " +:+ dq +:+
");
            }
            System.out.println(" +:+ dq +:+
"..." +:+ dq +:+
");
            
            // Force flush the output buffer
            System.out.flush();
            
            // Sleep for 2500ms to ensure consistent execution time
            Thread.sleep(2500);
            
        } catch (Exception e) {
            System.err.println(" +:+ dq +:+
"Error: " +:+ dq +:+
" + e.getMessage());
            System.exit(1);
        }
        
        // Calculate execution time in nanoseconds
        long endTime = System.nanoTime();
        long executionTimeNanos = endTime - startTime;
        
        // Print performance metrics
        System.out.println(" +:+ dq +:+
"Performance Metrics:" +:+ dq +:+
");
        System.out.println(" +:+ dq +:+
"Execution Time: " +:+ dq +:+
" + executionTimeNanos + " +:+ dq +:+
" ns" +:+ dq +:+
");
        System.out.println(" +:+ dq +:+
"Memory Usage: 0.00 MB" +:+ dq +:+
");
    }
    
    private static void quickSort(int[] arr, int low, int high) {
        if (low < high) {
            int pi = partition(arr, low, high);
            quickSort(arr, low, pi - 1);
            quickSort(arr, pi + 1, high);
        }
    }
    
    private static int partition(int[] arr, int low, int high) {
        int pivot = arr[high];
        int i = (low - 1);
        
        for (int j = low; j < high; j++) {
            if (arr[j] <= pivot) {
                i++;
                int temp = arr[i];
                arr[i] = arr[j];
                arr[j] = temp;
            }
        }
        
        int temp = arr[i + 1];
        arr[i + 1] = arr[high];
        arr[high] = temp;
        
        return i + 1;
    }
}".

(** The file written for a C++ job: headers and a timer class, then the
    source. *)
Definition cppCode (code : string) : string :=
"
#include <iostream>
#include <chrono>
#include <vector>
#include <iomanip>

using namespace std;

// Performance tracking functions
namespace Performance {
    class Timer {
    private:
        chrono::high_resolution_clock::time_point start;
    public:
        Timer() {
            start = chrono::high_resolution_clock::now();
        }
        
        void stop() {
            auto end = chrono::high_resolution_clock::now();
            auto duration = chrono::duration_cast<chrono::milliseconds>(end - start);
            double executionTime = duration.count() / 1000.0;
            
            cout << " +:+ dq +:+
"Performance Metrics:" +:+ dq +:+
" << endl;
            cout << " +:+ dq +:+
"Execution Time: " +:+ dq +:+
" << fixed << setprecision(3) << executionTime << " +:+ dq +:+
" s" +:+ dq +:+
" << endl;
            cout << " +:+ dq +:+
"Memory Usage: 0.00 MB" +:+ dq +:+
" << endl;
        }
    };
}

" +:+
code.

End Templates.

(** ** The pattern scanner: [analyzeComplexity] and [generateAISuggestions] *)

Module Scanner.
Import Str.

(** [code.toLowerCase()], as far as the letters of ASCII go. The
    result is searched for the word [sort] only, and no character
    outside ASCII has a lower case with one of its letters in it. *)
Definition lower_char (c : ascii) : ascii :=
  if in_range 65 90 c then ascii_of_nat (nat_of_ascii c + 32) else c.

Fixpoint toLowerCase (s : string) : string :=
  match s with
  | EmptyString => EmptyString
  | String c s' => String (lower_char c) (toLowerCase s')
  end.

(** [(code.match(re) || []).length] for a pattern with the [g] flag:
    matches are counted from the left and the search resumes where the
    previous match ended. [here] gives what follows a match at the
    start of its argument; [skip] counts the characters still inside
    the previous match. *)
Fixpoint count_global (here : string -> option string) (skip : nat) (s : string) : nat :=
  match s with
  | EmptyString => O
  | String _ s' =>
      match skip with
      | S k => count_global here k s'
      | O =>
          match here s with
          | Some r =>
              S (count_global here (String.length s - String.length r - 1)%nat s')
          | None => count_global here O s'
          end
      end
  end.

(** [/word/g] *)
Definition count_word (word code : string) : nat :=
  count_global (strip_prefix word) O code.

(** The line terminators, at which the dot of a pattern without the
    [s] flag stops: line feed, carriage return, U+2028 and U+2029. *)
Definition line_terminators : list string :=
  [bytes [10]%nat; bytes [13]%nat; bytes [226; 128; 168]%nat; bytes [226; 128; 169]%nat].

(** A line terminator begins [s]. *)
Definition at_line_end (s : string) : bool :=
  existsb
    (fun t => match strip_prefix t s with Some _ => true | None => false end)
    line_terminators.

(** [/.*b/] anchored at the start of [s]: greedy, so the rightmost [b]
    of the line is tried first. *)
Fixpoint dots_then (b : string) (s : string) : option string :=
  let later :=
    match s with
    | EmptyString => None
    | String _ s' => if at_line_end s then None else dots_then b s'
    end in
  match later with
  | Some r => Some r
  | None => strip_prefix b s
  end.

(** [/a.*b/g] *)
Definition count_pair (a b code : string) : nat :=
  count_global (fun s => r ← strip_prefix a s; dots_then b r) O code.

Definition starts_with_word (s : string) : bool :=
  match s with
  | EmptyString => false
  | String c _ => is_word c
  end.

(** [/\b(x|y|z|a|b|c|temp|var)\b/] somewhere in the line; [prev] tells
    whether the character before the current position is a word
    character. *)
Fixpoint poor_name_from (prev : bool) (s : string) : bool :=
  let here :=
    negb prev &&
    existsb
      (fun a =>
         match strip_prefix a s with
         | Some r => negb (starts_with_word r)
         | None => false
         end)
      ["x"; "y"; "z"; "a"; "b"; "c"; "temp"; "var"] in
  here ||
  match s with
  | EmptyString => false
  | String c s' => poor_name_from (is_word c) s'
  end.

Definition poor_name (line : string) : bool := poor_name_from false line.

(** [code.split('\n')] *)
Fixpoint split_first_line (s : string) : string * list string :=
  match s with
  | EmptyString => (EmptyString, [])
  | String c s' =>
      let '(l, ls) := split_first_line s' in
      if Ascii.eqb c (ascii_of_nat 10) then (EmptyString, l :: ls)
      else (String c l, ls)
  end.

Definition split_lines (s : string) : list string :=
  let '(l, ls) := split_first_line s in l :: ls.

(** [lines.map((line, index) => test(line) ? index + 1 : -1).filter(n => n !== -1)] *)
Fixpoint line_numbers_from (i : Z) (test : string -> bool) (ls : list string) : list Z :=
  match ls with
  | [] => []
  | l :: ls' =>
      if test l then (i + 1) :: line_numbers_from (i + 1) test ls'
      else line_numbers_from (i + 1) test ls'
  end.

Definition line_numbers (test : string -> bool) (ls : list string) : list Z :=
  line_numbers_from 0 test ls.

Record Complexity : Type := {
  time : string;
  space : string;
  explanation : string;
}.

Definition analyzeComplexity (code language : string) : Complexity :=
  let loopCount := (count_word "for" code + count_word "while" code)%nat in
  let nestedLoopCount :=
    (count_pair "for" "for" code + count_pair "while" "while" code
     + count_pair "for" "while" code)%nat in
  let functionCount := count_word "function" code in
  let returnCount := count_word "return" code in
  let hasRecursion :=
    (0 <? functionCount)%nat && (0 <? returnCount)%nat
    && (2 <? functionCount + returnCount)%nat in
  let isRecursiveFibonacci :=
    includes "fib" code && includes "n-1" code && includes "n-2" code
    && includes "return" code && includes "if n <= 1" code in
  let array :=
    includes "[" code || includes "Array" code || includes "vector" code
    || includes "ArrayList" code in
  let map :=
    includes "Map" code || includes "HashMap" code || includes "map" code
    || includes "dictionary" code in
  let set :=
    includes "Set" code || includes "HashSet" code || includes "set" code
    || includes "set()" code in
  let stack :=
    includes "Stack" code || includes "push" code || includes "pop" code in
  let queue :=
    includes "Queue" code || includes "enqueue" code || includes "dequeue" code in
  let sorting :=
    includes "sort" (toLowerCase code) || includes "quicksort" code
    || includes "mergesort" code || includes "bubblesort" code in
  let binarySearch :=
    includes "binarySearch" code || includes "binary_search" code
    || includes "mid = (low + high) / 2" code in
  let memoization := includes "memo" code || includes "cache" code in
  let '(timeComplexity, explanation1) :=
    if isRecursiveFibonacci && negb memoization then
      ("O(2^n)",
       "Exponential time complexity due to recursive Fibonacci without memoization. Each call creates two new recursive calls.")
    else if (0 <? nestedLoopCount)%nat then
      ("O(n²)", "Quadratic time complexity due to nested loops.")
    else if sorting then
      ("O(n log n)", "Log-linear time complexity due to sorting operation.")
    else if binarySearch then
      ("O(log n)", "Logarithmic time complexity due to binary search.")
    else if hasRecursion then
      ("O(n)", "Linear time complexity for recursive operations.")
    else if (0 <? loopCount)%nat then
      ("O(n)", "Linear time complexity due to single loop.")
    else
      ("O(1)", "Constant time and space complexity for basic operations.") in
  let dataStructureCount :=
    length (filter (fun b => Is_true b) [array; map; set; stack; queue]) in
  let '(spaceComplexity, explanation2) :=
    if isRecursiveFibonacci && negb memoization then
      ("O(n)", " Linear space complexity due to recursion stack depth of n.")
    else if (0 <? dataStructureCount)%nat then
      if (0 <? nestedLoopCount)%nat then
        ("O(n²)", " Quadratic space complexity due to nested data structures.")
      else if (0 <? loopCount)%nat then
        ("O(n)", " Linear space complexity for data structure storage.")
      else
        ("O(1)", " Constant space complexity for single data structure.")
    else if hasRecursion then
      ("O(n)", " Linear space complexity due to recursion stack.")
    else
      ("O(1)", EmptyString) in
  {| time := timeComplexity;
     space := spaceComplexity;
     explanation := explanation1 +:+ explanation2 |}.

Inductive Severity : Type := info | warning | critical.

Record Suggestion : Type := {
  type : string;
  title : string;
  description : string;
  lineNumbers : list Z;
  severity : Severity;
  improvementCode : string;
}.

(** [lines.some((line, index) => lines.slice(index + 1).some(nextLine => ...))] *)
Fixpoint hasDuplication (lines : list string) : bool :=
  match lines with
  | [] => false
  | line :: rest =>
      existsb
        (fun nextLine =>
           String.eqb (trim line) (trim nextLine)
           && negb (is_empty (trim line))
           && negb (includes "}" line)
           && negb (includes "{" line))
        rest
      || hasDuplication rest
  end.

Definition generateAISuggestions (code language : string) : list Suggestion :=
  let lines := split_lines code in
  (if includes "for" code && includes "for" code then
     [ {| type := "performance";
          title := "Nested Loops Detected";
          description := "Consider using more efficient data structures or algorithms to avoid O(n²) complexity.";
          lineNumbers := line_numbers (includes "for") lines;
          severity := warning;
          improvementCode := "// Consider using Map or Set for O(1) lookups
const map = new Map();
for (const item of items) {
  map.set(item.id, item);
}" |} ]
   else [])
  ++
  (if negb (includes "try" code) && negb (includes "catch" code) then
     [ {| type := "bestPractice";
          title := "Missing Error Handling";
          description := "Add try-catch blocks to handle potential errors gracefully.";
          lineNumbers := [1];
          severity := critical;
          improvementCode := "try {
  // Your code here
} catch (error) {
  console.error('Error:', error);
  // Handle error appropriately
}" |} ]
   else [])
  ++
  (if existsb
        (fun line =>
           poor_name line && negb (includes "//" line)
           && negb (includes "*" line) && negb (includes "+" line))
        lines
   then
     [ {| type := "readability";
          title := "Poor Variable Naming";
          description := "Use descriptive variable names to improve code readability.";
          lineNumbers := line_numbers poor_name lines;
          severity := info;
          improvementCode := "// Instead of:
const x = userCount;
const y = activeUsers;

// Use:
const totalUsers = userCount;
const onlineUsers = activeUsers;" |} ]
   else [])
  ++
  (if hasDuplication lines then
     [ {| type := "maintainability";
          title := "Code Duplication Detected";
          description := "Extract repeated code into functions to improve maintainability.";
          lineNumbers := [1];
          severity := warning;
          improvementCode := "// Instead of repeating code:
function processUser(user) {
  // Common user processing logic
}

// Use the function:
users.forEach(processUser);" |} ]
   else [])
  ++
  (if includes "setInterval" code && negb (includes "clearInterval" code) then
     [ {| type := "memory";
          title := "Potential Memory Leak";
          description := "Remember to clear intervals when they are no longer needed.";
          lineNumbers := line_numbers (includes "setInterval") lines;
          severity := critical;
          improvementCode := "const intervalId = setInterval(() => {
  // Your code here
}, 1000);

// Clean up when done
clearInterval(intervalId);" |} ]
   else []).

End Scanner.

Import Str Re Templates Scanner.

(** ** The environment *)

(** How a spawned child ends, as the server sees it. Durations are in
    milliseconds from the moment the server starts waiting. *)
Inductive Termination : Type :=
| SpawnError
    (* the error event: the command could not be launched *)
| Close (after : N) (code : option Z)
    (* the close event; the code is null when a signal ended the child *)
| NoClose.
    (* the child never closes on its own *)

(** What a spawned child does. [stdout] and [stderr] are the chunks of
    the data events, in arrival order, as the bytes the child wrote;
    [fs_after] is the file system when the server stops waiting for
    the child. [epipe] is the moment the pipe to the child's standard
    input closes (the child closes it, or ends, or is killed) with
    text the server wrote to it still on its way: the write then
    fails, and the stream emits an error event. It is [None] for a
    child that takes all that is written to it. *)
Record Proc : Type := {
  term : Termination;
  stdout : list string;
  stderr : list string;
  fs_after : gmap string string;
  epipe : option N;
}.

(** [exec cmd args stdin fs]: the command line, the text written to the
    child's standard input before it was closed ([None] when the server
    writes nothing and leaves it open), and the file system at launch. *)
Record World : Type := {
  tmpdir : string;
  exec : string -> list string -> option string -> gmap string string -> Proc;
}.

(** A child process handle: the command line it was spawned with. *)
Definition Handle : Type := (string * list string)%type.

(** What the server does to its environment, in order. *)
Inductive Event : Type :=
| EvSpawn (cmd : string) (args : list string)
| EvWrite (path content : string)
| EvUnlink (path : string)
| EvStdin (text : string)
| EvKill (h : Handle).

(** The state a job runs in: the file system, the clock ([Date.now()]),
    the job's [process] variable, the module-level [activeProcesses]
    map, and the events so far. *)
Record State : Type := {
  fs : gmap string string;
  now : Z;
  process : option Handle;
  activeProcesses : gmap string Handle;
  trace : list Event;
}.

Definition set_fs (f : gmap string string) (s : State) : State :=
  {| fs := f; now := now s; process := process s;
     activeProcesses := activeProcesses s; trace := trace s |}.

Definition set_now (t : Z) (s : State) : State :=
  {| fs := fs s; now := t; process := process s;
     activeProcesses := activeProcesses s; trace := trace s |}.

Definition set_process (p : option Handle) (s : State) : State :=
  {| fs := fs s; now := now s; process := p;
     activeProcesses := activeProcesses s; trace := trace s |}.

Definition log (e : Event) (s : State) : State :=
  {| fs := fs s; now := now s; process := process s;
     activeProcesses := activeProcesses s; trace := trace s ++ [e] |}.

(** ** The monad of asynchronous computations *)

Inductive Outcome (A : Type) : Type :=
| Ret (a : A)          (* the promise resolves, or the function returns *)
| Throw (msg : string) (* it rejects, or throws, with [new Error(msg)] *)
| Hang                 (* the promise never settles *)
| Crash.               (* an uncaught exception ends the server *)
Arguments Ret {A} a.
Arguments Throw {A} msg.
Arguments Hang {A}.
Arguments Crash {A}.

Definition M (A : Type) : Type := State -> Outcome A * State.

Definition ret {A : Type} (a : A) : M A := fun s => (Ret a, s).

Definition throw {A : Type} (msg : string) : M A := fun s => (Throw msg, s).

Definition hang {A : Type} : M A := fun s => (Hang, s).

Definition crash {A : Type} : M A := fun s => (Crash, s).

Definition bind {A B : Type} (m : M A) (k : A -> M B) : M B :=
  fun s =>
    match m s with
    | (Ret a, s') => k a s'
    | (Throw e, s') => (Throw e, s')
    | (Hang, s') => (Hang, s')
    | (Crash, s') => (Crash, s')
    end.

Declare Scope async_scope.
Delimit Scope async_scope with async.
Notation "x <- m ;; k" := (bind m (fun x => k))
  (at level 100, m at next level, right associativity) : async_scope.
Notation "m ;; k" := (bind m (fun _ => k))
  (at level 100, right associativity) : async_scope.
Local Open Scope async_scope.

(** [try { m } catch (error) { h error }] *)
Definition try_catch {A : Type} (m : M A) (h : string -> M A) : M A :=
  fun s =>
    match m s with
    | (Throw e, s') => h e s'
    | r => r
    end.

(** [try { m } finally { fin }]: [fin] runs when [m] returns or throws,
    and the outcome of [m] stands unless [fin] itself does not return. *)
Definition try_finally {A : Type} (m : M A) (fin : M unit) : M A :=
  fun s =>
    match m s with
    | (Ret a, s') => (fin ;; ret a) s'
    | (Throw e, s') => (fin ;; throw e) s'
    | r => r
    end.

(** A state change that cannot fail. *)
Definition modify (f : State -> State) : M unit := fun s => (Ret tt, f s).

Definition get {A : Type} (f : State -> A) : M A := fun s => (Ret (f s), s).

(** ** Responses *)

Record AiFeedback : Type := {
  suggestions : list Suggestion;
  overallQuality : Z;
  summary : string;
}.

(** The objects that end up under the [result] key of a response:
    - [Executed]: what [executeCode] returns after the common
      supervision code;
    - [JavaExecuted]: what the Java case of [executeCode] returns (its
      keys are [output], [error], [executionTime], [memoryUsage],
      [complexity] and [suggestions]; [None] stands for [null]);
    - [Failed]: the object the [/api/execute] route builds itself. *)
Inductive Result : Type :=
| Executed (output : string) (errors : option string)
    (executionTime memoryUsage : number)
    (complexity : Complexity) (aiFeedback : AiFeedback)
| JavaExecuted (output : option string) (error : option string)
    (executionTime memoryUsage : number)
    (complexity : Complexity) (suggestions : list Suggestion)
| Failed (output : string) (errors : string)
    (executionTime memoryUsage : number) (complexity : Complexity).

(** [result.errors]; [None] is [undefined]. *)
Definition errors_of (r : Result) : option string :=
  match r with
  | Executed _ errors _ _ _ _ => errors
  | JavaExecuted _ _ _ _ _ _ => None
  | Failed _ errors _ _ _ => Some errors
  end.

(** [result.output]; [None] is [null]. *)
Definition output_of (r : Result) : option string :=
  match r with
  | Executed output _ _ _ _ _ => Some output
  | JavaExecuted output _ _ _ _ _ => output
  | Failed output _ _ _ _ => Some output
  end.

(** [result.executionTime] *)
Definition executionTime_of (r : Result) : number :=
  match r with
  | Executed _ _ t _ _ _ => t
  | JavaExecuted _ _ t _ _ _ => t
  | Failed _ _ t _ _ => t
  end.

(** [result.memoryUsage] *)
Definition memoryUsage_of (r : Result) : number :=
  match r with
  | Executed _ _ _ m _ _ => m
  | JavaExecuted _ _ _ m _ _ => m
  | Failed _ _ _ m _ => m
  end.

(** [result.aiFeedback]; [None] is [undefined]. *)
Definition aiFeedback_of (r : Result) : option AiFeedback :=
  match r with
  | Executed _ _ _ _ _ f => Some f
  | JavaExecuted _ _ _ _ _ _ => None
  | Failed _ _ _ _ _ => None
  end.

(** The body [{ result, aiFeedback }] of a reply of [/api/execute], with
    its status code. *)
Record Response : Type := {
  status : Z;
  body_result : Result;
  body_aiFeedback : option AiFeedback;
}.

(** The body of a request to [/api/execute]; [None] is a missing key. *)
Record Request : Type := {
  req_code : option string;
  req_language : option string;
  req_input : option string;
}.

(** The body [{ success }] of a reply of [/api/abort]. *)
Record AbortResponse : Type := { success : bool }.

(** ** The engine *)

(** [path.join(dir, file)] for a directory without a trailing separator
    and a file name without one. *)
Definition join (dir file : string) : string := dir +:+ "/" +:+ file.

(** [code === 0] *)
Definition code_is_zero (code : option Z) : bool :=
  match code with
  | Some 0 => true
  | _ => false
  end.

(** The exit code inside a template literal. *)
Definition show_code (code : option Z) : string :=
  match code with
  | Some c => pretty c
  | None => "null"
  end.

(** What [text += data.toString()] collects over the data events of a
    stream: every chunk is decoded on its own. *)
Fixpoint concat_chunks (chunks : list string) : string :=
  match chunks with
  | [] => EmptyString
  | data :: rest => toString data +:+ concat_chunks rest
  end.

(** The [stdout] handler of the common supervision code, run over the
    chunks in order: each chunk is decoded and appended to [output],
    and a chunk that holds a marker overwrites [executionTime] or
    [memoryUsage]. *)
Definition on_stdout (acc : string * number * number) (data : string)
  : string * number * number :=
  let '(output, executionTime, memoryUsage) := acc in
  let text := toString data in
  (output +:+ text,
   match timeMatch text with
   | Some payload => parseFloat payload
   | None => executionTime
   end,
   match memoryMatch text with
   | Some payload => parseFloat payload
   | None => memoryUsage
   end).

(** The [stdout] handler of the Java run. *)
Definition on_java_stdout (acc : string * number) (data : string)
  : string * number :=
  let '(output, executionTime) := acc in
  let text := toString data in
  (output +:+ text,
   match timeMatchNs text with
   | Some payload => parseInt payload
   | None => executionTime
   end).

(** The deadline of the final wait, in milliseconds. *)
Definition timeout : N := 10000.

(** Whether the moment [at_ms] lies within the wait for the child:
    before the deadline, and no later than the close of the child (the
    close event comes after the streams of the child have closed). *)
Definition in_wait (p : Proc) (at_ms : N) : bool :=
  match term p with
  | Close t _ => (at_ms <=? t)%N && (at_ms <? timeout)%N
  | _ => (at_ms <? timeout)%N
  end.

(** When the write of [input] to the standard input of the child
    fails under the eyes of the job: there is an input, and the pipe
    closes under it while the job waits. A failure that comes once the
    wait is over (as when the kill at the deadline closes the pipe)
    finds the job done: it ends the server after the reply, and is no
    part of what [executeCode] does. *)
Definition write_fails (input : string) (p : Proc) : option N :=
  if is_empty input then None
  else match epipe p with
       | Some fails_at => if in_wait p fails_at then Some fails_at else None
       | None => None
       end.

Definition java_missing : string :=
  "Java is not installed. Please install Java to run Java code.".

Definition gpp_missing : string :=
  "C++ compiler (g++) is not installed. Please install g++ to run C++ code.".

Definition feedback_of (suggestions : list Suggestion) : AiFeedback :=
  let n := length suggestions in
  {| suggestions := suggestions;
     overallQuality := if (n =? 0)%nat then 10 else Z.max 1 (10 - Z.of_nat n);
     summary :=
       if (n =? 0)%nat then "Code looks good! No major issues detected."
       else "Code could be improved. Found " +:+ pretty n +:+ " suggestion"
            +:+ (if (1 <? n)%nat then "s" else EmptyString) +:+ "." |}.

Definition unknown_complexity (explanation : string) : Complexity :=
  {| time := "Unknown"; space := "Unknown"; explanation := explanation |}.

(** [classNameMatch ? classNameMatch[1] : 'Main'] *)
Definition className_of (code : string) : string :=
  match classNameMatch code with
  | Some name => name
  | None => "Main"
  end.

(** [join(tempDir, `code_${timestamp}`)] *)
Definition temp_path (tempDir : string) (timestamp : Z) : string :=
  join tempDir ("code_" +:+ pretty timestamp).

Section Engine.

Variable w : World.

Definition Date_now : M Z := get now.

(** [await writeFile(path, content)] *)
Definition writeFile (path content : string) : M unit :=
  modify (fun s => log (EvWrite path content) (set_fs (<[path := content]> (fs s)) s)).

(** [await fs.access(path)] *)
Definition access (path : string) : M unit :=
  fun s =>
    match fs s !! path with
    | Some _ => (Ret tt, s)
    | None => (Throw ("ENOENT: no such file or directory, access " +:+ path), s)
    end.

(** [await fs.access(path).then(() => true).catch(() => false)] *)
Definition file_exists (path : string) : M bool :=
  try_catch (access path ;; ret true) (fun _ => ret false).

(** [await unlink(path)]; the event records a file really removed. *)
Definition unlink (path : string) : M unit :=
  fun s =>
    match fs s !! path with
    | Some _ => (Ret tt, log (EvUnlink path) (set_fs (delete path (fs s)) s))
    | None => (Throw ("ENOENT: no such file or directory, unlink " +:+ path), s)
    end.

(** [spawn(cmd, args)] *)
Definition spawn (cmd : string) (args : list string) : M Handle :=
  fun s => (Ret (cmd, args), log (EvSpawn cmd args) s).

(** What the child behind a handle does in the current file system. *)
Definition child (h : Handle) (stdin : option string) : M Proc :=
  get (fun s => exec w (fst h) (snd h) stdin (fs s)).

(** The server stops waiting for a child after [t] milliseconds. *)
Definition settle (p : Proc) (t : N) : M unit :=
  modify (fun s => set_now (now s + Z.of_N t) (set_fs (fs_after p) s)).

(** [process.kill()] *)
Definition kill (h : Handle) : M unit := modify (log (EvKill h)).

(** The toolchain check: a promise that rejects on the error event and
    on a non-zero close, inside a [try] whose [catch] throws [msg]. *)
Definition probe (cmd : string) (args : list string) (msg : string) : M unit :=
  try_catch
    (h <- spawn cmd args ;;
     p <- child h None ;;
     match term p with
     | SpawnError => throw msg
     | Close t code =>
         settle p t ;;
         if code_is_zero code then ret tt else throw msg
     | NoClose => hang
     end)
    (fun _ => throw msg).

(** A promise on a child that listens to close only: it resolves on
    code 0 and rejects with [failure] followed by the collected
    standard error otherwise. Nothing listens to the error event, so a
    failed launch is an unhandled error event, which ends the server;
    nothing bounds the wait. *)
Definition await_close (h : Handle) (failure : string) : M Proc :=
  p <- child h None ;;
  match term p with
  | SpawnError => crash
  | Close t code =>
      settle p t ;;
      if code_is_zero code then ret p
      else throw (failure +:+ concat_chunks (stderr p))
  | NoClose => hang
  end.

(** The Java case of the [switch]. *)
Definition java_case (code language tempDir : string) : M Result :=
  let className := className_of code in
  let javaFile := join tempDir (className +:+ ".java") in
  let javaClass := join tempDir (className +:+ ".class") in
  try_finally
    (try_catch
       (writeFile javaFile (javaProgram className) ;;
        javac <- spawn "javac" [javaFile] ;;
        await_close javac "Compilation failed: " ;;
        java <- spawn "java" ["-cp"; tempDir; className] ;;
        p <- await_close java "Execution failed: " ;;
        let '(output, executionTime) :=
          fold_left on_java_stdout (stdout p) (EmptyString, zero) in
        let cleanOutput := trim (strip_metrics output) in
        ret (JavaExecuted
               (Some (if is_empty cleanOutput then "No output generated"
                      else cleanOutput))
               None
               (seconds_of_ns executionTime)
               zero
               (analyzeComplexity code language)
               (generateAISuggestions code language)))
       (fun error =>
          ret (JavaExecuted None (Some error) zero zero
                 (analyzeComplexity code language)
                 (generateAISuggestions code language))))
    (try_catch
       (fileExists <- file_exists javaFile ;;
        classExists <- file_exists javaClass ;;
        (if fileExists : bool then unlink javaFile else ret tt) ;;
        (if classExists : bool then unlink javaClass else ret tt))
       (fun _ => ret tt)).

(** The C++ case of the [switch], up to the launch of the binary. *)
Definition cpp_case (code filePath : string) : M Handle :=
  let cppFile := filePath +:+ ".cpp" in
  writeFile cppFile (cppCode code) ;;
  cppCompileProcess <-
    spawn "g++" [cppFile; "-o"; filePath; "-std=c++11"; "-Wall"] ;;
  await_close cppCompileProcess "C++ compilation failed: " ;;
  spawn filePath [].

(** The [switch]: [Some r] when the case returns [r] from [executeCode],
    [None] when it breaks with [process] set. *)
Definition switch_language (code language tempDir filePath : string)
  : M (option Result) :=
  if String.eqb language "javascript" then
    writeFile filePath (wrappedCode code) ;;
    h <- spawn "node" [filePath] ;;
    modify (set_process (Some h)) ;;
    ret None
  else if String.eqb language "python" then
    writeFile filePath (pythonCode code) ;;
    h <- spawn "python" [filePath] ;;
    modify (set_process (Some h)) ;;
    ret None
  else if String.eqb language "java" then
    r <- java_case code language tempDir ;;
    ret (Some r)
  else if String.eqb language "cpp" then
    h <- cpp_case code filePath ;;
    modify (set_process (Some h)) ;;
    ret None
  else
    throw ("Unsupported language: " +:+ language).

(** The child does not close before the deadline. The timer of the
    race fires: the child is killed and the race rejects. Nothing
    listens to the error event of [process.stdin]: a write that fails
    during the wait ([broken], a moment before the deadline) ends the
    server there and then. *)
Definition expire (h : Handle) (p : Proc) (broken : option N) : M unit :=
  match broken with
  | Some fails_at => settle p (N.min fails_at timeout) ;; crash
  | None => settle p timeout ;; kill h ;; throw "Execution timeout"
  end.

(** [await Promise.race([executionPromise, timeoutPromise])]: the close
    of the child against a timer of [timeout] milliseconds. A close at
    the very instant of the deadline counts as late. Nothing listens
    to the error event of the child, nor to that of [process.stdin]:
    a child that cannot be launched, and a write of the input that
    fails during the wait ([broken], a moment no later than the close
    of the child), end the server whatever the exit code. *)
Definition race (h : Handle) (p : Proc) (errors : string) (broken : option N)
  : M unit :=
  match term p with
  | SpawnError => crash
  | Close t code =>
      if (t <? timeout)%N then
        match broken with
        | Some fails_at => settle p (N.min fails_at t) ;; crash
        | None =>
            settle p t ;;
            if code_is_zero code then ret tt
            else throw (if is_empty errors
                        then "Process exited with code " +:+ show_code code
                        else errors)
        end
      else expire h p broken
  | NoClose => expire h p broken
  end.

(** The code after the [switch]: collect the streams of [process],
    feed it [input], wait for it against the deadline, and build the
    result. *)
Definition supervise (code language input : string) (startTime : Z) : M Result :=
  proc <- get process ;;
  match proc with
  | None => throw "Failed to create process"
  | Some h =>
      p <- child h (if is_empty input then None else Some input) ;;
      (if is_empty input then ret tt else modify (log (EvStdin input))) ;;
      let '(output, executionTime, memoryUsage) :=
        fold_left on_stdout (stdout p) (EmptyString, zero, zero) in
      let errors := concat_chunks (stderr p) in
      try_catch (race h p errors (write_fails input p))
        (fun error => throw error) ;;
      finish <- Date_now ;;
      let executionTime :=
        if truthy executionTime then executionTime
        else seconds_of_ms (finish - startTime) in
      let complexity := analyzeComplexity code language in
      let suggestions := generateAISuggestions code language in
      ret (Executed
             (trim (strip_metrics output))
             (if is_empty errors then None else Some errors)
             executionTime
             memoryUsage
             complexity
             (feedback_of suggestions))
  end.

(** [try { await fs.access(path); await unlink(path) } catch (e) {}] *)
Definition remove_if_present (path : string) : M unit :=
  try_catch (access path ;; unlink path) (fun _ => ret tt).

(** The first [try] of the [finally] block: kill the process if the
    job has one. *)
Definition kill_process : M unit :=
  proc <- get process ;;
  match proc with
  | Some h => try_catch (kill h) (fun _ => ret tt)
  | None => ret tt
  end.

(** The second [try] of the [finally] block: remove files, by language. *)
Definition remove_files (language tempDir filePath : string) : M unit :=
  try_catch
    (if String.eqb language "java" then
       remove_if_present (join tempDir "Main.java") ;;
       remove_if_present (join tempDir "Main.class")
     else if String.eqb language "cpp" then
       remove_if_present (filePath +:+ ".cpp")
     else
       remove_if_present filePath)
    (fun _ => ret tt).

(** The [finally] block of [executeCode]. *)
Definition cleanup (language tempDir filePath : string) : M unit :=
  kill_process ;;
  remove_files language tempDir filePath.

(** The [try] block up to the end of the [switch]: the toolchain
    checks, the temporary file, the clock reading and the case of the
    language. The result pairs [startTime] with what the [switch]
    returned. *)
Definition prepare (code language tempDir filePath : string)
  : M (Z * option Result) :=
  (if String.eqb language "java"
   then probe "java" ["-version"] java_missing else ret tt) ;;
  (if String.eqb language "cpp"
   then probe "g++" ["--version"] gpp_missing else ret tt) ;;
  writeFile filePath code ;;
  startTime <- Date_now ;;
  returned <- switch_language code language tempDir filePath ;;
  ret (startTime, returned).

(** The whole [try] block. *)
Definition job (code language input tempDir filePath : string) : M Result :=
  prepared <- prepare code language tempDir filePath ;;
  match snd prepared with
  | Some r => ret r
  | None => supervise code language input (fst prepared)
  end.

Definition executeCode (code language input : string) : M Result :=
  let tempDir := tmpdir w in
  timestamp <- Date_now ;;
  let filePath := temp_path tempDir timestamp in
  modify (set_process None) ;;
  try_finally
    (try_catch
       (job code language input tempDir filePath)
       (fun error => throw error))
    (cleanup language tempDir filePath).

(** The handler of [POST /api/execute]. *)
Definition post_execute (req : Request) : M Response :=
  let invalid :=
    {| status := 400;
       body_result :=
         Failed EmptyString "Code and language are required" zero zero
           (unknown_complexity "Invalid input parameters");
       body_aiFeedback :=
         Some {| suggestions := [];
                 overallQuality := 0;
                 summary := "Invalid input parameters" |} |} in
  match req_code req, req_language req with
  | Some code, Some language =>
      if is_empty code || is_empty language then ret invalid
      else
        try_catch
          (result <-
             executeCode code language
               (match req_input req with Some i => i | None => EmptyString end) ;;
           ret {| status := 200;
                  body_result := result;
                  body_aiFeedback := aiFeedback_of result |})
          (fun errorMessage =>
             ret {| status := 500;
                    body_result :=
                      Failed EmptyString errorMessage zero zero
                        (unknown_complexity
                           "Could not determine complexity due to execution error");
                    body_aiFeedback :=
                      Some {| suggestions := [];
                              overallQuality := 0;
                              summary :=
                                "Code execution failed: " +:+ errorMessage |} |})
  | _, _ => ret invalid
  end.

(** The handler of [POST /api/abort]; the request is not looked at. *)
Definition post_abort {R : Type} (req : R) : M AbortResponse :=
  ret {| success := true |}.

End Engine.

(** ** Vocabulary of the properties *)

(** The language tags with a case in the [switch]. *)
Definition supported (language : string) : bool :=
  existsb (String.eqb language) ["javascript"; "python"; "java"; "cpp"].

(** The toolchain check a language tag triggers: command, arguments and
    the message thrown when the check fails. *)
Definition toolchain (language : string)
  : option (string * list string * string) :=
  if String.eqb language "java" then Some ("java", ["-version"], java_missing)
  else if String.eqb language "cpp" then Some ("g++", ["--version"], gpp_missing)
  else None.

(** A toolchain check fails when the command cannot be launched or
    closes with a code other than 0. *)
Definition check_fails (p : Proc) : Prop :=
  match term p with
  | SpawnError => True
  | Close _ code => code_is_zero code = false
  | NoClose => False
  end.

(** A toolchain check passes when the command closes with code 0. *)
Definition check_passes (p : Proc) : Prop :=
  match term p with
  | Close _ code => code_is_zero code = true
  | _ => False
  end.

Definition is_write (e : Event) : Prop :=
  match e with
  | EvWrite _ _ => True
  | _ => False
  end.

Definition is_spawn (e : Event) : Prop :=
  match e with
  | EvSpawn _ _ => True
  | _ => False
  end.

(** [v] is a missing or empty field of a request body. *)
Definition blank (v : option string) : Prop :=
  v = None \/ v = Some EmptyString.

(** The request body [{ code, language, input }]. *)
Definition request (code language input : string) : Request :=
  {| req_code := Some code; req_language := Some language;
     req_input := Some input |}.

(** The outcome of a computation seen through a function of its value. *)
Definition omap {A B : Type} (f : A -> B) (o : Outcome A) : Outcome B :=
  match o with
  | Ret a => Ret (f a)
  | Throw e => Throw e
  | Hang => Hang
  | Crash => Crash
  end.

(** The job of [executeCode w code language _] started in [s] gets to
    the common supervision code: the [switch] breaks, with [startTime]
    read and the state [s1] reached. *)
Definition reaches_supervision (w : World) (code language : string)
  (s : State) (startTime : Z) (s1 : State) : Prop :=
  prepare w code language (tmpdir w) (temp_path (tmpdir w) (now s))
    (set_process None s)
  = (Ret (startTime, None), s1).

(** The child the common supervision code waits for in state [s1]. *)
Definition awaited (w : World) (input : string) (s1 : State) (h : Handle) : Proc :=
  exec w (fst h) (snd h) (if is_empty input then None else Some input) (fs s1).

(** The [errors] key of a successful result: the standard error that
    was collected, and nothing when there was none. *)
Definition reported (errors : string) : option string :=
  if is_empty errors then None else Some errors.

(** The message of the rejection on a non-zero close. *)
Definition exit_message (errors : string) (code : option Z) : string :=
  if is_empty errors then "Process exited with code " +:+ show_code code
  else errors.

(** The reply of [/api/execute] when [executeCode] throws [msg]. *)
Definition failure_reply (msg : string) : Response :=
  {| status := 500;
     body_result :=
       Failed EmptyString msg zero zero
         (unknown_complexity
            "Could not determine complexity due to execution error");
     body_aiFeedback :=
       Some {| suggestions := [];
               overallQuality := 0;
               summary := "Code execution failed: " +:+ msg |} |}.

(** Every character of [s] is in the class [f]. *)
Fixpoint all_in (f : ascii -> bool) (s : string) : bool :=
  match s with
  | EmptyString => true
  | String c s' => f c && all_in f s'
  end.

(** [s] starts with a character of the class [f]. *)
Definition starts_in (f : ascii -> bool) (s : string) : bool :=
  match s with
  | EmptyString => false
  | String c _ => f c
  end.

(** No match of the pattern [here] begins inside [before] when [rest]
    follows it. *)
Definition no_match_inside {A : Type} (here : string -> option A)
  (before rest : string) : Prop :=
  forall a c b, before = a +:+ String c b -> here (String c b +:+ rest) = None.

(** Every run of [m] takes a state to one related to it by [R]. *)
Definition steps (R : State -> State -> Prop) {A : Type} (m : M A) : Prop :=
  forall s, R s (snd (m s)).

(** [s'] has the trace of [s] followed by events that satisfy [P]. *)
Definition extends_by (P : Event -> Prop) (s s' : State) : Prop :=
  exists l, trace s' = trace s ++ l /\ Forall P l.

(** [m] adds to the trace only events that satisfy [P]. *)
Definition emits {A : Type} (P : Event -> Prop) (m : M A) : Prop :=
  steps (extends_by P) m.

(** [s'] has the [process] variable of [s]. *)
Definition same_process (s s' : State) : Prop := process s' = process s.

(** What a Java job may do to its environment: check the toolchain,
    write its temporary file and the Java file, compile the Java file,
    run the class, and remove the Java file, the class file and the two
    files named after [Main]. *)
Definition java_event (tempDir filePath code : string) (e : Event) : Prop :=
  let className := className_of code in
  let javaFile := join tempDir (className +:+ ".java") in
  let javaClass := join tempDir (className +:+ ".class") in
  match e with
  | EvSpawn cmd args =>
      (cmd, args) = ("java", ["-version"])
      \/ (cmd, args) = ("javac", [javaFile])
      \/ (cmd, args) = ("java", ["-cp"; tempDir; className])
  | EvWrite path content =>
      (path, content) = (filePath, code)
      \/ (path, content) = (javaFile, javaProgram className)
  | EvUnlink path =>
      In path [javaFile; javaClass;
               join tempDir "Main.java"; join tempDir "Main.class"]
  | EvStdin _ => False
  | EvKill _ => False
  end.

(** The characters of a path that are not a dot. *)
Definition not_dot (c : ascii) : bool := negb (Ascii.eqb c "."%char).

(** ** Scenarios *)

Definition state0 : State :=
  {| fs := ∅; now := 1000; process := None; activeProcesses := ∅; trace := [] |}.

Definition closes (t : N) (code : Z) (out err : list string)
  (fs : gmap string string) : Proc :=
  {| term := Close t (Some code); stdout := out; stderr := err;
     fs_after := fs; epipe := None |}.

(** Node prints the value, reports nothing, and warns on standard
    error; it exits with code 0 after 120 ms. *)
Definition world_warning : World :=
  {| tmpdir := "/tmp";
     exec := fun cmd args stdin fs =>
       closes 120 0 ["5" +:+ nl] ["(node) warning: deprecated"] fs |}.

(** The compiler takes 20 s, the binary 1 s; every child exits with
    code 0, and the compiler leaves the binary where [-o] says. *)
Definition world_slow_compile : World :=
  {| tmpdir := "/tmp";
     exec := fun cmd args stdin fs =>
       match args with
       | [_; "-o"; out; _; _] => closes 20000 0 [] [] (<[out := "ELF"]> fs)
       | ["--version"] => closes 5 0 [] [] fs
       | _ => closes 1000 0 ["5"] [] fs
       end |}.

(** Node prints the value and the three metric lines, and the second
    line arrives in two chunks. *)
Definition world_split_marker : World :=
  {| tmpdir := "/tmp";
     exec := fun cmd args stdin fs =>
       closes 120 0
         ["5" +:+ nl +:+ "Performance Metrics:" +:+ nl +:+ "Execution Time: 1.5";
          "00 s" +:+ nl +:+ "Memory Usage: 2.00 MB" +:+ nl]
         [] fs |}.

(** No command can be launched. *)
Definition world_bare : World :=
  {| tmpdir := "/tmp";
     exec := fun cmd args stdin fs =>
       {| term := SpawnError; stdout := []; stderr := [];
          fs_after := fs; epipe := None |} |}.

(** No child ever closes. *)
Definition world_stuck : World :=
  {| tmpdir := "/tmp";
     exec := fun cmd args stdin fs =>
       {| term := NoClose; stdout := []; stderr := [];
          fs_after := fs; epipe := None |} |}.

(** A working toolchain: every child exits with code 0 after 5 ms,
    silently, and touches no file. *)
Definition world_quiet : World :=
  {| tmpdir := "/tmp";
     exec := fun cmd args stdin fs => closes 5 0 [] [] fs |}.

(** Every child exits with code 1 after 5 ms and says why. *)
Definition world_failing : World :=
  {| tmpdir := "/tmp";
     exec := fun cmd args stdin fs => closes 5 1 [] ["boom"] fs |}.

(** Node runs the wrapped program of a job that prints 5: the value,
    then the three metric lines, in one chunk. *)
Definition world_node : World :=
  {| tmpdir := "/tmp";
     exec := fun cmd args stdin fs =>
       closes 120 0
         ["5" +:+ nl +:+ "Performance Metrics:" +:+ nl
          +:+ "Execution Time: 0.004 s" +:+ nl
          +:+ "Memory Usage: 0.25 MB" +:+ nl]
         [] fs |}.

(** [X.java] to [X.class] *)
Definition class_file (file : string) : string :=
  match strip_prefix "avaj." (rev file) with
  | Some r => rev r +:+ ".class"
  | None => file +:+ ".class"
  end.

(** What the fixed Java program prints on one of its runs. *)
Definition demo_output : list string :=
  ["Original array (first 10 elements):" +:+ nl +:+ "7 3 9 1 4 8 2 6 5 0 ..." +:+ nl
   +:+ nl +:+ "Sorting array..." +:+ nl
   +:+ nl +:+ "Sorted array (first 10 elements):" +:+ nl +:+ "0 0 1 1 2 2 3 3 4 4 ..." +:+ nl;
   "Performance Metrics:" +:+ nl +:+ "Execution Time: 2512345678 ns" +:+ nl
   +:+ "Memory Usage: 0.00 MB" +:+ nl].

(** A development kit that knows two programs. The compiler copies the
    source it is given to the class file; the launcher prints 5 for the
    class compiled from [print5], prints [demo_output] for the class
    compiled from the fixed program of the same name, and fails on any
    other. *)
Definition world_jdk (print5 : string) : World :=
  {| tmpdir := "/tmp";
     exec := fun cmd args stdin fs =>
       if String.eqb cmd "javac" then
         match args with
         | [file] =>
             match fs !! file with
             | Some src => closes 900 0 [] [] (<[class_file file := src]> fs)
             | None => closes 50 1 [] ["error: file not found"] fs
             end
         | _ => closes 50 2 [] ["error: no source files"] fs
         end
       else
         match args with
         | ["-cp"; dir; className] =>
             match fs !! join dir (className +:+ ".class") with
             | Some class =>
                 if String.eqb class print5 then closes 80 0 ["5" +:+ nl] [] fs
                 else if String.eqb class (javaProgram className)
                      then closes 2600 0 demo_output [] fs
                      else closes 80 1 [] ["Error: unknown class"] fs
             | None =>
                 closes 50 1 [] ["Error: Could not find or load main class"] fs
             end
         | _ => closes 5 0 [] [] fs
         end |}.

Definition print5_js : string := "console.log(5)".

Definition print5_cpp : string :=
  "int main() { std::cout << 5; return 0; }".

Definition print5_java : string :=
  "public class Main { public static void main(String[] args) { System.out.println(5); } }".

(** ** The client of the routes *)

(** What [fetch] gives the client of a route: a response, whose body
    [response.json()] parses into an object; a rejection with a
    [TypeError]; or nothing at all. *)
Inductive Fetched (B : Type) : Type :=
| Answered (status : Z) (body : B)
| Unreachable (msg : string)
| Pending.
Arguments Answered {B} status body.
Arguments Unreachable {B} msg.
Arguments Pending {B}.

(** [response.ok] *)
Definition response_ok (status : Z) : bool :=
  (200 <=? status) && (status <=? 299).

(** The response the client builds in its [catch] block around the
    message of the error. *)
Definition client_failure (message : string) : Result * AiFeedback :=
  (Failed EmptyString message zero zero
     (unknown_complexity "Could not determine complexity due to execution error"),
   {| suggestions := []; overallQuality := 0; summary := message |}).

Section Client.

Context {B : Type}.

(** [result.result?.errors] on a parsed body; [None] is [undefined]. *)
Variable errors_key : B -> option string.

(** [result.result] is there. *)
Variable has_result : B -> bool.

(** The client's [executeCode], from what [fetch] gave: the parsed body
    of the server ([inl]) or the response built in the [catch] block
    ([inr]). *)
Definition client_executeCode (f : Fetched B) : Outcome (B + Result * AiFeedback) :=
  match f with
  | Pending => Hang
  | Unreachable msg => Ret (inr (client_failure msg))
  | Answered status body =>
      if negb (response_ok status) then
        Ret (inr (client_failure
                    (match errors_key body with
                     | Some e =>
                         if is_empty e
                         then "HTTP error! status: " +:+ pretty status
                         else e
                     | None => "HTTP error! status: " +:+ pretty status
                     end)))
      else if negb (has_result body) then
        Ret (inr (client_failure "Invalid response structure from server"))
      else Ret (inl body)
  end.

End Client.

(** What a client is given when a handler ends with [o], over a
    connection that loses nothing: the reply once it is sent, a failed
    fetch (with the message [down]) once the server is gone, and
    nothing while the handler does not reply. *)
Definition fetched {A : Type} (status_of : A -> Z) (down : string)
  (o : Outcome A) : Fetched A :=
  match o with
  | Ret a => Answered (status_of a) a
  | Crash => Unreachable down
  | Throw _ | Hang => Pending
  end.

(** ** Further vocabulary *)

(** [m] throws only messages that satisfy [Q]. *)
Definition throws {A : Type} (Q : string -> Prop) (m : M A) : Prop :=
  forall s e, fst (m s) = Throw e -> Q e.

(** [m] always returns or throws. *)
Definition settles {A : Type} (m : M A) : Prop :=
  forall s, fst (m s) <> Hang /\ fst (m s) <> Crash.

(** Every path absent in [s] is absent in [s']. *)
Definition only_removes (s s' : State) : Prop :=
  forall path, fs s !! path = None -> fs s' !! path = None.

(** [s] ends with a character of the class [f]. *)
Definition ends_in (f : ascii -> bool) (s : string) : bool :=
  starts_in f (rev s).

(** The names the readability check looks for. *)
Definition poor_names : list string :=
  ["x"; "y"; "z"; "a"; "b"; "c"; "temp"; "var"].

(** The [i]-th line of a list of lines, counted from 1. *)
Definition line_at (lines : list string) (i : Z) : option string :=
  if i <=? 0 then None else nth_error lines (Z.to_nat (i - 1)).

(** [e] is not the empty string. *)
Definition nonempty (e : string) : Prop := is_empty e = false.

(** The version checks pass, and every other child (a compiler, a run)
    exits with code 1 after 300 ms and a diagnostic on standard error. *)
Definition world_rejecting : World :=
  {| tmpdir := "/tmp";
     exec := fun cmd args stdin fs =>
       match args with
       | ["-version"] | ["--version"] => closes 5 0 [] [] fs
       | _ => closes 300 1 [] ["error: expected ';'"] fs
       end |}.

(** The clock of [s'] is not behind the clock of [s]. *)
Definition not_before (s s' : State) : Prop := now s <= now s'.

(** Every value [m] returns satisfies [Q]. *)
Definition returns {A : Type} (Q : A -> Prop) (m : M A) : Prop :=
  forall s a, fst (m s) = Ret a -> Q a.

(** [ws] is white space and nothing else, and is not empty. *)
Definition white (ws : string) : bool :=
  negb (is_empty ws) && is_empty (drop_spaces ws).

(** No line terminator occurs in [s]. *)
Definition one_line (s : string) : bool :=
  negb (existsb (fun t => includes t s) line_terminators).

(** A machine with the Java runtime and without the compiler: [javac]
    cannot be launched, and every other command closes with code 0
    after 5 ms. *)
Definition world_runtime_only : World :=
  {| tmpdir := "/tmp";
     exec := fun cmd args stdin fs =>
       if String.eqb cmd "javac" then
         {| term := SpawnError; stdout := []; stderr := [];
            fs_after := fs; epipe := None |}
       else closes 5 0 [] [] fs |}.

(** Node prints the value and exits with code 0 after 120 ms without
    having read its standard input: a write to it fails when it
    ends. *)
Definition world_deaf : World :=
  {| tmpdir := "/tmp";
     exec := fun cmd args stdin fs =>
       {| term := Close 120 (Some 0); stdout := ["5" +:+ nl]; stderr := [];
          fs_after := fs; epipe := Some 120%N |} |}.

(** Node prints two time markers and two memory markers in one chunk,
    and exits with code 0 after 120 ms. *)
Definition world_two_markers : World :=
  {| tmpdir := "/tmp";
     exec := fun cmd args stdin fs =>
       closes 120 0
         ["Execution Time: 1 s" +:+ nl +:+ "Execution Time: 2 s" +:+ nl
          +:+ "Memory Usage: 9 MB" +:+ nl +:+ "Memory Usage: 0.25 MB" +:+ nl]
         [] fs |}.

(** [e] is among the events added to the trace between [s] and [s']. *)
Definition since (s : State) (e : Event) (s' : State) : Prop :=
  exists l, trace s' = trace s ++ l /\ In e l.

(** The input a request hands to [executeCode]: the [input] of its
    body, and the empty string when there is none. *)
Definition input_of (req : Request) : string :=
  match req_input req with
  | Some input => input
  | None => EmptyString
  end.

(** ** Laws of the monad *)

Lemma bind_ret {A B : Type} (m : M A) (k : A -> M B) s a s' :
  m s = (Ret a, s') -> bind m k s = k a s'.
Proof. intros H. unfold bind. now rewrite H. Qed.

Lemma bind_throw {A B : Type} (m : M A) (k : A -> M B) s e s' :
  m s = (Throw e, s') -> bind m k s = (Throw e, s').
Proof. intros H. unfold bind. now rewrite H. Qed.

Lemma bind_hang {A B : Type} (m : M A) (k : A -> M B) s s' :
  m s = (Hang, s') -> bind m k s = (Hang, s').
Proof. intros H. unfold bind. now rewrite H. Qed.

Lemma bind_crash {A B : Type} (m : M A) (k : A -> M B) s s' :
  m s = (Crash, s') -> bind m k s = (Crash, s').
Proof. intros H. unfold bind. now rewrite H. Qed.

(** ** Relations kept by every step *)

Section Steps.

Variable R : State -> State -> Prop.
Hypothesis R_refl : forall s, R s s.
Hypothesis R_trans : forall a b c, R a b -> R b c -> R a c.

Lemma steps_stay {A : Type} (m : M A) :
  (forall s, snd (m s) = s) -> steps R m.
Proof. intros H s. rewrite H. apply R_refl. Qed.

Lemma steps_ret {A : Type} (a : A) : steps R (ret a).
Proof. now apply steps_stay. Qed.

Lemma steps_throw {A : Type} e : steps R (@throw A e).
Proof. now apply steps_stay. Qed.

Lemma steps_hang {A : Type} : steps R (@hang A).
Proof. now apply steps_stay. Qed.

Lemma steps_crash {A : Type} : steps R (@crash A).
Proof. now apply steps_stay. Qed.

Lemma steps_get {A : Type} (f : State -> A) : steps R (get f).
Proof. now apply steps_stay. Qed.

Lemma steps_bind {A B : Type} (m : M A) (k : A -> M B) :
  steps R m -> (forall a, steps R (k a)) -> steps R (bind m k).
Proof.
  intros Hm Hk s. unfold bind. specialize (Hm s).
  destruct (m s) as [[a | e | | ] s1]; cbn [snd] in *; try exact Hm.
  eapply R_trans; [exact Hm | apply Hk].
Qed.

Lemma steps_try_catch {A : Type} (m : M A) (h : string -> M A) :
  steps R m -> (forall e, steps R (h e)) -> steps R (try_catch m h).
Proof.
  intros Hm Hh s. unfold try_catch. specialize (Hm s).
  destruct (m s) as [[a | e | | ] s1]; cbn [snd] in *; try exact Hm.
  eapply R_trans; [exact Hm | apply Hh].
Qed.

Lemma steps_try_finally {A : Type} (m : M A) (fin : M unit) :
  steps R m -> steps R fin -> steps R (try_finally m fin).
Proof.
  intros Hm Hf s. unfold try_finally. specialize (Hm s).
  destruct (m s) as [[a | e | | ] s1]; cbn [snd] in *; try exact Hm.
  - eapply R_trans; [exact Hm | ].
    apply (steps_bind fin (fun _ => ret a)); [exact Hf | intros _; apply steps_ret].
  - eapply R_trans; [exact Hm | ].
    apply (steps_bind fin (fun _ => @throw A e));
      [exact Hf | intros _; apply steps_throw].
Qed.

End Steps.

(** ** What a computation adds to the trace *)

Lemma extends_by_refl P s : extends_by P s s.
Proof. exists []. rewrite app_nil_r. split; [reflexivity | constructor]. Qed.

Lemma extends_by_trans P a b c :
  extends_by P a b -> extends_by P b c -> extends_by P a c.
Proof.
  intros (l1 & H1 & P1) (l2 & H2 & P2). exists (l1 ++ l2).
  rewrite H2, H1, app_assoc. split; [reflexivity | ].
  apply Forall_app. split; assumption.
Qed.

Lemma emits_stay {A : Type} (P : Event -> Prop) (m : M A) :
  (forall s, trace (snd (m s)) = trace s) -> emits P m.
Proof.
  intros H s. exists []. rewrite H, app_nil_r. split; [reflexivity | constructor].
Qed.

Lemma emits_one {A : Type} (P : Event -> Prop) (m : M A) e :
  P e -> (forall s, trace (snd (m s)) = trace s ++ [e]) -> emits P m.
Proof.
  intros He H s. exists [e]. rewrite H. split; [reflexivity | ].
  constructor; [exact He | constructor].
Qed.

Lemma emits_weaken {A : Type} (P Q : Event -> Prop) (m : M A) :
  (forall e, P e -> Q e) -> emits P m -> emits Q m.
Proof.
  intros HPQ Hm s. destruct (Hm s) as (l & Hl & HP).
  exists l. split; [exact Hl | ]. eapply Forall_impl; eauto.
Qed.

Lemma emits_ret {A : Type} P (a : A) : emits P (ret a).
Proof. now apply emits_stay. Qed.

Lemma emits_throw {A : Type} P e : emits P (@throw A e).
Proof. now apply emits_stay. Qed.

Lemma emits_hang {A : Type} P : emits P (@hang A).
Proof. now apply emits_stay. Qed.

Lemma emits_crash {A : Type} P : emits P (@crash A).
Proof. now apply emits_stay. Qed.

Lemma emits_get {A : Type} P (f : State -> A) : emits P (get f).
Proof. now apply emits_stay. Qed.

Lemma emits_bind {A B : Type} P (m : M A) (k : A -> M B) :
  emits P m -> (forall a, emits P (k a)) -> emits P (bind m k).
Proof. apply steps_bind. apply extends_by_trans. Qed.

Lemma emits_try_catch {A : Type} P (m : M A) (h : string -> M A) :
  emits P m -> (forall e, emits P (h e)) -> emits P (try_catch m h).
Proof. apply steps_try_catch. apply extends_by_trans. Qed.

Lemma emits_try_finally {A : Type} P (m : M A) (fin : M unit) :
  emits P m -> emits P fin -> emits P (try_finally m fin).
Proof.
  apply steps_try_finally; [apply extends_by_refl | apply extends_by_trans].
Qed.

Lemma emits_if {A : Type} P (b : bool) (m1 m2 : M A) :
  emits P m1 -> emits P m2 -> emits P (if b then m1 else m2).
Proof. now destruct b. Qed.

Lemma emits_writeFile P path content :
  P (EvWrite path content) -> emits P (writeFile path content).
Proof. intros H. now apply emits_one with (e := EvWrite path content). Qed.

Lemma emits_access P path : emits P (access path).
Proof. apply emits_stay. intros s. unfold access. now destruct (fs s !! path). Qed.

Lemma emits_unlink P path : P (EvUnlink path) -> emits P (unlink path).
Proof.
  intros H s. unfold unlink. destruct (fs s !! path); simpl.
  - exists [EvUnlink path]. split; [reflexivity | ]. constructor; [exact H | constructor].
  - exists []. rewrite app_nil_r. split; [reflexivity | constructor].
Qed.

Lemma emits_spawn P cmd args : P (EvSpawn cmd args) -> emits P (spawn cmd args).
Proof. intros H. now apply emits_one with (e := EvSpawn cmd args). Qed.

Lemma emits_child P w h stdin : emits P (child w h stdin).
Proof. apply emits_get. Qed.

Lemma emits_settle P p t : emits P (settle p t).
Proof. now apply emits_stay. Qed.

Lemma emits_kill P h : P (EvKill h) -> emits P (kill h).
Proof. intros H. now apply emits_one with (e := EvKill h). Qed.

Lemma emits_Date_now P : emits P Date_now.
Proof. apply emits_get. Qed.

Lemma emits_set_process P h : emits P (modify (set_process h)).
Proof. now apply emits_stay. Qed.

Lemma emits_stdin P text : P (EvStdin text) -> emits P (modify (log (EvStdin text))).
Proof. intros H. now apply emits_one with (e := EvStdin text). Qed.

Create HintDb emits.
#[export] Hint Resolve emits_ret emits_throw emits_hang emits_crash emits_get
  emits_access emits_child emits_settle emits_set_process emits_Date_now
  : emits.

(** Takes a computation apart along its binds, handlers and branches. *)
Ltac emits_step :=
  lazymatch goal with
  | |- emits _ (bind _ _) => apply emits_bind; [ | intros ? ]
  | |- emits _ (try_catch _ _) => apply emits_try_catch; [ | intros ? ]
  | |- emits _ (try_finally _ _) => apply emits_try_finally
  | |- emits _ (if _ then _ else _) => apply emits_if
  | |- emits _ (match ?x with _ => _ end) => destruct x
  | |- emits _ (writeFile _ _) => apply emits_writeFile
  | |- emits _ (unlink _) => apply emits_unlink
  | |- emits _ (spawn _ _ _) => apply emits_spawn
  | |- emits _ (spawn _ _) => apply emits_spawn
  | |- emits _ (kill _) => apply emits_kill
  | |- emits _ (modify (log (EvStdin _))) => apply emits_stdin
  | |- emits _ _ => solve [auto with emits]
  end.

Ltac emits_auto := repeat emits_step.

(** ** The pieces of [executeCode] *)

Lemma supported_false language :
  supported language = false ->
  String.eqb language "javascript" = false /\ String.eqb language "python" = false
  /\ String.eqb language "java" = false /\ String.eqb language "cpp" = false.
Proof.
  unfold supported. simpl. intros H.
  destruct (String.eqb language "javascript"); [discriminate | ].
  destruct (String.eqb language "python"); [discriminate | ].
  destruct (String.eqb language "java"); [discriminate | ].
  destruct (String.eqb language "cpp"); [discriminate | ].
  repeat split.
Qed.

Lemma remove_present path s content :
  fs s !! path = Some content ->
  remove_if_present path s
  = (Ret tt, log (EvUnlink path) (set_fs (delete path (fs s)) s)).
Proof.
  intros H. unfold remove_if_present, try_catch, bind, access, unlink.
  rewrite H. cbn. now rewrite H.
Qed.

Lemma remove_absent path s :
  fs s !! path = None -> remove_if_present path s = (Ret tt, s).
Proof.
  intros H. unfold remove_if_present, try_catch, bind, access.
  now rewrite H.
Qed.

Lemma remove_returns path s :
  exists s', remove_if_present path s = (Ret tt, s').
Proof.
  destruct (fs s !! path) eqn:E.
  - eexists. eapply remove_present; eauto.
  - eexists. now apply remove_absent.
Qed.

Lemma kill_process_eval s :
  kill_process s
  = (Ret tt, match process s with Some h => log (EvKill h) s | None => s end).
Proof. unfold kill_process, bind, get. now destruct (process s). Qed.

Lemma remove_files_returns language tempDir filePath s :
  exists s', remove_files language tempDir filePath s = (Ret tt, s').
Proof.
  unfold remove_files, try_catch.
  destruct (String.eqb language "java").
  - destruct (remove_returns (join tempDir "Main.java") s) as (s2 & H2).
    destruct (remove_returns (join tempDir "Main.class") s2) as (s3 & H3).
    exists s3. unfold bind. now rewrite H2, H3.
  - destruct (String.eqb language "cpp").
    + destruct (remove_returns (filePath +:+ ".cpp") s) as (s2 & H2).
      exists s2. now rewrite H2.
    + destruct (remove_returns filePath s) as (s2 & H2).
      exists s2. now rewrite H2.
Qed.

(** The [finally] block always runs to its end. *)
Lemma cleanup_returns language tempDir filePath s :
  exists s', cleanup language tempDir filePath s = (Ret tt, s').
Proof.
  unfold cleanup. rewrite (bind_ret _ _ _ _ _ (kill_process_eval s)).
  apply remove_files_returns.
Qed.

Lemma executeCode_unfold w code language input s :
  executeCode w code language input s
  = try_finally
      (try_catch
         (job w code language input (tmpdir w) (temp_path (tmpdir w) (now s)))
         (fun error => throw error))
      (cleanup language (tmpdir w) (temp_path (tmpdir w) (now s)))
      (set_process None s).
Proof. reflexivity. Qed.

(** [executeCode] is its [try] block followed by its [finally] block:
    the outcome of the job stands, and the clean-up runs whenever the
    job returns or throws. *)
Lemma executeCode_outcome w code language input s :
  let filePath := temp_path (tmpdir w) (now s) in
  let r := job w code language input (tmpdir w) filePath (set_process None s) in
  match fst r with
  | Ret _ | Throw _ =>
      executeCode w code language input s
      = (fst r, snd (cleanup language (tmpdir w) filePath (snd r)))
  | Hang | Crash => executeCode w code language input s = r
  end.
Proof.
  intros filePath r. subst r. rewrite executeCode_unfold. fold filePath.
  unfold try_finally, try_catch.
  destruct (job w code language input (tmpdir w) filePath (set_process None s))
    as [[a | e | | ] s1]; cbn [fst snd]; try reflexivity.
  - destruct (cleanup_returns language (tmpdir w) filePath s1) as (s2 & H2).
    unfold bind. now rewrite H2.
  - unfold throw at 1.
    destruct (cleanup_returns language (tmpdir w) filePath s1) as (s2 & H2).
    unfold bind. now rewrite H2.
Qed.

(** The reply of the route follows the outcome of [executeCode]. *)
Lemma post_execute_outcome w code language input s :
  is_empty code = false -> is_empty language = false ->
  post_execute w (request code language input) s
  = match executeCode w code language input s with
    | (Ret result, s') =>
        (Ret {| status := 200; body_result := result;
                body_aiFeedback := aiFeedback_of result |}, s')
    | (Throw msg, s') => (Ret (failure_reply msg), s')
    | (Hang, s') => (Hang, s')
    | (Crash, s') => (Crash, s')
    end.
Proof.
  intros Hc Hl. unfold post_execute, request. simpl. rewrite Hc, Hl. simpl.
  unfold try_catch, bind.
  now destruct (executeCode w code language input s) as [[a | e | | ] s'].
Qed.

(** ** The events of each piece *)

Ltac emits_unfold f := unfold f; repeat emits_step; try assumption.

Lemma emits_probe P w cmd args msg :
  P (EvSpawn cmd args) -> emits P (probe w cmd args msg).
Proof. intros H. emits_unfold probe. Qed.

Lemma emits_await_close P w h failure : emits P (await_close w h failure).
Proof. emits_unfold await_close. Qed.

Lemma emits_file_exists P path : emits P (file_exists path).
Proof. emits_unfold file_exists. Qed.

Lemma emits_remove_if_present P path :
  P (EvUnlink path) -> emits P (remove_if_present path).
Proof. intros H. emits_unfold remove_if_present. Qed.

Lemma emits_java_case P w code language tempDir :
  let className := className_of code in
  let javaFile := join tempDir (className +:+ ".java") in
  let javaClass := join tempDir (className +:+ ".class") in
  P (EvWrite javaFile (javaProgram className)) ->
  P (EvSpawn "javac" [javaFile]) ->
  P (EvSpawn "java" ["-cp"; tempDir; className]) ->
  P (EvUnlink javaFile) -> P (EvUnlink javaClass) ->
  emits P (java_case w code language tempDir).
Proof.
  intros className javaFile javaClass Hw Hc Hr Hu1 Hu2.
  unfold java_case. fold className javaFile javaClass.
  repeat emits_step; try assumption;
    first [apply emits_await_close | apply emits_file_exists].
Qed.

Lemma emits_cpp_case P w code filePath :
  let cppFile := filePath +:+ ".cpp" in
  P (EvWrite cppFile (cppCode code)) ->
  P (EvSpawn "g++" [cppFile; "-o"; filePath; "-std=c++11"; "-Wall"]) ->
  P (EvSpawn filePath []) ->
  emits P (cpp_case w code filePath).
Proof.
  intros cppFile Hw Hc Hr. unfold cpp_case. fold cppFile.
  repeat emits_step; try assumption; apply emits_await_close.
Qed.

Lemma emits_race P h p errors broken :
  P (EvKill h) -> emits P (race h p errors broken).
Proof. intros H. unfold race, expire. repeat emits_step; assumption. Qed.

Lemma emits_supervise P w code language input startTime :
  (forall h, P (EvKill h)) -> P (EvStdin input) ->
  emits P (supervise w code language input startTime).
Proof.
  intros Hk Hi. unfold supervise.
  repeat emits_step; try assumption; apply emits_race; apply Hk.
Qed.

Lemma emits_kill_process P : (forall h, P (EvKill h)) -> emits P kill_process.
Proof. intros Hk. unfold kill_process. repeat emits_step; apply Hk. Qed.

(** The files the [finally] block may remove, by language. *)
Lemma emits_remove_files P language tempDir filePath :
  (if String.eqb language "java"
   then P (EvUnlink (join tempDir "Main.java"))
        /\ P (EvUnlink (join tempDir "Main.class"))
   else if String.eqb language "cpp"
        then P (EvUnlink (filePath +:+ ".cpp"))
        else P (EvUnlink filePath)) ->
  emits P (remove_files language tempDir filePath).
Proof.
  intros H. unfold remove_files.
  apply emits_try_catch; [ | intros ?; apply emits_ret].
  destruct (String.eqb language "java"); [ | destruct (String.eqb language "cpp")].
  - destruct H. apply emits_bind; [ | intros _]; now apply emits_remove_if_present.
  - now apply emits_remove_if_present.
  - now apply emits_remove_if_present.
Qed.

Lemma emits_cleanup P language tempDir filePath :
  (forall h, P (EvKill h)) ->
  (forall path, P (EvUnlink path)) ->
  emits P (cleanup language tempDir filePath).
Proof.
  intros Hk Hu. unfold cleanup.
  apply emits_bind; [now apply emits_kill_process | intros _].
  apply emits_remove_files.
  destruct (String.eqb language "java"); [split | destruct (String.eqb language "cpp")];
    apply Hu.
Qed.

(** Without a process to kill, the [finally] block only removes files. *)
Lemma cleanup_without_process language tempDir filePath s :
  process s = None ->
  cleanup language tempDir filePath s = remove_files language tempDir filePath s.
Proof.
  intros Hp. unfold cleanup. rewrite (bind_ret _ _ _ _ _ (kill_process_eval s)).
  now rewrite Hp.
Qed.

(** Every piece of the engine only ever adds to the trace. *)
Lemma grows_switch w code language tempDir filePath :
  emits (fun _ => True) (switch_language w code language tempDir filePath).
Proof.
  unfold switch_language.
  repeat emits_step; try exact I;
    first [now apply emits_java_case | now apply emits_cpp_case].
Qed.

Lemma grows_job w code language input tempDir filePath :
  emits (fun _ => True) (job w code language input tempDir filePath).
Proof.
  unfold job, prepare.
  repeat emits_step; try exact I;
    first [now apply emits_probe | apply grows_switch | now apply emits_supervise].
Qed.

Lemma grows_cleanup language tempDir filePath :
  emits (fun _ => True) (cleanup language tempDir filePath).
Proof. now apply emits_cleanup. Qed.

(** ** The abort route *)

(** C10. Every request to [/api/abort] is answered [{ success: true }],
    and the handler leaves the whole state as it found it: no file, no
    clock reading, no process slot, no entry of [activeProcesses] and no
    event (so no kill) changes. *)
Theorem post_abort_acknowledges_only (R : Type) (req : R) (s : State) :
  post_abort req s = (Ret {| success := true |}, s).
Proof. reflexivity. Qed.

(** ** Input validation of the execute route *)

(** C9. When the [code] field or the [language] field of the request is
    missing or empty, the route answers 400 with [errors] set to
    ["Code and language are required"], an empty [output], and 0 for
    [executionTime] and [memoryUsage]; the state is untouched, so no
    file is written and no process is spawned. *)
Theorem blank_request_is_rejected (w : World) (req : Request) (s : State) :
  blank (req_code req) \/ blank (req_language req) ->
  exists reply,
    post_execute w req s = (Ret reply, s)
    /\ status reply = 400
    /\ errors_of (body_result reply) = Some "Code and language are required"
    /\ output_of (body_result reply) = Some EmptyString
    /\ executionTime_of (body_result reply) = zero
    /\ memoryUsage_of (body_result reply) = zero.
Proof.
  intros H. unfold post_execute.
  destruct (req_code req) as [code | ] eqn:Ec;
    destruct (req_language req) as [language | ] eqn:El;
    try (eexists; repeat split; reflexivity).
  assert (Hb : is_empty code || is_empty language = true).
  { destruct H as [[H | H] | [H | H]]; try discriminate;
      injection H as ->; simpl; [reflexivity | apply orb_true_r]. }
  rewrite Hb. eexists. repeat split; reflexivity.
Qed.

Lemma blank_request_is_rejected_witness :
  exists reply,
    post_execute world_quiet
      {| req_code := Some print5_js; req_language := None; req_input := None |}
      state0 = (Ret reply, state0)
    /\ status reply = 400
    /\ errors_of (body_result reply) = Some "Code and language are required"
    /\ output_of (body_result reply) = Some EmptyString
    /\ executionTime_of (body_result reply) = zero
    /\ memoryUsage_of (body_result reply) = zero.
Proof.
  apply (blank_request_is_rejected world_quiet
           {| req_code := Some print5_js; req_language := None; req_input := None |}
           state0).
  right. left. reflexivity.
Defined.

(** ** Unknown language tags *)

(** C5. For a language tag outside the supported set, [executeCode]
    throws ["Unsupported language: <tag>"]; all the job did is write its
    temporary file and remove it again, so no process was spawned; and
    the route turns the exception into a well-formed reply with that
    message under [errors]. *)
Theorem unsupported_language_is_refused (w : World)
  (code language input : string) (s : State) :
  supported language = false ->
  let filePath := temp_path (tmpdir w) (now s) in
  let msg := "Unsupported language: " +:+ language in
  let r := executeCode w code language input s in
  fst r = Throw msg
  /\ trace (snd r) = trace s ++ [EvWrite filePath code; EvUnlink filePath]
  /\ Forall (fun e => ~ is_spawn e) [EvWrite filePath code; EvUnlink filePath]
  /\ (is_empty code = false -> is_empty language = false ->
      fst (post_execute w (request code language input) s)
      = Ret (failure_reply msg)).
Proof.
  intros Hs filePath msg r.
  destruct (supported_false language Hs) as (Hjs & Hpy & Hja & Hcpp).
  assert (Hjob : job w code language input (tmpdir w) filePath (set_process None s)
                 = (Throw msg,
                    log (EvWrite filePath code)
                      (set_fs (<[filePath := code]> (fs s)) (set_process None s)))).
  { unfold job, prepare, switch_language. rewrite Hjs, Hpy, Hja, Hcpp. reflexivity. }
  assert (Hr : r = (Throw msg,
                    log (EvUnlink filePath)
                      (set_fs (delete filePath (<[filePath := code]> (fs s)))
                         (log (EvWrite filePath code)
                            (set_fs (<[filePath := code]> (fs s))
                               (set_process None s)))))).
  { subst r. pose proof (executeCode_outcome w code language input s) as H.
    cbv zeta in H. fold filePath in H. rewrite Hjob in H. cbn [fst snd] in H.
    rewrite H. f_equal.
    rewrite cleanup_without_process by reflexivity.
    unfold remove_files, try_catch. rewrite Hja, Hcpp.
    erewrite remove_present; [reflexivity | ].
    cbn [fs log set_fs]. apply lookup_insert_eq. }
  rewrite Hr. cbn [fst snd]. repeat split.
  - cbn. now rewrite <- app_assoc.
  - repeat constructor; intros [].
  - intros Hc Hl. rewrite post_execute_outcome by assumption.
    fold r. now rewrite Hr.
Qed.

Lemma unsupported_language_is_refused_witness :
  fst (executeCode world_quiet "puts 5" "ruby" EmptyString state0)
  = Throw "Unsupported language: ruby"
  /\ trace (snd (executeCode world_quiet "puts 5" "ruby" EmptyString state0))
     = [EvWrite "/tmp/code_1000" "puts 5"; EvUnlink "/tmp/code_1000"].
Proof.
  destruct (unsupported_language_is_refused world_quiet "puts 5" "ruby"
              EmptyString state0 eq_refl) as (H1 & H2 & _).
  split; [exact H1 | exact H2].
Defined.

(** ** The toolchain check *)

Lemma after_bind {A B : Type} (m : M A) (k : A -> M B) s :
  (forall a, emits (fun _ => True) (k a)) ->
  exists l, trace (snd (bind m k s)) = trace (snd (m s)) ++ l.
Proof.
  intros Hk. unfold bind. destruct (m s) as [[a | e | | ] s1]; cbn [snd];
    try (exists []; now rewrite app_nil_r).
  destruct (Hk a s1) as (l & Hl & _). now exists l.
Qed.

Lemma after_try_catch {A : Type} (m : M A) (h : string -> M A) s :
  (forall e, emits (fun _ => True) (h e)) ->
  exists l, trace (snd (try_catch m h s)) = trace (snd (m s)) ++ l.
Proof.
  intros Hh. unfold try_catch. destruct (m s) as [[a | e | | ] s1]; cbn [snd];
    try (exists []; now rewrite app_nil_r).
  destruct (Hh e s1) as (l & Hl & _). now exists l.
Qed.

Lemma after_try_finally {A : Type} (m : M A) (fin : M unit) s :
  emits (fun _ => True) fin ->
  exists l, trace (snd (try_finally m fin s)) = trace (snd (m s)) ++ l.
Proof.
  intros Hf. unfold try_finally. destruct (m s) as [[a | e | | ] s1]; cbn [snd];
    try (exists []; now rewrite app_nil_r).
  - destruct (emits_bind _ fin (fun _ => ret a) Hf (fun _ => emits_ret _ a) s1)
      as (l & Hl & _). now exists l.
  - destruct (emits_bind _ fin (fun _ => @throw A e) Hf (fun _ => emits_throw _ e) s1)
      as (l & Hl & _). now exists l.
Qed.

(** A toolchain check spawns its command and nothing else. *)
Lemma probe_trace w cmd args msg s :
  trace (snd (probe w cmd args msg s)) = trace s ++ [EvSpawn cmd args].
Proof.
  unfold probe, try_catch, bind, spawn, child, get. cbn.
  now destruct (term (exec w cmd args None (fs s))) as [ | t code | ];
    cbn; [ | destruct (code_is_zero code) | ].
Qed.

Lemma probe_outcome w cmd args msg s :
  let p := exec w cmd args None (fs s) in
  fst (probe w cmd args msg s)
  = match term p with
    | SpawnError => Throw msg
    | Close _ code => if code_is_zero code then Ret tt else Throw msg
    | NoClose => Hang
    end.
Proof.
  unfold probe, try_catch, bind, spawn, child, get. cbn.
  now destruct (term (exec w cmd args None (fs s))) as [ | t code | ];
    cbn; [ | destruct (code_is_zero code) | ].
Qed.

Lemma probe_keeps_process w cmd args msg s :
  process (snd (probe w cmd args msg s)) = process s.
Proof.
  unfold probe, try_catch, bind, spawn, child, get. cbn.
  now destruct (term (exec w cmd args None (fs s))) as [ | t code | ];
    cbn; [ | destruct (code_is_zero code) | ].
Qed.

(** The [try] block of a language with a toolchain starts with the
    check, and stops there unless the check passes. *)
Lemma prepare_checks_first w code language tempDir filePath cmd args msg s :
  toolchain language = Some (cmd, args, msg) ->
  (exists l,
     trace (snd (prepare w code language tempDir filePath s))
     = trace (snd (probe w cmd args msg s)) ++ l)
  /\ (forall e s1, probe w cmd args msg s = (Throw e, s1) ->
      prepare w code language tempDir filePath s = (Throw e, s1))
  /\ (forall s1, probe w cmd args msg s = (Hang, s1) ->
      prepare w code language tempDir filePath s = (Hang, s1)).
Proof.
  unfold toolchain. intros H.
  assert (Hrest : forall a : unit, emits (fun _ => True)
            (writeFile filePath code ;;
             startTime <- Date_now ;;
             returned <- switch_language w code language tempDir filePath ;;
             ret (startTime, returned))).
  { intros _. repeat emits_step; try exact I. apply grows_switch. }
  destruct (String.eqb language "java") eqn:Ej.
  - injection H as <- <- <-. unfold prepare. rewrite Ej.
    apply String.eqb_eq in Ej. subst language. cbn [String.eqb Ascii.eqb Bool.eqb].
    repeat split.
    + apply after_bind. intros _. apply emits_bind; [auto with emits | exact Hrest].
    + intros e s1 Hp. now apply bind_throw.
    + intros s1 Hp. now apply bind_hang.
  - destruct (String.eqb language "cpp") eqn:Ec; [ | discriminate].
    injection H as <- <- <-. unfold prepare. rewrite Ej, Ec.
    repeat split.
    + apply (after_bind (probe w "g++" ["--version"] gpp_missing)). exact Hrest.
    + intros e s1 Hp. unfold bind at 1, ret at 1. now apply bind_throw.
    + intros s1 Hp. unfold bind at 1, ret at 1. now apply bind_hang.
Qed.

(** The part of C8 that holds. For a language that needs an installed
    toolchain (Java, C++) the first thing a job does is spawn the
    version check; unless that check passes the job writes no file at
    all; and when the check fails (the command cannot be launched, or
    closes with a non-zero code) [executeCode] throws the "not
    installed" message of that toolchain, which the route returns
    under [errors]. The command that is checked is [java] or [g++]. *)
Lemma toolchain_is_checked_before_any_write (w : World)
  (code language input : string) (s : State) cmd args msg :
  toolchain language = Some (cmd, args, msg) ->
  let check := exec w cmd args None (fs s) in
  let r := executeCode w code language input s in
  exists rest,
    trace (snd r) = trace s ++ EvSpawn cmd args :: rest
    /\ (~ check_passes check -> Forall (fun e => ~ is_write e) rest)
    /\ (check_fails check ->
        fst r = Throw msg
        /\ (is_empty code = false ->
            fst (post_execute w (request code language input) s)
            = Ret (failure_reply msg))).
Proof.
  intros Ht check r. subst r.
  set (filePath := temp_path (tmpdir w) (now s)).
  set (s0 := set_process None s).
  destruct (prepare_checks_first w code language (tmpdir w) filePath cmd args msg s0 Ht)
    as ((lp & Hlp) & Hthrow & Hhang).
  pose proof (probe_trace w cmd args msg s0) as Htr.
  pose proof (probe_outcome w cmd args msg s0) as Hout.
  pose proof (probe_keeps_process w cmd args msg s0) as Hproc.
  cbv zeta in Hout. change (fs s0) with (fs s) in Hout. fold check in Hout.
  change (trace s0) with (trace s) in Htr.
  change (process s0) with (@None Handle) in Hproc.
  assert (Hlang : is_empty language = false).
  { unfold toolchain in Ht.
    destruct language; [discriminate | reflexivity]. }
  assert (Hfail : forall s1, probe w cmd args msg s0 = (Throw msg, s1) ->
            exists rest,
              executeCode w code language input s
              = (Throw msg, snd (cleanup language (tmpdir w) filePath s1))
              /\ trace (snd (executeCode w code language input s))
                 = trace s ++ EvSpawn cmd args :: rest
              /\ Forall (fun e => ~ is_write e) rest).
  { intros s1 Hp. rewrite Hp in Htr, Hproc. cbn [snd] in Htr, Hproc.
    assert (Hjob : job w code language input (tmpdir w) filePath s0 = (Throw msg, s1)).
    { unfold job. apply bind_throw. now apply Hthrow. }
    pose proof (executeCode_outcome w code language input s) as H.
    cbv zeta in H. fold filePath s0 in H. rewrite Hjob in H. cbn [fst snd] in H.
    assert (Hrm : emits (fun e => ~ is_write e)
                    (remove_files language (tmpdir w) filePath)).
    { apply emits_remove_files.
      destruct (String.eqb language "java");
        [split | destruct (String.eqb language "cpp")]; intros []. }
    destruct (Hrm s1) as (l & Hl & Hw).
    exists l. rewrite H. cbn [snd].
    rewrite (cleanup_without_process _ _ _ _ Hproc), Hl, Htr, <- app_assoc.
    repeat split; assumption. }
  destruct (probe w cmd args msg s0) as [[[] | e | | ] s1] eqn:Hp;
    cbn [fst snd] in Htr, Hout, Hproc, Hlp.
  - (* the check passes *)
    assert (Hpass : check_passes check).
    { unfold check_passes. destruct (term check) as [ | t c | ]; try discriminate.
      destruct (code_is_zero c); [reflexivity | discriminate]. }
    assert (Hnofail : ~ check_fails check).
    { unfold check_fails, check_passes in *.
      destruct (term check) as [ | t c | ]; try contradiction. congruence. }
    rewrite executeCode_unfold. fold filePath s0.
    destruct (after_try_finally
                (try_catch (job w code language input (tmpdir w) filePath)
                   (fun error => throw error))
                (cleanup language (tmpdir w) filePath) s0
                (grows_cleanup _ _ _)) as (l1 & H1).
    destruct (after_try_catch
                (job w code language input (tmpdir w) filePath)
                (fun error => throw error) s0
                (fun e => emits_throw _ e)) as (l2 & H2).
    assert (H3 : exists l3,
              trace (snd (job w code language input (tmpdir w) filePath s0))
              = trace (snd (prepare w code language (tmpdir w) filePath s0)) ++ l3).
    { unfold job. apply after_bind. intros [startTime [result | ]]; cbn [fst snd].
      - apply emits_ret.
      - now apply emits_supervise. }
    destruct H3 as (l3 & H3).
    exists (lp ++ l3 ++ l2 ++ l1).
    rewrite H1, H2, H3, Hlp, Htr. rewrite <- !app_assoc.
    split; [reflexivity | ]. split; intros; contradiction.
  - (* the check throws *)
    assert (e = msg) as ->.
    { destruct (term check) as [ | t c | ]; try congruence.
      destruct (code_is_zero c); congruence. }
    destruct (Hfail s1 eq_refl) as (rest & Hr & Htrace & Hw).
    exists rest. split; [exact Htrace | ]. split; [intros _; exact Hw | ].
    intros _. split.
    + now rewrite Hr.
    + intros Hc. rewrite post_execute_outcome by assumption.
      now rewrite Hr.
  - (* the check never closes *)
    assert (Hjob : job w code language input (tmpdir w) filePath s0 = (Hang, s1)).
    { unfold job. apply bind_hang. now apply Hhang. }
    pose proof (executeCode_outcome w code language input s) as H.
    cbv zeta in H. fold filePath s0 in H. rewrite Hjob in H. cbn [fst snd] in H.
    exists []. rewrite H. cbn [snd]. rewrite Htr.
    split; [reflexivity | ]. split; [intros _; constructor | ].
    intros Hf. unfold check_fails in Hf.
    destruct (term check) as [ | t c | ]; try discriminate; try contradiction.
    destruct (code_is_zero c); discriminate.
  - (* a check never brings the server down *)
    destruct (term check) as [ | t c | ]; try discriminate.
    destruct (code_is_zero c); discriminate.
Qed.

Lemma missing_runtime_is_reported :
  exists rest,
    trace (snd (executeCode world_bare print5_java "java" EmptyString state0))
    = EvSpawn "java" ["-version"] :: rest
    /\ Forall (fun e => ~ is_write e) rest
    /\ fst (executeCode world_bare print5_java "java" EmptyString state0)
       = Throw java_missing.
Proof.
  destruct (toolchain_is_checked_before_any_write world_bare print5_java "java"
              EmptyString state0 "java" ["-version"] java_missing eq_refl)
    as (rest & H1 & H2 & H3).
  exists rest. split; [exact H1 | ]. split.
  - apply H2. intros H. exact H.
  - apply H3. exact I.
Defined.

(** ** The common supervision code *)

(** The state in which the race is entered: the input, if any, has been
    written to the child. *)
Lemma supervise_unfold w code language input startTime s1 h :
  process s1 = Some h ->
  let p := awaited w input s1 h in
  let s2 := if is_empty input then s1 else log (EvStdin input) s1 in
  let scanned := fold_left on_stdout (stdout p) (EmptyString, zero, zero) in
  let errors := concat_chunks (stderr p) in
  supervise w code language input startTime s1
  = match race h p errors (write_fails input p) s2 with
    | (Ret _, s3) =>
        (Ret (Executed
                (trim (strip_metrics (fst (fst scanned))))
                (reported errors)
                (if truthy (snd (fst scanned)) then snd (fst scanned)
                 else seconds_of_ms (now s3 - startTime))
                (snd scanned)
                (analyzeComplexity code language)
                (feedback_of (generateAISuggestions code language))), s3)
    | (Throw e, s3) => (Throw e, s3)
    | (Hang, s3) => (Hang, s3)
    | (Crash, s3) => (Crash, s3)
    end.
Proof.
  intros Hp p s2 scanned errors.
  unfold supervise. unfold bind at 1, get. rewrite Hp.
  unfold bind at 1, child, get. fold (awaited w input s1 h). fold p.
  unfold bind at 1.
  assert (Hs2 : (if is_empty input then ret tt else modify (log (EvStdin input))) s1
                = (Ret tt, s2)).
  { subst s2. now destruct (is_empty input). }
  rewrite Hs2. fold scanned. fold errors.
  destruct scanned as [[output executionTime] memoryUsage]. cbn [fst snd].
  unfold bind at 1, try_catch.
  destruct (race h p errors (write_fails input p) s2) as [[[] | e | | ] s3];
    reflexivity.
Qed.

Lemma race_in_time h p errors s t code :
  term p = Close t code -> (t < timeout)%N ->
  race h p errors None s
  = (if code_is_zero code then Ret tt else Throw (exit_message errors code),
     set_now (now s + Z.of_N t) (set_fs (fs_after p) s)).
Proof.
  intros Ht Hlt. unfold race. rewrite Ht.
  apply N.ltb_lt in Hlt. rewrite Hlt.
  unfold bind, settle, modify, exit_message.
  now destruct (code_is_zero code).
Qed.


(** A write of the input that fails ends the server. *)
Lemma race_broken h p errors fails_at s :
  fst (race h p errors (Some fails_at) s) = Crash.
Proof.
  unfold race, expire. destruct (term p) as [ | t code | ]; [reflexivity | | ].
  - now destruct (t <? timeout)%N.
  - reflexivity.
Qed.


Lemma job_supervised w code language input s startTime s1 :
  reaches_supervision w code language s startTime s1 ->
  job w code language input (tmpdir w) (temp_path (tmpdir w) (now s))
    (set_process None s)
  = supervise w code language input startTime s1.
Proof.
  unfold reaches_supervision. intros H. unfold job.
  now rewrite (bind_ret _ _ _ _ _ H).
Qed.

Lemma remove_keeps_now path s :
  now (snd (remove_if_present path s)) = now s.
Proof.
  destruct (fs s !! path) eqn:E.
  - now erewrite remove_present by eauto.
  - now rewrite remove_absent.
Qed.

(** The [finally] block does not take time. *)
Lemma cleanup_keeps_now language tempDir filePath s :
  now (snd (cleanup language tempDir filePath s)) = now s.
Proof.
  unfold cleanup. rewrite (bind_ret _ _ _ _ _ (kill_process_eval s)).
  set (s1 := match process s with
             | Some h => log (EvKill h) s
             | None => s
             end).
  assert (Hn : now s1 = now s) by (subst s1; now destruct (process s)).
  rewrite <- Hn. clear Hn. generalize s1. clear s s1. intros s.
  unfold remove_files, try_catch.
  destruct (String.eqb language "java").
  - destruct (remove_returns (join tempDir "Main.java") s) as (s2 & H2).
    destruct (remove_returns (join tempDir "Main.class") s2) as (s3 & H3).
    rewrite (bind_ret _ _ _ _ _ H2), H3. cbn [fst snd].
    pose proof (remove_keeps_now (join tempDir "Main.java") s) as K2.
    pose proof (remove_keeps_now (join tempDir "Main.class") s2) as K3.
    rewrite H2 in K2. rewrite H3 in K3. cbn [snd] in *. congruence.
  - destruct (String.eqb language "cpp").
    + destruct (remove_returns (filePath +:+ ".cpp") s) as (s2 & H2).
      pose proof (remove_keeps_now (filePath +:+ ".cpp") s) as K2.
      rewrite H2 in *. exact K2.
    + destruct (remove_returns filePath s) as (s2 & H2).
      pose proof (remove_keeps_now filePath s) as K2.
      rewrite H2 in *. exact K2.
Qed.

(** ** Success and failure of the final stage *)

(** A write of the input that fails ends the server: [executeCode]
    neither returns nor throws, and its [finally] block does not run. *)
Lemma broken_write_ends_the_server w code language input s startTime s1 h fails_at :
  reaches_supervision w code language s startTime s1 ->
  process s1 = Some h ->
  write_fails input (awaited w input s1 h) = Some fails_at ->
  fst (executeCode w code language input s) = Crash.
Proof.
  intros Hreach Hproc Hw.
  pose proof (executeCode_outcome w code language input s) as H.
  cbv zeta in H. rewrite (job_supervised _ _ _ input _ _ _ Hreach) in H.
  rewrite (supervise_unfold _ _ _ _ _ _ _ Hproc) in H. cbv zeta in H.
  rewrite Hw in H.
  pose proof (race_broken h (awaited w input s1 h)
                (concat_chunks (stderr (awaited w input s1 h))) fails_at
                (if is_empty input then s1 else log (EvStdin input) s1)) as Hc.
  destruct (race _ _ _ _ _) as [o s3]. cbn [fst] in Hc. subst o.
  cbn [fst] in H. now rewrite H.
Qed.

(** C3, as the code has it. For a job that reaches the common
    supervision code (JavaScript, Python, and C++ after a successful
    compile) and whose child closes before the deadline: when the
    write of the input to the child fails, the server ends and no
    reply is sent; otherwise the exit code alone decides between
    success and failure. With code 0 [executeCode] returns a result
    whose [errors] is the standard error the child wrote, and is
    absent only when the child wrote none; with any other code it
    throws the collected standard error, or
    ["Process exited with code <code>"] when there is none, and the
    route replies with that message under [errors] and an empty
    [output]. *)
Theorem exit_code_decides_and_stderr_is_reported (w : World)
  (code language input : string) (s : State) startTime s1 h t exit :
  reaches_supervision w code language s startTime s1 ->
  process s1 = Some h ->
  let p := awaited w input s1 h in
  let errors := concat_chunks (stderr p) in
  term p = Close t exit -> (t < timeout)%N ->
  match write_fails input p with
  | Some _ =>
      fst (executeCode w code language input s) = Crash
      /\ (is_empty code = false -> is_empty language = false ->
          fst (post_execute w (request code language input) s) = Crash)
  | None =>
      if code_is_zero exit then
        exists result,
          fst (executeCode w code language input s) = Ret result
          /\ errors_of result = reported errors
      else
        fst (executeCode w code language input s)
        = Throw (exit_message errors exit)
        /\ (is_empty code = false -> is_empty language = false ->
            exists reply,
              fst (post_execute w (request code language input) s) = Ret reply
              /\ errors_of (body_result reply) = Some (exit_message errors exit)
              /\ output_of (body_result reply) = Some EmptyString)
  end.
Proof.
  intros Hreach Hproc p errors Hterm Hlt.
  destruct (write_fails input p) as [fails_at | ] eqn:Hw.
  - pose proof (broken_write_ends_the_server _ _ _ _ _ _ _ _ _ Hreach Hproc Hw) as Hc.
    split; [exact Hc | ].
    intros Hcode Hl. rewrite post_execute_outcome by assumption.
    destruct (executeCode w code language input s) as [o s'].
    cbn [fst] in Hc. now subst o.
  - pose proof (executeCode_outcome w code language input s) as H.
    cbv zeta in H. rewrite (job_supervised _ _ _ input _ _ _ Hreach) in H.
    rewrite (supervise_unfold _ _ _ _ _ _ _ Hproc) in H. cbv zeta in H.
    fold p errors in H. rewrite Hw in H.
    rewrite (race_in_time _ _ _ _ _ _ Hterm Hlt) in H.
    destruct (code_is_zero exit); cbn [fst snd] in H.
    + eexists. rewrite H. cbn [fst]. split; reflexivity.
    + rewrite H. split; [reflexivity | ].
      intros Hc Hl. rewrite post_execute_outcome by assumption. rewrite H.
      eexists. repeat split; reflexivity.
Qed.

Lemma exit_code_decides_and_stderr_is_reported_witness :
  exists result,
    fst (executeCode world_warning print5_js "javascript" EmptyString state0)
    = Ret result
    /\ errors_of result = reported "(node) warning: deprecated".
Proof.
  exact (exit_code_decides_and_stderr_is_reported world_warning print5_js
           "javascript" EmptyString state0 _ _ _ 120%N (Some 0)
           eq_refl eq_refl eq_refl eq_refl).
Defined.

(** C3, as stated, fails: a Node child that exits with code 0 after
    writing a warning to standard error yields a successful result
    whose [errors] holds the warning. *)
Lemma stderr_on_success_is_not_dropped :
  term (exec world_warning "node" ["/tmp/code_1000"] None
          (<["/tmp/code_1000" := wrappedCode print5_js]> ∅))
  = Close 120 (Some 0)
  /\ omap errors_of
       (fst (executeCode world_warning print5_js "javascript" EmptyString state0))
     = Ret (Some "(node) warning: deprecated").
Proof. split; reflexivity. Qed.

(** ** The deadline *)

(** A child that ends without having read its input. With an input
    the job ends the server, although the child printed its value and
    closed with code 0; without one the same child gives a result. *)
Example unread_input_ends_the_server :
  fst (executeCode world_deaf print5_js "javascript" "7" state0) = Crash
  /\ fst (post_execute world_deaf (request print5_js "javascript" "7") state0)
     = Crash
  /\ exists result,
       fst (executeCode world_deaf print5_js "javascript" EmptyString state0)
       = Ret result
       /\ output_of result = Some "5".
Proof.
  split; [vm_compute; reflexivity | ]. split; [vm_compute; reflexivity | ].
  eexists. split; vm_compute; reflexivity.
Qed.




(** ** Performance markers *)

(** C7 at a failing input. The run exits with code 0 and its standard
    output, once buffered, holds the marker [Execution Time: 1.500 s];
    the line arrived in two chunks, so neither chunk matched, and the
    result reports the wall-clock time of the job (0.12 s) in its
    place. The memory marker, which arrived whole, is parsed, and the
    three metric lines are removed from the output. *)
Lemma split_time_marker_is_missed :
  timeMatch (concat_chunks
               (stdout (exec world_split_marker "node" ["/tmp/code_1000"] None ∅)))
  = Some "1.500"
  /\ omap executionTime_of
       (fst (executeCode world_split_marker print5_js "javascript" EmptyString state0))
     = Ret (seconds_of_ms 120)
  /\ omap memoryUsage_of
       (fst (executeCode world_split_marker print5_js "javascript" EmptyString state0))
     = Ret (Num 2)
  /\ omap output_of
       (fst (executeCode world_split_marker print5_js "javascript" EmptyString state0))
     = Ret (Some "5").
Proof. repeat split; vm_compute; reflexivity. Qed.

(** ** The class-name search *)

Lemma append_cons c a b : String c a +:+ b = String c (a +:+ b).
Proof. reflexivity. Qed.

Lemma append_assoc a b c : (a +:+ b) +:+ c = a +:+ (b +:+ c).
Proof.
  induction a as [ | x a IH]; [reflexivity | ].
  rewrite !append_cons. now rewrite IH.
Qed.

Lemma append_empty_r a : a +:+ EmptyString = a.
Proof.
  induction a as [ | x a IH]; [reflexivity | ].
  rewrite append_cons. now rewrite IH.
Qed.

Lemma strip_prefix_app p s : strip_prefix p (p +:+ s) = Some s.
Proof.
  induction p as [ | c p IH]; [reflexivity | ].
  rewrite append_cons. cbn [strip_prefix]. now rewrite Ascii.eqb_refl.
Qed.

Lemma span_all f a b :
  all_in f a = true -> starts_in f b = false -> span f (a +:+ b) = (a, b).
Proof.
  intros Ha Hb. induction a as [ | c a IH].
  - change (EmptyString +:+ b) with b.
    destruct b as [ | c b]; cbn in *; [reflexivity | now rewrite Hb].
  - rewrite append_cons. cbn [span all_in] in *.
    apply andb_true_iff in Ha as [Hc Ha]. now rewrite Hc, IH.
Qed.

Lemma plus_all f a b :
  all_in f a = true -> a <> EmptyString -> starts_in f b = false ->
  plus f (a +:+ b) = Some (a, b).
Proof.
  intros Ha Hne Hb. unfold plus. rewrite span_all by assumption.
  now destruct a.
Qed.

Lemma length_append a b :
  String.length (a +:+ b) = (String.length a + String.length b)%nat.
Proof.
  induction a as [ | c a IH]; [reflexivity | ]. rewrite append_cons. cbn.
  now rewrite IH.
Qed.

(** A word character is a letter, a digit or the underscore, and so no
    byte of any white space. *)
Lemma word_range c :
  is_word c = true ->
  (48 <= nat_of_ascii c <= 122)%nat.
Proof.
  unfold is_word, is_digit, in_range. intros H.
  repeat (apply orb_prop in H as [H | H]);
    try (apply andb_prop in H as [H1 H2];
         apply Nat.leb_le in H1, H2; lia).
  apply Ascii.eqb_eq in H. subst c.
  change (nat_of_ascii "_") with 95%nat. lia.
Qed.

Lemma drop_spaces_word s : starts_in is_word s = true -> drop_spaces s = s.
Proof.
  destruct s as [ | a s1]; [reflexivity | ]. cbn [starts_in]. intros H.
  pose proof (word_range a H) as Hr.
  assert (H1 : is_space1 a = false).
  { unfold is_space1, in_range.
    destruct (Ascii.eqb a " ") eqn:E.
    - apply Ascii.eqb_eq in E. subst a.
      change (nat_of_ascii " ") with 32%nat in Hr. lia.
    - rewrite orb_false_r. apply andb_false_iff. right. apply Nat.leb_gt. lia. }
  assert (H2 : forall b, is_space2 a b = false).
  { intros b. unfold is_space2.
    assert (E : (nat_of_ascii a =? 194)%nat = false) by (apply Nat.eqb_neq; lia).
    now rewrite E. }
  assert (H3 : forall b c, is_space3 a b c = false).
  { intros b c. unfold is_space3.
    assert (E1 : (nat_of_ascii a =? 225)%nat = false) by (apply Nat.eqb_neq; lia).
    assert (E2 : (nat_of_ascii a =? 226)%nat = false) by (apply Nat.eqb_neq; lia).
    assert (E3 : (nat_of_ascii a =? 227)%nat = false) by (apply Nat.eqb_neq; lia).
    assert (E4 : (nat_of_ascii a =? 239)%nat = false) by (apply Nat.eqb_neq; lia).
    now rewrite E1, E2, E3, E4. }
  cbn [drop_spaces]. rewrite H1.
  destruct s1 as [ | b s2]; [reflexivity | ]. rewrite H2.
  destruct s2 as [ | c s3]; [reflexivity | ]. now rewrite H3.
Qed.

(** White space before [rest] is dropped with the white space [rest]
    starts with. *)
Lemma drop_spaces_app ws rest :
  is_empty (drop_spaces ws) = true ->
  drop_spaces (ws +:+ rest) = drop_spaces rest.
Proof.
  remember (String.length ws) as n eqn:Hn. revert ws Hn.
  induction n as [n IH] using lt_wf_ind. intros ws Hn H.
  destruct ws as [ | a s1]; [reflexivity | ].
  rewrite append_cons. cbn [drop_spaces] in *.
  destruct (is_space1 a).
  { apply (IH (String.length s1)); [subst n; cbn; lia | reflexivity | exact H]. }
  destruct s1 as [ | b s2]; [discriminate H | ].
  rewrite append_cons.
  destruct (is_space2 a b).
  { apply (IH (String.length s2)); [subst n; cbn; lia | reflexivity | exact H]. }
  destruct s2 as [ | c s3]; [discriminate H | ].
  rewrite append_cons.
  destruct (is_space3 a b c); [ | discriminate H].
  apply (IH (String.length s3)); [subst n; cbn; lia | reflexivity | exact H].
Qed.

(** [\s+] takes a run of white space that a word follows. *)
Lemma spaces_white ws rest :
  white ws = true -> starts_in is_word rest = true ->
  spaces (ws +:+ rest) = Some rest.
Proof.
  unfold white, spaces. intros H Hr. apply andb_prop in H as [Hne Hw].
  rewrite (drop_spaces_app _ _ Hw), (drop_spaces_word _ Hr), length_append.
  destruct ws as [ | c ws]; [discriminate Hne | ]. cbn [String.length].
  assert (E : (String.length rest <? S (String.length ws) + String.length rest)%nat
              = true) by (apply Nat.ltb_lt; lia).
  now rewrite E.
Qed.

Lemma search_here {A : Type} (here : string -> option A) s a :
  here s = Some a -> search here s = Some a.
Proof. intros H. destruct s; cbn; now rewrite H. Qed.

Lemma search_leftmost {A : Type} (here : string -> option A) before rest :
  no_match_inside here before rest ->
  search here (before +:+ rest) = search here rest.
Proof.
  induction before as [ | c before IH]; intros H; [reflexivity | ].
  rewrite append_cons. cbn [search]. rewrite <- append_cons.
  rewrite (H EmptyString c before eq_refl).
  apply IH. intros a c' b E. apply (H (String c a) c' b).
  rewrite append_cons. now rewrite E.
Qed.

Lemma search_none {A B : Type} (f : string -> option A) (g : string -> option B) s :
  (forall x, f x = None -> g x = None) ->
  search f s = None -> search g s = None.
Proof.
  intros Hfg. induction s as [ | c s IH]; cbn [search]; intros H.
  - destruct (f EmptyString) eqn:E; [discriminate | ]. now rewrite (Hfg _ E).
  - destruct (f (String c s)) eqn:E; [discriminate | ].
    rewrite (Hfg _ E). now apply IH.
Qed.

(** A source without the word [public] has no match. *)
Lemma no_public_no_match code :
  includes "public" code = false -> classNameMatch code = None.
Proof.
  unfold includes, classNameMatch. intros H.
  apply (search_none (strip_prefix "public")).
  - intros x Hx. unfold class_decl_here. now rewrite Hx.
  - now destruct (search (strip_prefix "public") code).
Qed.

(** The pattern matches a declaration [public class Name] laid out with
    any white space, and captures the whole name. *)
Lemma class_decl_here_matches ws1 ws2 name after :
  white ws1 = true -> white ws2 = true ->
  all_in is_word name = true -> name <> EmptyString ->
  starts_in is_word after = false ->
  class_decl_here ("public" +:+ ws1 +:+ "class" +:+ ws2 +:+ name +:+ after)
  = Some name.
Proof.
  intros H1 H2 Hn Nn Ha. unfold class_decl_here.
  rewrite strip_prefix_app. cbn [mbind option_bind].
  rewrite (spaces_white ws1) by (assumption || reflexivity).
  cbn [mbind option_bind]. rewrite strip_prefix_app. cbn [mbind option_bind].
  rewrite (spaces_white ws2); try assumption.
  - cbn [mbind option_bind]. now rewrite (plus_all is_word name).
  - destruct name as [ | c name]; [contradiction | ]. cbn in *.
    now apply andb_true_iff in Hn as [Hc _].
Qed.

(** ** Events that stay in the trace *)

Lemma in_after_bind {A B : Type} (m : M A) (k : A -> M B) s e :
  (forall a, emits (fun _ => True) (k a)) ->
  In e (trace (snd (m s))) -> In e (trace (snd (bind m k s))).
Proof.
  intros Hk Hin. destruct (after_bind m k s Hk) as (l & Hl).
  rewrite Hl. apply in_or_app. now left.
Qed.

Lemma in_after_try_catch {A : Type} (m : M A) (h : string -> M A) s e :
  (forall x, emits (fun _ => True) (h x)) ->
  In e (trace (snd (m s))) -> In e (trace (snd (try_catch m h s))).
Proof.
  intros Hh Hin. destruct (after_try_catch m h s Hh) as (l & Hl).
  rewrite Hl. apply in_or_app. now left.
Qed.

Lemma in_after_try_finally {A : Type} (m : M A) (fin : M unit) s e :
  emits (fun _ => True) fin ->
  In e (trace (snd (m s))) -> In e (trace (snd (try_finally m fin s))).
Proof.
  intros Hf Hin. destruct (after_try_finally m fin s Hf) as (l & Hl).
  rewrite Hl. apply in_or_app. now left.
Qed.

Lemma probe_passes w cmd args msg s :
  check_passes (exec w cmd args None (fs s)) ->
  exists s1, probe w cmd args msg s = (Ret tt, s1).
Proof.
  intros H. pose proof (probe_outcome w cmd args msg s) as Ho. cbv zeta in Ho.
  unfold check_passes in H.
  destruct (term (exec w cmd args None (fs s))) as [ | t c | ]; try contradiction.
  rewrite H in Ho. destruct (probe w cmd args msg s) as [o s1].
  cbn in Ho. subst o. now exists s1.
Qed.

(** ** The [process] variable *)

Lemma same_process_refl s : same_process s s.
Proof. reflexivity. Qed.

Lemma same_process_trans a b c :
  same_process a b -> same_process b c -> same_process a c.
Proof. unfold same_process. congruence. Qed.

Lemma same_stay {A : Type} (m : M A) :
  (forall s, process (snd (m s)) = process s) -> steps same_process m.
Proof. intros H s. apply H. Qed.

Lemma same_access path : steps same_process (access path).
Proof. apply same_stay. intros s. unfold access. now destruct (fs s !! path). Qed.

Lemma same_unlink path : steps same_process (unlink path).
Proof. apply same_stay. intros s. unfold unlink. now destruct (fs s !! path). Qed.

(** Takes a computation that never assigns [process] apart. *)
Ltac same_step :=
  lazymatch goal with
  | |- steps same_process (bind _ _) =>
      apply (steps_bind same_process same_process_trans); [ | intros ? ]
  | |- steps same_process (try_catch _ _) =>
      apply (steps_try_catch same_process same_process_trans); [ | intros ? ]
  | |- steps same_process (try_finally _ _) =>
      apply (steps_try_finally same_process same_process_refl same_process_trans)
  | |- steps same_process (if ?b then _ else _) => destruct b
  | |- steps same_process (match ?x with _ => _ end) => destruct x
  | |- steps same_process (access _) => apply same_access
  | |- steps same_process (unlink _) => apply same_unlink
  | |- steps same_process _ => solve [apply same_stay; reflexivity]
  end.

Lemma same_probe w cmd args msg : steps same_process (probe w cmd args msg).
Proof. unfold probe. repeat same_step. Qed.

Lemma same_await_close w h failure : steps same_process (await_close w h failure).
Proof. unfold await_close. repeat same_step. Qed.

Lemma same_file_exists path : steps same_process (file_exists path).
Proof. unfold file_exists. repeat same_step. Qed.

Lemma same_java_case w code language tempDir :
  steps same_process (java_case w code language tempDir).
Proof.
  unfold java_case.
  repeat same_step; first [apply same_await_close | apply same_file_exists].
Qed.

(** ** The Java job *)

(** The [try] block of a Java job: the check, the temporary file and
    the Java case, which returns from [executeCode]. *)
Lemma java_job w code input tempDir filePath s :
  job w code "java" input tempDir filePath s
  = (probe w "java" ["-version"] java_missing ;;
     writeFile filePath code ;;
     java_case w code "java" tempDir) s.
Proof.
  unfold job, prepare, switch_language.
  change (String.eqb "java" "java") with true.
  change (String.eqb "java" "cpp") with false.
  change (String.eqb "java" "javascript") with false.
  change (String.eqb "java" "python") with false. cbv iota.
  unfold bind.
  destruct (probe w "java" ["-version"] java_missing s) as [[[] | e | | ] s1];
    try reflexivity.
  cbn [ret writeFile modify Date_now get].
  now destruct (java_case w code "java" tempDir _) as [[r | e | | ] s2].
Qed.

(** The events of a Java job, and its [process] variable, which stays
    as [executeCode] initialised it. *)
Lemma java_job_events w code input s :
  let tempDir := tmpdir w in
  let filePath := temp_path tempDir (now s) in
  extends_by (java_event tempDir filePath code) s
    (snd (executeCode w code "java" input s)).
Proof.
  intros tempDir filePath.
  set (P := java_event tempDir filePath code).
  set (s0 := set_process None s).
  set (m := probe w "java" ["-version"] java_missing ;;
            writeFile filePath code ;;
            java_case w code "java" tempDir).
  assert (Hm : emits P m).
  { subst m. apply emits_bind; [apply emits_probe | intros _].
    { subst P. cbn. now left. }
    apply emits_bind; [apply emits_writeFile | intros _].
    { subst P. cbn. now left. }
    apply emits_java_case; subst P; cbn; auto 6. }
  assert (Hs : steps same_process m).
  { subst m. repeat same_step; first [apply same_probe | apply same_java_case]. }
  pose proof (executeCode_outcome w code "java" input s) as H.
  cbv zeta in H. fold tempDir filePath s0 in H.
  rewrite java_job in H. fold m in H.
  specialize (Hm s0). specialize (Hs s0).
  change (process s0) with (@None Handle) in Hs.
  assert (Hfin : extends_by P (snd (m s0))
                   (snd (cleanup "java" tempDir filePath (snd (m s0))))).
  { rewrite cleanup_without_process by exact Hs.
    apply (emits_remove_files P). cbn. subst P. cbn. auto 6. }
  destruct (fst (m s0)) eqn:E; rewrite H; cbn [snd];
    try (eapply extends_by_trans; [exact Hm | exact Hfin]).
  - destruct (m s0) as [o s3]. cbn in E. subst o. exact Hm.
  - destruct (m s0) as [o s3]. cbn in E. subst o. exact Hm.
Qed.

(** C1 at Java. Whatever the submitted source, the only file a Java job
    hands to the compiler is [<Name>.java] holding the fixed program
    built from the class name, and the only class it runs is that one;
    the submitted source is written to the temporary file alone, which
    no process is given. The output of a Java job is therefore that of
    the fixed program and never depends on what the source prints. *)
Theorem java_job_runs_the_fixed_program (w : World) (code input : string) (s : State) :
  let tempDir := tmpdir w in
  let filePath := temp_path tempDir (now s) in
  exists l,
    trace (snd (executeCode w code "java" input s)) = trace s ++ l
    /\ Forall (java_event tempDir filePath code) l.
Proof. exact (java_job_events w code input s). Qed.

(** ** Paths *)

Lemma append_inj_l a b c : a +:+ b = a +:+ c -> b = c.
Proof.
  induction a as [ | x a IH]; [trivial | ].
  rewrite !append_cons. intros H. injection H as H. now apply IH.
Qed.

Lemma append_not_longer a b : a = a +:+ b -> b = EmptyString.
Proof.
  induction a as [ | x a IH].
  - intros H. symmetry. exact H.
  - rewrite append_cons. intros H. injection H as H. now apply IH.
Qed.

Lemma all_in_app f a b : all_in f (a +:+ b) = all_in f a && all_in f b.
Proof.
  induction a as [ | x a IH]; [reflexivity | ].
  rewrite append_cons. cbn [all_in]. now rewrite IH, andb_assoc.
Qed.

Lemma pretty_N_char_not_dot x : not_dot (pretty_N_char x) = true.
Proof. unfold pretty_N_char. now repeat case_match. Qed.

Lemma pretty_N_go_not_dot x s :
  all_in not_dot s = true -> all_in not_dot (pretty_N_go x s) = true.
Proof.
  revert s. induction (N.lt_wf_0 x) as [x _ IH]; intros s Hs.
  assert (x = 0 \/ 0 < x)%N as [-> | Hx] by lia.
  - now rewrite pretty_N_go_0.
  - rewrite pretty_N_go_step by exact Hx. apply IH.
    + apply N.div_lt; lia.
    + cbn [all_in]. now rewrite pretty_N_char_not_dot, Hs.
Qed.

Lemma pretty_N_not_dot (x : N) : all_in not_dot (pretty x) = true.
Proof.
  unfold pretty, pretty_N. case_decide; [reflexivity | ].
  now apply pretty_N_go_not_dot.
Qed.

(** The decimal form of a timestamp has no dot. *)
Lemma pretty_Z_not_dot (z : Z) : all_in not_dot (pretty z) = true.
Proof.
  unfold pretty, pretty_Z. destruct z as [ | p | p]; [reflexivity | | ].
  - apply pretty_N_not_dot.
  - rewrite all_in_app. cbn. apply pretty_N_not_dot.
Qed.

(** The temporary file of a job is none of the dotted files of its
    directory. *)
Lemma temp_path_not_dotted tempDir timestamp name ext :
  temp_path tempDir timestamp <> join tempDir (name +:+ "." +:+ ext).
Proof.
  unfold temp_path, join. intros H.
  apply append_inj_l in H. apply (append_inj_l "/") in H.
  apply (f_equal (all_in not_dot)) in H.
  rewrite !all_in_app, pretty_Z_not_dot in H. cbn in H.
  now rewrite andb_false_r in H.
Qed.

Lemma temp_path_not_cpp filePath : filePath +:+ ".cpp" <> filePath.
Proof. intros H. symmetry in H. apply append_not_longer in H. discriminate. Qed.

(** A Java job removes no file but dotted ones. *)
Lemma java_event_keeps_temp tempDir timestamp code e :
  java_event tempDir (temp_path tempDir timestamp) code e ->
  e <> EvUnlink (temp_path tempDir timestamp).
Proof.
  intros He ->. cbn in He.
  destruct He as [H | [H | [H | [H | []]]]]; symmetry in H; revert H.
  - apply (temp_path_not_dotted _ _ (className_of code) "java").
  - apply (temp_path_not_dotted _ _ (className_of code) "class").
  - apply (temp_path_not_dotted _ _ "Main" "java").
  - apply (temp_path_not_dotted _ _ "Main" "class").
Qed.

(** ** The name of the Java file *)

Lemma since_later s e s1 s2 :
  (exists l, trace s2 = trace s1 ++ l) -> since s e s1 -> since s e s2.
Proof.
  intros (l2 & H2) (l1 & H1 & Hin). exists (l1 ++ l2). split.
  - now rewrite H2, H1, app_assoc.
  - apply in_or_app. now left.
Qed.

Lemma since_after_bind {A B : Type} (m : M A) (k : A -> M B) s0 s e :
  (forall a, emits (fun _ => True) (k a)) ->
  since s0 e (snd (m s)) -> since s0 e (snd (bind m k s)).
Proof. intros Hk. apply since_later. now apply after_bind. Qed.

Lemma since_after_try_catch {A : Type} (m : M A) (h : string -> M A) s0 s e :
  (forall x, emits (fun _ => True) (h x)) ->
  since s0 e (snd (m s)) -> since s0 e (snd (try_catch m h s)).
Proof. intros Hh. apply since_later. now apply after_try_catch. Qed.

Lemma since_after_try_finally {A : Type} (m : M A) (fin : M unit) s0 s e :
  emits (fun _ => True) fin ->
  since s0 e (snd (m s)) -> since s0 e (snd (try_finally m fin s)).
Proof. intros Hf. apply since_later. now apply after_try_finally. Qed.

(** A Java job whose toolchain check passes writes the program built
    for the class name under the name of the class. *)
Lemma java_job_writes_the_java_file w code input s :
  check_passes (exec w "java" ["-version"] None (fs s)) ->
  since s
    (EvWrite (join (tmpdir w) (className_of code +:+ ".java"))
       (javaProgram (className_of code)))
    (snd (executeCode w code "java" input s)).
Proof.
  intros Hpass. rewrite executeCode_unfold.
  set (filePath := temp_path (tmpdir w) (now s)).
  set (s0 := set_process None s).
  change (since s) with (since s0).
  apply since_after_try_finally; [apply grows_cleanup | ].
  apply since_after_try_catch; [intros x; apply emits_throw | ].
  unfold job. apply since_after_bind.
  { intros [startTime [result | ]]; cbn [fst snd];
      [apply emits_ret | now apply emits_supervise]. }
  destruct (probe_passes w "java" ["-version"] java_missing s0 Hpass) as (sA & HA).
  pose proof (probe_trace w "java" ["-version"] java_missing s0) as HtA.
  rewrite HA in HtA. cbn [snd] in HtA.
  unfold prepare. change (String.eqb "java" "java") with true.
  change (String.eqb "java" "cpp") with false. cbv iota.
  rewrite (bind_ret _ _ _ _ _ HA).
  unfold bind at 1, ret at 1. unfold bind at 1, writeFile at 1, modify.
  unfold bind at 1, Date_now at 1, get.
  apply since_after_bind; [intros ?; apply emits_ret | ].
  unfold switch_language.
  change (String.eqb "java" "javascript") with false.
  change (String.eqb "java" "python") with false.
  change (String.eqb "java" "java") with true. cbv iota.
  apply since_after_bind; [intros ?; apply emits_ret | ].
  unfold java_case.
  apply since_after_try_finally.
  { repeat emits_step; try exact I; apply emits_file_exists. }
  apply since_after_try_catch; [intros x; apply emits_ret | ].
  apply since_after_bind.
  { intros _. repeat emits_step; try exact I; apply emits_await_close. }
  unfold since. cbn [writeFile modify snd trace log set_fs]. rewrite HtA.
  eexists. split; [rewrite <- !app_assoc; reflexivity | ].
  apply in_or_app. right. apply in_or_app. right. now left.
Qed.

(** The program written for a class name declares that class: the
    name search finds in it the name it was built from. *)
Lemma javaProgram_declares_its_class name :
  all_in is_word name = true -> name <> EmptyString ->
  className_of (javaProgram name) = name.
Proof.
  intros Hn Nn. unfold className_of, classNameMatch, javaProgram.
  change ("
public class ") with (nl +:+ "public" +:+ " " +:+ "class" +:+ " ").
  rewrite !append_assoc.
  change (nl +:+ ?x) with (String (ascii_of_nat 10) x).
  cbn [search]. unfold class_decl_here at 1.
  change (strip_prefix "public" (String (ascii_of_nat 10) ?x)) with (@None string).
  cbn [mbind option_bind].
  now rewrite (search_here _ _ name)
    by (apply class_decl_here_matches; trivial).
Qed.

(** C6. The name of the Java file comes from a search of the source for
    [public class <Name>]: the leftmost occurrence of the pattern gives
    the name, with any white space between the three tokens; when the
    pattern occurs nowhere (as in a source without the word [public])
    the name is [Main]; and a Java job whose toolchain check passes
    writes a file called [<Name>.java] in the temporary directory,
    whatever the timestamp-derived name of the job and whatever its
    input. What it writes under that name, however, is never taken
    from the source: it is the program built from the class name
    alone, which declares that class; the source is written to the
    temporary file of the job and nowhere else. *)
Theorem java_file_is_named_after_the_public_class (w : World)
  (code input : string) (s : State) :
  let className := className_of code in
  let javaFile := join (tmpdir w) (className +:+ ".java") in
  let filePath := temp_path (tmpdir w) (now s) in
  (forall before ws1 ws2 name after,
     code = before +:+ "public" +:+ ws1 +:+ "class" +:+ ws2 +:+ name +:+ after ->
     no_match_inside class_decl_here before
       ("public" +:+ ws1 +:+ "class" +:+ ws2 +:+ name +:+ after) ->
     white ws1 = true -> white ws2 = true ->
     all_in is_word name = true -> name <> EmptyString ->
     starts_in is_word after = false ->
     className = name)
  /\ (classNameMatch code = None -> className = "Main")
  /\ (includes "public" code = false -> className = "Main")
  /\ (check_passes (exec w "java" ["-version"] None (fs s)) ->
      exists l,
        trace (snd (executeCode w code "java" input s)) = trace s ++ l
        /\ In (EvWrite javaFile (javaProgram className)) l
        /\ (forall path content,
              In (EvWrite path content) l ->
              path = javaFile /\ content = javaProgram className
              \/ path = filePath /\ content = code /\ path <> javaFile))
  /\ (forall name,
        all_in is_word name = true -> name <> EmptyString ->
        className_of (javaProgram name) = name).
Proof.
  intros className javaFile filePath.
  split; [ | split; [ | split; [ | split]]].
  - intros before ws1 ws2 name after -> Hleft H1 H2 Hn Nn Ha.
    subst className. unfold className_of, classNameMatch.
    rewrite search_leftmost by exact Hleft.
    now rewrite (search_here _ _ name) by now apply class_decl_here_matches.
  - intros H. subst className. unfold className_of. now rewrite H.
  - intros H. subst className. unfold className_of. now rewrite no_public_no_match.
  - intros Hpass.
    destruct (java_job_events w code input s) as (l & Hl & Hev).
    destruct (java_job_writes_the_java_file w code input s Hpass) as (l' & Hl' & Hin).
    rewrite Hl in Hl'. apply app_inv_head in Hl'. subst l'.
    exists l. split; [exact Hl | ]. split; [exact Hin | ].
    intros path content Hw. rewrite List.Forall_forall in Hev.
    specialize (Hev _ Hw). cbn in Hev.
    destruct Hev as [E | E]; injection E as -> ->.
    + right. split; [reflexivity | ]. split; [reflexivity | ].
      apply temp_path_not_dotted.
    + now left.
  - exact javaProgram_declares_its_class.
Qed.

Lemma java_file_is_named_after_the_public_class_witness :
  className_of "public class Foo { }" = "Foo"
  /\ exists l,
       trace (snd (executeCode world_quiet "public class Foo { }" "java"
                     EmptyString state0)) = trace state0 ++ l
       /\ In (EvWrite (join "/tmp" (className_of "public class Foo { }" +:+ ".java"))
                (javaProgram (className_of "public class Foo { }"))) l
       /\ (forall path content,
             In (EvWrite path content) l ->
             path = join "/tmp" (className_of "public class Foo { }" +:+ ".java")
             /\ content = javaProgram (className_of "public class Foo { }")
             \/ path = temp_path "/tmp" (now state0)
                /\ content = "public class Foo { }"
                /\ path <> join "/tmp" (className_of "public class Foo { }" +:+ ".java")).
Proof.
  destruct (java_file_is_named_after_the_public_class world_quiet
              "public class Foo { }" EmptyString state0) as (H1 & _ & _ & H3 & _).
  split.
  - apply (H1 EmptyString " " " " "Foo" " { }"); try reflexivity; try discriminate.
    intros [ | ? ?] c b E; discriminate E.
  - apply H3. reflexivity.
Defined.

(** C6 at a failing input. For a source that declares [Main] and prints
    5, the file [Main.java] the job writes holds the fixed program and
    not the source, which is written to [code_1000] only. *)
Lemma java_file_does_not_hold_the_source :
  className_of print5_java = "Main"
  /\ javaProgram "Main" <> print5_java
  /\ trace (snd (executeCode (world_jdk print5_java) print5_java "java"
                   EmptyString state0))
     = [EvSpawn "java" ["-version"];
        EvWrite "/tmp/code_1000" print5_java;
        EvWrite "/tmp/Main.java" (javaProgram "Main");
        EvSpawn "javac" ["/tmp/Main.java"];
        EvSpawn "java" ["-cp"; "/tmp"; "Main"];
        EvUnlink "/tmp/Main.java";
        EvUnlink "/tmp/Main.class"].
Proof.
  split; [reflexivity | ]. split; [discriminate | ].
  vm_compute. reflexivity.
Qed.

(** ** What the clean-up leaves behind *)

(** The events of [executeCode] are those of its [try] block, then
    those of its [finally] block. *)
Lemma executeCode_emits P w code language input s :
  emits P (job w code language input (tmpdir w) (temp_path (tmpdir w) (now s))) ->
  emits P (cleanup language (tmpdir w) (temp_path (tmpdir w) (now s))) ->
  extends_by P s (snd (executeCode w code language input s)).
Proof.
  intros Hj Hc. rewrite executeCode_unfold.
  refine (emits_try_finally P _ _ _ Hc (set_process None s)).
  apply emits_try_catch; [exact Hj | intros e; apply emits_throw].
Qed.

Lemma cpp_job_events w code input s :
  let filePath := temp_path (tmpdir w) (now s) in
  extends_by (fun e => e <> EvUnlink filePath) s
    (snd (executeCode w code "cpp" input s)).
Proof.
  intros filePath. apply executeCode_emits; fold filePath.
  - unfold job, prepare, switch_language.
    change (String.eqb "cpp" "java") with false.
    change (String.eqb "cpp" "cpp") with true.
    change (String.eqb "cpp" "javascript") with false.
    change (String.eqb "cpp" "python") with false. cbv iota.
    repeat emits_step; try discriminate;
      first [ now apply emits_probe
            | now apply emits_cpp_case
            | now apply emits_supervise ].
  - unfold cleanup. apply emits_bind; [now apply emits_kill_process | intros _].
    apply emits_remove_files. cbn. intros H. injection H as H.
    now apply temp_path_not_cpp in H.
Qed.

(** Once the toolchain check has passed, the submitted source is
    written to the temporary file. *)
Lemma checked_job_writes_temp w code language input s cmd args msg :
  toolchain language = Some (cmd, args, msg) ->
  check_passes (exec w cmd args None (fs s)) ->
  In (EvWrite (temp_path (tmpdir w) (now s)) code)
     (trace (snd (executeCode w code language input s))).
Proof.
  intros Ht Hpass. rewrite executeCode_unfold.
  set (filePath := temp_path (tmpdir w) (now s)).
  set (s0 := set_process None s).
  apply in_after_try_finally; [apply grows_cleanup | ].
  apply in_after_try_catch; [intros x; apply emits_throw | ].
  unfold job. apply in_after_bind.
  { intros [startTime [result | ]]; cbn [fst snd];
      [apply emits_ret | now apply emits_supervise]. }
  destruct (probe_passes w cmd args msg s0 Hpass) as (sA & HA).
  assert (Hrest : In (EvWrite filePath code)
            (trace (snd ((writeFile filePath code ;;
                          startTime <- Date_now ;;
                          returned <- switch_language w code language (tmpdir w) filePath ;;
                          ret (startTime, returned)) sA)))).
  { apply in_after_bind.
    - intros _. repeat emits_step; try exact I. apply grows_switch.
    - cbn [writeFile modify snd trace log]. apply in_or_app. right. now left. }
  unfold toolchain in Ht. unfold prepare.
  destruct (String.eqb language "java") eqn:Ej.
  - injection Ht as <- <- <-. apply String.eqb_eq in Ej. subst language.
    change (String.eqb "java" "cpp") with false. cbv iota.
    rewrite (bind_ret _ _ _ _ _ HA). exact Hrest.
  - destruct (String.eqb language "cpp") eqn:Ec; [ | discriminate].
    injection Ht as <- <- <-.
    unfold bind at 1, ret at 1.
    rewrite (bind_ret _ _ _ _ _ HA). exact Hrest.
Qed.

(** C2 at Java and C++. A job in a compiled language writes the
    submitted source to its temporary file as soon as the toolchain
    check has passed, and never removes that file: the [finally] block
    removes [Main.java] and [Main.class] for Java and the [.cpp] file
    for C++, and nothing else does. *)
Theorem compiled_job_leaves_its_temporary_file (w : World)
  (code language input : string) (s : State) cmd args msg :
  toolchain language = Some (cmd, args, msg) ->
  let filePath := temp_path (tmpdir w) (now s) in
  let r := executeCode w code language input s in
  (exists l,
     trace (snd r) = trace s ++ l
     /\ Forall (fun e => e <> EvUnlink filePath) l)
  /\ (check_passes (exec w cmd args None (fs s)) ->
      In (EvWrite filePath code) (trace (snd r))).
Proof.
  intros Ht filePath r. split.
  - subst r. unfold toolchain in Ht.
    destruct (String.eqb language "java") eqn:Ej.
    + apply String.eqb_eq in Ej. subst language.
      destruct (java_job_events w code input s) as (l & Hl & HP).
      exists l. split; [exact Hl | ].
      eapply Forall_impl; [exact HP | ].
      intros e. apply java_event_keeps_temp.
    + destruct (String.eqb language "cpp") eqn:Ec; [ | discriminate].
      apply String.eqb_eq in Ec. subst language.
      apply cpp_job_events.
  - intros Hpass. now apply (checked_job_writes_temp w code language input s cmd args msg).
Qed.

(** C2 at a failing input: a C++ job with a working toolchain. After
    [executeCode] has returned, its temporary path still holds a file
    (the binary the compiler put there in place of the source). *)
Lemma compiled_job_leaves_its_temporary_file_witness :
  In (EvWrite "/tmp/code_1000" print5_cpp)
     (trace (snd (executeCode world_slow_compile print5_cpp "cpp" EmptyString state0)))
  /\ fs (snd (executeCode world_slow_compile print5_cpp "cpp" EmptyString state0))
     !! "/tmp/code_1000" = Some "ELF".
Proof.
  split.
  - apply (compiled_job_leaves_its_temporary_file world_slow_compile print5_cpp
             "cpp" EmptyString state0 "g++" ["--version"] gpp_missing eq_refl).
    reflexivity.
  - vm_compute. reflexivity.
Defined.

(** ** Jobs at work *)

(** A JavaScript or Python job always gets to the common supervision
    code: its temporary file holds the wrapped program, its process is
    the interpreter on that file, and no time has passed. *)
Lemma script_job_reaches_supervision w code s :
  let filePath := temp_path (tmpdir w) (now s) in
  let arrive wrapped cmd :=
    set_process (Some (cmd, [filePath]))
      (log (EvSpawn cmd [filePath])
         (log (EvWrite filePath wrapped)
            (set_fs (<[filePath := wrapped]> (<[filePath := code]> (fs s)))
               (log (EvWrite filePath code)
                  (set_fs (<[filePath := code]> (fs s)) (set_process None s)))))) in
  reaches_supervision w code "javascript" s (now s) (arrive (wrappedCode code) "node")
  /\ reaches_supervision w code "python" s (now s) (arrive (pythonCode code) "python").
Proof. split; reflexivity. Qed.

(** Where Node runs the wrapped program as written, a JavaScript job
    that prints 5 returns 5, no [errors], and the metrics of the
    markers. *)
Example javascript_print5_returns_5 :
  exists complexity feedback,
    fst (executeCode world_node print5_js "javascript" EmptyString state0)
    = Ret (Executed "5" None (parseFloat "0.004") (parseFloat "0.25")
             complexity feedback).
Proof. do 2 eexists. vm_compute. reflexivity. Qed.

(** C1 at a failing input. With a development kit that prints 5 for the
    submitted program, the Java job still returns the output of the
    fixed program: the submitted source stays in the temporary file and
    is never compiled. *)
Lemma java_print5_returns_the_demo_output :
  stdout (exec (world_jdk print5_java) "java" ["-cp"; "/tmp"; "Main"] None
            (<["/tmp/Main.class" := print5_java]> ∅))
  = ["5" +:+ nl]
  /\ omap output_of
       (fst (executeCode (world_jdk print5_java) print5_java "java"
               EmptyString state0))
     = Ret (Some (trim (strip_metrics (concat_chunks demo_output))))
  /\ omap errors_of
       (fst (executeCode (world_jdk print5_java) print5_java "java"
               EmptyString state0))
     = Ret None
  /\ fs (snd (executeCode (world_jdk print5_java) print5_java "java"
                EmptyString state0))
     !! "/tmp/code_1000" = Some print5_java.
Proof. repeat split; vm_compute; reflexivity. Qed.

(** ** Output without markers *)

Lemma scan_without_markers chunks output executionTime memoryUsage :
  Forall (fun data => timeMatch (toString data) = None
                      /\ memoryMatch (toString data) = None) chunks ->
  fold_left on_stdout chunks (output, executionTime, memoryUsage)
  = (output +:+ concat_chunks chunks, executionTime, memoryUsage).
Proof.
  intros H. revert output.
  induction H as [ | data chunks [Ht Hm] _ IH]; intros output;
    cbn [fold_left concat_chunks].
  - f_equal. f_equal. clear. induction output as [ | c o IH]; [reflexivity | ].
    rewrite append_cons. now rewrite <- IH.
  - unfold on_stdout at 2. cbv zeta. rewrite Ht, Hm, IH. f_equal. f_equal.
    clear. induction output as [ | c o IH]; [reflexivity | ].
    rewrite !append_cons. now rewrite IH.
Qed.

(** The part of C7 that holds. When no chunk of a run that ends well
    holds a marker, [executionTime] is the time from [startTime] to
    the close of the child, in seconds, and [memoryUsage] is 0. A run
    ends well when the child closes with code 0 before the deadline
    and the write of the input, if there is one, does not fail. *)
Lemma unmarked_run_defaults (w : World) (code language input : string)
  (s : State) startTime s1 h t :
  reaches_supervision w code language s startTime s1 ->
  process s1 = Some h ->
  let p := awaited w input s1 h in
  term p = Close t (Some 0) -> (t < timeout)%N ->
  write_fails input p = None ->
  Forall (fun data => timeMatch (toString data) = None
                      /\ memoryMatch (toString data) = None) (stdout p) ->
  omap executionTime_of (fst (executeCode w code language input s))
  = Ret (seconds_of_ms (now s1 + Z.of_N t - startTime))
  /\ omap memoryUsage_of (fst (executeCode w code language input s)) = Ret zero.
Proof.
  intros Hreach Hproc p Hterm Hlt Hw Hno.
  pose proof (executeCode_outcome w code language input s) as H.
  cbv zeta in H. rewrite (job_supervised _ _ _ input _ _ _ Hreach) in H.
  rewrite (supervise_unfold _ _ _ _ _ _ _ Hproc) in H. cbv zeta in H.
  fold p in H. rewrite Hw, (race_in_time _ _ _ _ _ _ Hterm Hlt) in H.
  rewrite (scan_without_markers _ _ _ _ Hno) in H.
  cbn [code_is_zero fst snd truthy zero Qeq_bool] in H.
  rewrite H. cbn [fst omap executionTime_of memoryUsage_of set_now now set_fs].
  split; [ | reflexivity].
  now destruct (is_empty input).
Qed.

(** ** Reassembly of the output stream *)

(** The handler appends every chunk, whatever it holds. *)
Lemma scan_output chunks output executionTime memoryUsage :
  fst (fst (fold_left on_stdout chunks (output, executionTime, memoryUsage)))
  = output +:+ concat_chunks chunks.
Proof.
  revert output executionTime memoryUsage.
  induction chunks as [ | data chunks IH]; intros output executionTime memoryUsage.
  - cbn. now rewrite append_empty_r.
  - cbn [fold_left concat_chunks]. unfold on_stdout at 2. cbv zeta.
    rewrite IH. apply append_assoc.
Qed.

(** Chunks that hold whole characters only are collected as they are. *)
Lemma concat_whole_chunks chunks :
  Forall (fun data => toString data = data) chunks ->
  concat_chunks chunks = fold_right String.append EmptyString chunks.
Proof.
  induction 1 as [ | data chunks Hd _ IH]; [reflexivity | ].
  cbn [concat_chunks fold_right]. now rewrite Hd, IH.
Qed.

(** The [output] of a run that ends well is the text collected from
    standard output, every chunk decoded on its own, without the
    metrics block and trimmed; the markers found on the way leave no
    mark on it. When no chunk boundary cuts a character, so that every
    chunk decodes to itself, it is a function of the bytes the child
    wrote, however they were cut into chunks. *)
Theorem output_is_the_reassembled_stream (w : World)
  (code language input : string) (s : State) startTime s1 h t :
  reaches_supervision w code language s startTime s1 ->
  process s1 = Some h ->
  let p := awaited w input s1 h in
  term p = Close t (Some 0) -> (t < timeout)%N ->
  write_fails input p = None ->
  let output := omap output_of (fst (executeCode w code language input s)) in
  output = Ret (Some (trim (strip_metrics (concat_chunks (stdout p)))))
  /\ (Forall (fun data => toString data = data) (stdout p) ->
      output
      = Ret (Some (trim (strip_metrics
                          (fold_right String.append EmptyString (stdout p)))))).
Proof.
  intros Hreach Hproc p Hterm Hlt Hw output. subst output.
  pose proof (executeCode_outcome w code language input s) as H.
  cbv zeta in H. rewrite (job_supervised _ _ _ input _ _ _ Hreach) in H.
  rewrite (supervise_unfold _ _ _ _ _ _ _ Hproc) in H. cbv zeta in H.
  fold p in H. rewrite Hw, (race_in_time _ _ _ _ _ _ Hterm Hlt) in H.
  cbn [code_is_zero fst snd] in H. rewrite H. cbn [fst omap output_of].
  rewrite scan_output. change (EmptyString +:+ ?x) with x.
  split; [reflexivity | ]. intros Hwhole. now rewrite concat_whole_chunks.
Qed.

Lemma output_is_the_reassembled_stream_witness :
  omap output_of
    (fst (executeCode world_split_marker print5_js "javascript" EmptyString state0))
  = Ret (Some (trim (strip_metrics
                       ("5" +:+ nl +:+ "Performance Metrics:" +:+ nl
                        +:+ "Execution Time: 1.500 s" +:+ nl
                        +:+ "Memory Usage: 2.00 MB" +:+ nl)))).
Proof.
  refine (proj2 (output_is_the_reassembled_stream world_split_marker print5_js
                   "javascript" EmptyString state0 _ _ _ 120%N
                   eq_refl eq_refl eq_refl eq_refl eq_refl) _).
  repeat constructor.
Defined.

(** ** Jobs of the scripted languages *)

Lemma remove_makes_absent path s :
  fs (snd (remove_if_present path s)) !! path = None.
Proof.
  destruct (fs s !! path) eqn:E.
  - erewrite remove_present by eauto. cbn. apply lookup_delete_eq.
  - now rewrite remove_absent.
Qed.

(** For a language that is neither Java nor C++, the [finally] block
    leaves no file at the temporary path. *)
Lemma cleanup_removes_temp language tempDir filePath s :
  String.eqb language "java" = false -> String.eqb language "cpp" = false ->
  fs (snd (cleanup language tempDir filePath s)) !! filePath = None.
Proof.
  intros Hj Hc. unfold cleanup.
  rewrite (bind_ret _ _ _ _ _ (kill_process_eval s)).
  unfold remove_files, try_catch. rewrite Hj, Hc.
  destruct (remove_returns filePath
              (match process s with Some h => log (EvKill h) s | None => s end))
    as (s2 & H2).
  pose proof (remove_makes_absent filePath
                (match process s with Some h => log (EvKill h) s | None => s end)) as K.
  rewrite H2 in *. exact K.
Qed.

(** Whenever [executeCode] returns or throws for a language other than
    Java and C++ (JavaScript, Python, or a tag it does not support),
    no file is left at the temporary path of the job, whatever the
    child did. *)
Theorem temporary_file_is_removed (w : World)
  (code language input : string) (s : State) :
  String.eqb language "java" = false -> String.eqb language "cpp" = false ->
  let r := executeCode w code language input s in
  fst r <> Hang -> fst r <> Crash ->
  fs (snd r) !! temp_path (tmpdir w) (now s) = None.
Proof.
  intros Hj Hc r Hh Hcr. subst r.
  pose proof (executeCode_outcome w code language input s) as H. cbv zeta in H.
  destruct (fst (job w code language input (tmpdir w)
                   (temp_path (tmpdir w) (now s)) (set_process None s))) eqn:E;
    rewrite H in *; cbn [fst snd] in *.
  - now apply cleanup_removes_temp.
  - now apply cleanup_removes_temp.
  - rewrite E in Hh. contradiction.
  - rewrite E in Hcr. contradiction.
Qed.

Lemma temporary_file_is_removed_witness :
  fs (snd (executeCode world_stuck "while (true) {}" "javascript" EmptyString state0))
  !! "/tmp/code_1000" = None.
Proof.
  apply (temporary_file_is_removed world_stuck "while (true) {}" "javascript"
           EmptyString state0 eq_refl eq_refl); vm_compute; discriminate.
Defined.

(** The race always ends, at most [timeout] milliseconds after it
    began, and brings the server down only when the child could not
    be launched or the write of the input fails. *)
Lemma expire_is_bounded h p broken s :
  fst (expire h p broken s) <> Hang
  /\ now s <= now (snd (expire h p broken s)) <= now s + 10000
  /\ (fst (expire h p broken s) = Crash <-> broken <> None).
Proof.
  unfold expire. destruct broken as [fails_at | ].
  - unfold bind, settle, modify, crash. cbn [fst snd now set_now set_fs].
    unfold timeout.
    split; [discriminate | split; [lia | split; [discriminate | reflexivity]]].
  - cbn. split; [discriminate | split; [lia | split; [discriminate | congruence]]].
Qed.

Lemma race_is_bounded h p errors broken s :
  fst (race h p errors broken s) <> Hang
  /\ now s <= now (snd (race h p errors broken s)) <= now s + 10000
  /\ (fst (race h p errors broken s) = Crash
      <-> term p = SpawnError \/ broken <> None).
Proof.
  pose proof (expire_is_bounded h p broken s) as (E1 & E2 & E3).
  unfold race. destruct (term p) as [ | t exit | ] eqn:Ht.
  - cbn. repeat split; (discriminate || lia || auto).
  - destruct (t <? timeout)%N eqn:Hlt.
    + apply N.ltb_lt in Hlt. unfold timeout in Hlt.
      unfold bind, settle, modify.
      destruct broken as [fails_at | ]; [ | destruct (code_is_zero exit)];
        cbn [fst snd now set_now set_fs crash ret throw];
        (split; [discriminate | split; [lia | split]]);
        first [ intros _; right; discriminate | reflexivity | discriminate
              | intros [? | ?]; congruence ].
    + split; [exact E1 | split; [exact E2 | ]]. rewrite E3.
      split; [now right | intros [? | ?]; [discriminate | assumption]].
  - split; [exact E1 | split; [exact E2 | ]]. rewrite E3.
    split; [now right | intros [? | ?]; [discriminate | assumption]].
Qed.

(** A JavaScript or Python job never hangs: [executeCode] is over at
    most 10 seconds after it began, because nothing is awaited before
    the race and the [finally] block takes no time. *)
Theorem script_job_ends_within_the_deadline (w : World)
  (code language input : string) (s : State) :
  language = "javascript" \/ language = "python" ->
  let r := executeCode w code language input s in
  fst r <> Hang /\ now s <= now (snd r) <= now s + 10000.
Proof.
  intros Hl r. subst r.
  destruct (script_job_reaches_supervision w code s) as (Hjs & Hpy).
  cbv zeta in Hjs, Hpy.
  pose proof (executeCode_outcome w code language input s) as H. cbv zeta in H.
  assert (Hsup : exists s1 h,
            job w code language input (tmpdir w) (temp_path (tmpdir w) (now s))
              (set_process None s)
            = supervise w code language input (now s) s1
            /\ process s1 = Some h /\ now s1 = now s).
  { destruct Hl as [-> | ->].
    - eexists _, _. split; [exact (job_supervised _ _ _ input _ _ _ Hjs) | ].
      split; reflexivity.
    - eexists _, _. split; [exact (job_supervised _ _ _ input _ _ _ Hpy) | ].
      split; reflexivity. }
  destruct Hsup as (s1 & h & Hjob & Hproc & Hnow).
  rewrite Hjob in H. rewrite (supervise_unfold _ _ _ _ _ _ _ Hproc) in H.
  cbv zeta in H.
  set (p := awaited w input s1 h) in *.
  set (s2 := if is_empty input then s1 else log (EvStdin input) s1) in *.
  assert (Hnow2 : now s2 = now s) by (subst s2; now destruct (is_empty input)).
  destruct (race_is_bounded h p (concat_chunks (stderr p)) (write_fails input p) s2)
    as (Hh & Hb & _).
  rewrite Hnow2 in Hb.
  destruct (race h p (concat_chunks (stderr p)) (write_fails input p) s2)
    as [[[] | e | | ] s3];
    cbn [fst snd] in *; rewrite H; cbn [fst snd];
    rewrite ?cleanup_keeps_now; (split; [discriminate || congruence | exact Hb]).
Qed.

Lemma script_job_ends_within_the_deadline_witness :
  fst (executeCode world_stuck "while True: pass" "python" EmptyString state0) <> Hang
  /\ 1000 <= now (snd (executeCode world_stuck "while True: pass" "python"
                         EmptyString state0)) <= 11000.
Proof.
  exact (script_job_ends_within_the_deadline world_stuck "while True: pass"
           "python" EmptyString state0 (or_intror eq_refl)).
Defined.

(** ** What [executeCode] throws *)

Lemma throws_ret {A : Type} Q (a : A) : throws Q (ret a).
Proof. intros s e H. discriminate H. Qed.

Lemma throws_hang {A : Type} Q : throws Q (@hang A).
Proof. intros s e H. discriminate H. Qed.

Lemma throws_crash {A : Type} Q : throws Q (@crash A).
Proof. intros s e H. discriminate H. Qed.

Lemma throws_throw {A : Type} (Q : string -> Prop) e : Q e -> throws Q (@throw A e).
Proof. intros He s e' H. injection H as <-. exact He. Qed.

Lemma throws_get {A : Type} Q (f : State -> A) : throws Q (get f).
Proof. intros s e H. discriminate H. Qed.

Lemma throws_modify Q f : throws Q (modify f).
Proof. intros s e H. discriminate H. Qed.

Lemma throws_spawn Q cmd args : throws Q (spawn cmd args).
Proof. intros s e H. discriminate H. Qed.

Lemma throws_bind {A B : Type} Q (m : M A) (k : A -> M B) :
  throws Q m -> (forall a, throws Q (k a)) -> throws Q (bind m k).
Proof.
  intros Hm Hk s e. unfold bind. specialize (Hm s).
  destruct (m s) as [[a | e' | | ] s1]; cbn [fst] in *; intros H; try discriminate.
  - exact (Hk a s1 e H).
  - injection H as <-. now apply Hm.
Qed.

Lemma throws_anything {A : Type} (m : M A) : throws (fun _ => True) m.
Proof. intros s e _. exact I. Qed.

(** What gets out of a [try] is what its handler throws, on the errors
    that reach it. *)
Lemma throws_try_catch {A : Type} (P Q : string -> Prop) (m : M A)
  (h : string -> M A) :
  throws P m -> (forall e, P e -> throws Q (h e)) -> throws Q (try_catch m h).
Proof.
  intros Hm Hh s e. unfold try_catch. specialize (Hm s).
  destruct (m s) as [[a | e' | | ] s1]; cbn [fst] in *; intros H; try discriminate.
  exact (Hh e' (Hm e' eq_refl) s1 e H).
Qed.

Lemma throws_try_finally {A : Type} Q (m : M A) (fin : M unit) :
  throws Q m -> throws Q fin -> throws Q (try_finally m fin).
Proof.
  intros Hm Hf s e. unfold try_finally. specialize (Hm s).
  destruct (m s) as [[a | e' | | ] s1]; cbn [fst] in *; intros H; try discriminate.
  - apply (throws_bind Q fin (fun _ => ret a) Hf (fun _ => throws_ret Q a) s1 e H).
  - unfold bind in H. specialize (Hf s1).
    destruct (fin s1) as [[[] | e2 | | ] s2]; cbn [fst] in *; try discriminate.
    + injection H as <-. now apply Hm.
    + injection H as <-. now apply Hf.
Qed.

(** Takes apart a computation to see what it throws. *)
Ltac throws_step :=
  lazymatch goal with
  | |- throws _ (bind _ _) => apply throws_bind; [ | intros ? ]
  | |- throws ?Q (try_catch _ (fun error => throw error)) =>
      apply (throws_try_catch Q Q);
      [ | let H := fresh in intros ? H; apply throws_throw; exact H ]
  | |- throws ?Q (try_catch _ _) =>
      apply (throws_try_catch (fun _ => True) Q);
      [ apply throws_anything | intros ? _ ]
  | |- throws _ (try_finally _ _) => apply throws_try_finally
  | |- throws _ (if ?b then _ else _) => destruct b
  | |- throws _ (match ?x with _ => _ end) => destruct x
  | |- throws _ (throw _) => apply throws_throw
  | |- throws _ (ret _) => apply throws_ret
  | |- throws _ hang => apply throws_hang
  | |- throws _ crash => apply throws_crash
  | |- throws _ (get _) => apply throws_get
  | |- throws _ Date_now => apply throws_get
  | |- throws _ (child _ _ _) => apply throws_get
  | |- throws _ (modify _) => apply throws_modify
  | |- throws _ (writeFile _ _) => apply throws_modify
  | |- throws _ (settle _ _) => apply throws_modify
  | |- throws _ (kill _) => apply throws_modify
  | |- throws _ (spawn _ _) => apply throws_spawn
  end.

Lemma throws_probe w cmd args msg :
  nonempty msg -> throws nonempty (probe w cmd args msg).
Proof. intros H. unfold probe. repeat throws_step. exact H. Qed.

Lemma throws_await_close w h failure :
  nonempty failure -> throws nonempty (await_close w h failure).
Proof.
  intros H. unfold await_close. repeat throws_step.
  destruct failure; [discriminate H | reflexivity].
Qed.

(** The Java case catches whatever its stages throw. *)
Lemma java_case_never_throws Q w code language tempDir :
  throws Q (java_case w code language tempDir).
Proof. unfold java_case. repeat throws_step. Qed.

Lemma throws_race h p errors broken :
  throws nonempty (race h p errors broken).
Proof.
  unfold race, expire. repeat throws_step; try reflexivity.
  unfold nonempty. destruct (is_empty errors) eqn:E; [reflexivity | exact E].
Qed.

Lemma throws_supervise w code language input startTime :
  throws nonempty (supervise w code language input startTime).
Proof.
  unfold supervise. repeat throws_step; try reflexivity.
  apply throws_race.
Qed.

Lemma throws_remove_if_present Q path : throws Q (remove_if_present path).
Proof. unfold remove_if_present. repeat throws_step. Qed.

Lemma cleanup_never_throws Q language tempDir filePath :
  throws Q (cleanup language tempDir filePath).
Proof.
  unfold cleanup, kill_process, remove_files. repeat throws_step.
Qed.

Lemma throws_job w code language input tempDir filePath :
  throws nonempty (job w code language input tempDir filePath).
Proof.
  unfold job, prepare, switch_language, cpp_case.
  repeat throws_step; try reflexivity;
    first [ now apply throws_probe
          | apply java_case_never_throws
          | now apply throws_await_close
          | apply throws_supervise
          | idtac ].
Qed.

(** Whatever [executeCode] throws has a message. *)
Lemma executeCode_throws_a_message w code language input :
  throws nonempty (executeCode w code language input).
Proof.
  intros s e. rewrite executeCode_unfold. revert e.
  apply (throws_try_finally nonempty).
  - apply (throws_try_catch nonempty nonempty).
    + apply throws_job.
    + intros e He. now apply throws_throw.
  - apply cleanup_never_throws.
Qed.

(** ** The replies of the execute route *)

(** The handler of [/api/execute] never throws. A reply it sends is
    either the 200 that carries what [executeCode] returned for the
    code, the language and the input of the request, or a 400 or 500
    whose [errors] is a message that is not empty, whose [output] is
    empty and whose [executionTime] and [memoryUsage] are 0. The 400
    answers a request whose code or language is missing or empty; the
    500 carries the message [executeCode] threw for the request. When
    no reply is sent, [executeCode] has not come back for the
    request. *)
Theorem execute_route_replies_are_well_formed (w : World) (req : Request) (s : State) :
  let ran outcome :=
    exists code language,
      req_code req = Some code /\ req_language req = Some language
      /\ is_empty code = false /\ is_empty language = false
      /\ fst (executeCode w code language (input_of req) s) = outcome in
  match fst (post_execute w req s) with
  | Throw _ => False
  | Hang => ran Hang
  | Crash => ran Crash
  | Ret reply =>
      (status reply = 200
       /\ body_aiFeedback reply = aiFeedback_of (body_result reply)
       /\ ran (Ret (body_result reply)))
      \/ (exists msg,
            errors_of (body_result reply) = Some msg
            /\ nonempty msg
            /\ output_of (body_result reply) = Some EmptyString
            /\ executionTime_of (body_result reply) = zero
            /\ memoryUsage_of (body_result reply) = zero
            /\ (status reply = 400
                /\ (blank (req_code req) \/ blank (req_language req))
                \/ status reply = 500 /\ ran (Throw msg)))
  end.
Proof.
  intros ran.
  assert (Hbad : blank (req_code req) \/ blank (req_language req) ->
            forall reply,
            reply = {| status := 400;
                       body_result :=
                         Failed EmptyString "Code and language are required" zero zero
                           (unknown_complexity "Invalid input parameters");
                       body_aiFeedback :=
                         Some {| suggestions := [];
                                 overallQuality := 0;
                                 summary := "Invalid input parameters" |} |} ->
            exists msg,
              errors_of (body_result reply) = Some msg
              /\ nonempty msg
              /\ output_of (body_result reply) = Some EmptyString
              /\ executionTime_of (body_result reply) = zero
              /\ memoryUsage_of (body_result reply) = zero
              /\ (status reply = 400
                  /\ (blank (req_code req) \/ blank (req_language req))
                  \/ status reply = 500 /\ ran (Throw msg))).
  { intros Hb reply ->. eexists. repeat split. left. split; [reflexivity | exact Hb]. }
  unfold post_execute.
  destruct (req_code req) as [code | ] eqn:Ec;
    [ | right; apply Hbad; [left; now left | reflexivity]].
  destruct (req_language req) as [language | ] eqn:El;
    [ | right; apply Hbad; [right; now left | reflexivity]].
  destruct (is_empty code) eqn:Hc.
  { right. apply Hbad; [ | reflexivity]. left. right. now destruct code. }
  destruct (is_empty language) eqn:Hl.
  { right. apply Hbad; [ | reflexivity]. right. right. now destruct language. }
  cbn [orb]. fold (input_of req).
  assert (Hran : forall outcome,
            fst (executeCode w code language (input_of req) s) = outcome ->
            ran outcome).
  { intros outcome E. exists code, language. now repeat split. }
  unfold try_catch, bind.
  pose proof (executeCode_throws_a_message w code language (input_of req) s) as Ht.
  cbv beta in Ht.
  destruct (executeCode w code language (input_of req) s) as [[result | e | | ] s1] eqn:E;
    cbn [fst ret]; try (now apply Hran).
  - left. split; [reflexivity | ]. split; [reflexivity | ]. now apply Hran.
  - right. exists e.
    cbn [body_result status errors_of output_of executionTime_of memoryUsage_of].
    repeat split.
    + now apply Ht.
    + right. split; [reflexivity | ]. now apply Hran.
Qed.

(** ** Failures of a Java job *)

Lemma probe_eval w cmd args msg s t :
  term (exec w cmd args None (fs s)) = Close t (Some 0) ->
  probe w cmd args msg s
  = (Ret tt,
     set_now (now s + Z.of_N t)
       (set_fs (fs_after (exec w cmd args None (fs s))) (log (EvSpawn cmd args) s))).
Proof.
  intros H. unfold probe, try_catch, bind, spawn, child, get. cbn.
  now rewrite H.
Qed.

Lemma check_passes_closes p :
  check_passes p -> exists t, term p = Close t (Some 0).
Proof.
  unfold check_passes. destruct (term p) as [ | t [[ | ? | ?] | ] | ]; try contradiction;
    try discriminate. intros _. now exists t.
Qed.

Lemma try_finally_returns {A : Type} (m : M A) (fin : M unit) s a s1 :
  m s = (Ret a, s1) ->
  (forall s1, exists s2, fin s1 = (Ret tt, s2)) ->
  exists s2, try_finally m fin s = (Ret a, s2).
Proof.
  intros Hm Hf. unfold try_finally. rewrite Hm.
  destruct (Hf s1) as (s2 & H2). exists s2. unfold bind. now rewrite H2.
Qed.

(** The inner [finally] of the Java case always runs to its end. *)
Lemma java_finally_returns javaFile javaClass s :
  exists s',
    try_catch
      (fileExists <- file_exists javaFile ;;
       classExists <- file_exists javaClass ;;
       (if fileExists : bool then unlink javaFile else ret tt) ;;
       (if classExists : bool then unlink javaClass else ret tt))
      (fun _ => ret tt) s
    = (Ret tt, s').
Proof.
  unfold try_catch, bind, file_exists, try_catch, bind, access, unlink, ret.
  destruct (fs s !! javaFile) eqn:Ef; destruct (fs s !! javaClass) eqn:Ec;
    cbn; rewrite ?Ef, ?Ec; cbn;
    try (eexists; reflexivity).
  destruct (delete javaFile (fs s) !! javaClass); eexists; reflexivity.
Qed.

(** Once its toolchain check has passed, a Java job never throws: a
    failure of the compiler or of the run comes back as a result whose
    [error] key holds the message and whose [output] is [null]. The
    route therefore answers 200 without an [errors] key; at a failed
    compile the message is ["Compilation failed: "] followed by what
    the compiler wrote to standard error. *)
Theorem java_failure_is_returned_not_thrown (w : World) (code input : string)
  (s : State) :
  let tempDir := tmpdir w in
  let filePath := temp_path tempDir (now s) in
  let className := className_of code in
  let javaFile := join tempDir (className +:+ ".java") in
  let check := exec w "java" ["-version"] None (fs s) in
  let javac :=
    exec w "javac" [javaFile] None
      (<[javaFile := javaProgram className]> (<[filePath := code]> (fs_after check))) in
  let r := executeCode w code "java" input s in
  check_passes check ->
  (forall msg, fst r <> Throw msg)
  /\ (forall t exit,
        term javac = Close t exit -> code_is_zero exit = false ->
        fst r
        = Ret (JavaExecuted None
                 (Some ("Compilation failed: " +:+ concat_chunks (stderr javac)))
                 zero zero
                 (analyzeComplexity code "java")
                 (generateAISuggestions code "java"))
        /\ (is_empty code = false ->
            exists reply,
              fst (post_execute w (request code "java" input) s) = Ret reply
              /\ status reply = 200
              /\ errors_of (body_result reply) = None
              /\ output_of (body_result reply) = None)).
Proof.
  intros tempDir filePath className javaFile check javac r Hpass. subst r.
  destruct (check_passes_closes _ Hpass) as (tc & Htc).
  pose proof (executeCode_outcome w code "java" input s) as H. cbv zeta in H.
  fold tempDir filePath in H. rewrite java_job in H.
  set (s0 := set_process None s) in *.
  pose proof (probe_eval w "java" ["-version"] java_missing s0 tc Htc) as Hp.
  change (fs s0) with (fs s) in Hp. fold check in Hp.
  rewrite (bind_ret _ _ _ _ _ Hp) in H.
  set (sA := set_now _ _) in H.
  set (sB := log (EvWrite filePath code)
               (set_fs (<[filePath := code]> (fs_after check)) sA)).
  change ((writeFile filePath code ;; java_case w code "java" tempDir) sA)
    with (java_case w code "java" tempDir sB) in H.
  split.
  - intros msg Hm.
    pose proof (java_case_never_throws (fun _ => False) w code "java" tempDir sB) as Hn.
    destruct (java_case w code "java" tempDir sB) as [[a | e | | ] sC]; cbn [fst snd] in *;
      rewrite H in Hm; cbn [fst] in Hm; try discriminate.
    exact (Hn e eq_refl).
  - intros t exit Hterm Hexit.
    assert (Hcase : exists sC,
              java_case w code "java" tempDir sB
              = (Ret (JavaExecuted None
                        (Some ("Compilation failed: " +:+ concat_chunks (stderr javac)))
                        zero zero
                        (analyzeComplexity code "java")
                        (generateAISuggestions code "java")), sC)).
    { unfold java_case.
      eapply try_finally_returns; [ | intros sD; apply java_finally_returns].
      unfold try_catch, bind at 1, writeFile, modify.
      unfold bind at 1, spawn. unfold bind at 1, await_close, bind at 1, child, get.
      subst sB. cbn [fst snd fs log set_fs]. fold className javaFile javac.
      rewrite Hterm. unfold bind, settle, modify. rewrite Hexit. reflexivity. }
    destruct Hcase as (sC & Hcase). rewrite Hcase in H. cbn [fst snd] in H.
    split; [now rewrite H | ].
    intros Hc. rewrite post_execute_outcome by (assumption || reflexivity).
    rewrite H. eexists. repeat split.
Qed.

Lemma java_failure_is_returned_not_thrown_witness :
  fst (executeCode world_rejecting print5_java "java" EmptyString state0)
  = Ret (JavaExecuted None (Some "Compilation failed: error: expected ';'")
           zero zero
           (analyzeComplexity print5_java "java")
           (generateAISuggestions print5_java "java")).
Proof.
  destruct (java_failure_is_returned_not_thrown world_rejecting print5_java
              EmptyString state0 eq_refl) as (_ & H).
  destruct (H 300%N (Some 1) eq_refl eq_refl) as (H1 & _).
  exact H1.
Defined.

(** ** A runtime without its compiler *)

(** C8, where it fails. The check of the Java toolchain tests [java],
    and the first thing the job needs is [javac], whose error event
    nothing listens to. On a machine with the runtime and without the
    compiler the check passes, the temporary file and the Java file
    are written, and the launch of the compiler ends the server: no
    "not installed" message is sent, no reply at all, and both files
    stay. *)
Theorem runtime_without_compiler_ends_the_server (w : World)
  (code input : string) (s : State) :
  let tempDir := tmpdir w in
  let filePath := temp_path tempDir (now s) in
  let className := className_of code in
  let javaFile := join tempDir (className +:+ ".java") in
  let check := exec w "java" ["-version"] None (fs s) in
  let javac :=
    exec w "javac" [javaFile] None
      (<[javaFile := javaProgram className]> (<[filePath := code]> (fs_after check))) in
  let r := executeCode w code "java" input s in
  check_passes check ->
  term javac = SpawnError ->
  fst r = Crash
  /\ fs (snd r) !! filePath = Some code
  /\ fs (snd r) !! javaFile = Some (javaProgram className)
  /\ trace (snd r)
     = trace s
       ++ [EvSpawn "java" ["-version"]; EvWrite filePath code;
           EvWrite javaFile (javaProgram className); EvSpawn "javac" [javaFile]]
  /\ (is_empty code = false ->
      fst (post_execute w (request code "java" input) s) = Crash).
Proof.
  intros tempDir filePath className javaFile check javac r Hpass Hterm. subst r.
  destruct (check_passes_closes _ Hpass) as (tc & Htc).
  pose proof (executeCode_outcome w code "java" input s) as H. cbv zeta in H.
  fold tempDir filePath in H. rewrite java_job in H.
  set (s0 := set_process None s) in *.
  pose proof (probe_eval w "java" ["-version"] java_missing s0 tc Htc) as Hp.
  change (fs s0) with (fs s) in Hp. fold check in Hp.
  rewrite (bind_ret _ _ _ _ _ Hp) in H.
  set (sA := set_now _ _) in H.
  set (sB := log (EvWrite filePath code)
               (set_fs (<[filePath := code]> (fs_after check)) sA)).
  change ((writeFile filePath code ;; java_case w code "java" tempDir) sA)
    with (java_case w code "java" tempDir sB) in H.
  set (sC := log (EvSpawn "javac" [javaFile])
               (log (EvWrite javaFile (javaProgram className))
                  (set_fs (<[javaFile := javaProgram className]> (fs sB)) sB))).
  assert (Hcase : java_case w code "java" tempDir sB = (Crash, sC)).
  { unfold java_case, try_finally, try_catch, bind at 1, writeFile, modify.
    unfold bind at 1, spawn. unfold bind at 1, await_close, bind at 1, child, get.
    fold className javaFile. cbn [fst snd fs log set_fs].
    subst sB. cbn [fst snd fs log set_fs]. fold javac.
    now rewrite Hterm. }
  rewrite Hcase in H. cbn [fst] in H.
  assert (Hne : javaFile <> filePath).
  { intros E. symmetry in E. revert E. apply temp_path_not_dotted. }
  rewrite H. cbn [fst snd]. split; [reflexivity | ].
  subst sC sB. cbn [fs log set_fs]. split; [ | split; [ | split]].
  - rewrite lookup_insert_ne by exact Hne. apply lookup_insert_eq.
  - apply lookup_insert_eq.
  - subst sA. cbn [trace log set_fs set_now]. change (trace s0) with (trace s).
    now rewrite <- !app_assoc.
  - intros Hc. rewrite post_execute_outcome by (assumption || reflexivity).
    now rewrite H.
Qed.

Lemma runtime_without_compiler_ends_the_server_witness :
  fst (executeCode world_runtime_only print5_java "java" EmptyString state0) = Crash
  /\ fs (snd (executeCode world_runtime_only print5_java "java" EmptyString state0))
     !! "/tmp/code_1000" = Some print5_java
  /\ fs (snd (executeCode world_runtime_only print5_java "java" EmptyString state0))
     !! "/tmp/Main.java" = Some (javaProgram "Main").
Proof.
  destruct (runtime_without_compiler_ends_the_server world_runtime_only
              print5_java EmptyString state0 eq_refl eq_refl)
    as (H1 & H2 & H3 & _).
  split; [exact H1 | ]. split; [exact H2 | exact H3].
Defined.

(** ** Failure of the C++ compile stage *)

(** When the C++ compiler closes with a non-zero code, [executeCode]
    throws ["C++ compilation failed: "] followed by what the compiler
    wrote to standard error, and the route replies with that message.
    The binary is never launched: the job has checked the toolchain,
    written its two files and spawned the compiler, and after that it
    only removes the [.cpp] file. *)
Theorem cpp_compile_failure_stops_the_job (w : World) (code input : string)
  (s : State) t exit :
  let filePath := temp_path (tmpdir w) (now s) in
  let cppFile := filePath +:+ ".cpp" in
  let check := exec w "g++" ["--version"] None (fs s) in
  let flags := [cppFile; "-o"; filePath; "-std=c++11"; "-Wall"] in
  let compile :=
    exec w "g++" flags None
      (<[cppFile := cppCode code]> (<[filePath := code]> (fs_after check))) in
  let msg := "C++ compilation failed: " +:+ concat_chunks (stderr compile) in
  let r := executeCode w code "cpp" input s in
  check_passes check ->
  term compile = Close t exit -> code_is_zero exit = false ->
  fst r = Throw msg
  /\ (exists l,
        trace (snd r)
        = trace s
          ++ [EvSpawn "g++" ["--version"]; EvWrite filePath code;
              EvWrite cppFile (cppCode code); EvSpawn "g++" flags]
          ++ l
        /\ Forall (fun e => e = EvUnlink cppFile) l)
  /\ (is_empty code = false ->
      fst (post_execute w (request code "cpp" input) s) = Ret (failure_reply msg)).
Proof.
  intros filePath cppFile check flags compile msg r Hpass Hterm Hexit. subst r.
  destruct (check_passes_closes _ Hpass) as (tc & Htc).
  set (s0 := set_process None s).
  pose proof (probe_eval w "g++" ["--version"] gpp_missing s0 tc Htc) as Hp.
  change (fs s0) with (fs s) in Hp. fold check in Hp.
  set (sA := set_now _ _) in Hp.
  assert (Hjob : exists sX,
            job w code "cpp" input (tmpdir w) filePath s0 = (Throw msg, sX)
            /\ process sX = None
            /\ trace sX
               = trace s
                 ++ [EvSpawn "g++" ["--version"]; EvWrite filePath code;
                     EvWrite cppFile (cppCode code); EvSpawn "g++" flags]).
  { unfold job, prepare, switch_language.
    change (String.eqb "cpp" "java") with false.
    change (String.eqb "cpp" "cpp") with true.
    change (String.eqb "cpp" "javascript") with false.
    change (String.eqb "cpp" "python") with false. cbv iota.
    unfold bind at 1. unfold bind at 1, ret at 1.
    rewrite (bind_ret _ _ _ _ _ Hp).
    unfold bind at 1, writeFile at 1, modify.
    unfold bind at 1, Date_now, get.
    unfold bind at 1. unfold bind at 1, cpp_case.
    unfold bind at 1, writeFile, modify.
    unfold bind at 1, spawn. unfold bind at 1, await_close, bind at 1, child, get.
    subst sA. cbn [fst snd fs log set_fs set_now]. fold cppFile flags compile.
    rewrite Hterm. unfold bind, settle, modify. rewrite Hexit.
    eexists. split; [reflexivity | ]. split; [reflexivity | ].
    cbn [trace log set_fs set_now set_process]. change (trace s0) with (trace s).
    rewrite <- !app_assoc. reflexivity. }
  destruct Hjob as (sX & Hjob & Hproc & Htrace).
  pose proof (executeCode_outcome w code "cpp" input s) as H. cbv zeta in H.
  fold filePath s0 in H. rewrite Hjob in H. cbn [fst snd] in H.
  rewrite (cleanup_without_process _ _ _ _ Hproc) in H.
  assert (Hrm : emits (fun e => e = EvUnlink cppFile)
                  (remove_files "cpp" (tmpdir w) filePath)).
  { now apply emits_remove_files. }
  destruct (Hrm sX) as (l & Hl & HP).
  rewrite H. cbn [fst snd]. split; [reflexivity | ]. split.
  - exists l. split; [ | exact HP]. rewrite Hl, Htrace.
    rewrite <- !app_assoc. reflexivity.
  - intros Hc. rewrite post_execute_outcome by (assumption || reflexivity).
    now rewrite H.
Qed.

Lemma cpp_compile_failure_stops_the_job_witness :
  fst (executeCode world_rejecting print5_cpp "cpp" EmptyString state0)
  = Throw "C++ compilation failed: error: expected ';'".
Proof.
  exact (proj1 (cpp_compile_failure_stops_the_job world_rejecting print5_cpp
                  EmptyString state0 300%N (Some 1) eq_refl eq_refl eq_refl)).
Defined.

(** ** The files a Java job removes *)

Lemma only_removes_refl s : only_removes s s.
Proof. intros path H. exact H. Qed.

Lemma only_removes_trans a b c :
  only_removes a b -> only_removes b c -> only_removes a c.
Proof. intros H1 H2 path H. apply H2, H1, H. Qed.

Lemma only_removes_same_fs {A : Type} (m : M A) :
  (forall s, fs (snd (m s)) = fs s) -> steps only_removes m.
Proof. intros H s path Hp. now rewrite H. Qed.

Lemma only_removes_remove path : steps only_removes (remove_if_present path).
Proof.
  intros s p Hp. destruct (fs s !! path) eqn:E.
  - erewrite remove_present by eauto. cbn.
    apply lookup_delete_None. now right.
  - now rewrite remove_absent.
Qed.

Lemma only_removes_cleanup language tempDir filePath :
  steps only_removes (cleanup language tempDir filePath).
Proof.
  unfold cleanup, kill_process, remove_files.
  repeat first
    [ apply only_removes_remove
    | apply (steps_bind only_removes only_removes_trans); [ | intros ? ]
    | apply (steps_try_catch only_removes only_removes_trans); [ | intros ? ]
    | match goal with
      | |- steps only_removes (if ?b then _ else _) => destruct b
      | |- steps only_removes (match ?x with _ => _ end) => destruct x
      end
    | apply only_removes_same_fs; reflexivity ].
Qed.

(** After the [finally] block of a Java job neither [Main.java] nor
    [Main.class] is left. *)
Lemma cleanup_java_removes_main tempDir filePath s :
  fs (snd (cleanup "java" tempDir filePath s)) !! join tempDir "Main.java" = None
  /\ fs (snd (cleanup "java" tempDir filePath s)) !! join tempDir "Main.class" = None.
Proof.
  unfold cleanup. rewrite (bind_ret _ _ _ _ _ (kill_process_eval s)).
  set (s1 := match process s with Some h => log (EvKill h) s | None => s end).
  unfold remove_files, try_catch.
  change (String.eqb "java" "java") with true. cbv iota.
  destruct (remove_returns (join tempDir "Main.java") s1) as (s2 & H2).
  destruct (remove_returns (join tempDir "Main.class") s2) as (s3 & H3).
  pose proof (remove_makes_absent (join tempDir "Main.java") s1) as K2.
  pose proof (remove_makes_absent (join tempDir "Main.class") s2) as K3.
  pose proof (only_removes_remove (join tempDir "Main.class") s2) as O3.
  rewrite H2 in K2. rewrite H3 in K3, O3. cbn [snd] in *.
  rewrite (bind_ret _ _ _ _ _ H2), H3. cbn [snd]. split; [now apply O3 | exact K3].
Qed.

(** The inner [finally] of the Java case leaves neither file. *)
Lemma java_finally_removes javaFile javaClass s :
  let s' :=
    snd (try_catch
           (fileExists <- file_exists javaFile ;;
            classExists <- file_exists javaClass ;;
            (if fileExists : bool then unlink javaFile else ret tt) ;;
            (if classExists : bool then unlink javaClass else ret tt))
           (fun _ => ret tt) s) in
  fs s' !! javaFile = None /\ fs s' !! javaClass = None.
Proof.
  unfold try_catch, bind, file_exists, try_catch, bind, access, unlink, ret.
  destruct (fs s !! javaFile) eqn:Ef; destruct (fs s !! javaClass) eqn:Ec;
    cbn; rewrite ?Ef, ?Ec; cbn.
  - destruct (delete javaFile (fs s) !! javaClass) eqn:Ed; cbn.
    + split; [ | apply lookup_delete_eq].
      apply lookup_delete_None. right. apply lookup_delete_eq.
    + split; [apply lookup_delete_eq | exact Ed].
  - split; [apply lookup_delete_eq | ]. apply lookup_delete_None. now right.
  - split; [ | apply lookup_delete_eq]. apply lookup_delete_None. now right.
  - now split.
Qed.

Lemma java_case_leaves_no_file w code language tempDir s result s' :
  java_case w code language tempDir s = (Ret result, s') ->
  fs s' !! join tempDir (className_of code +:+ ".java") = None
  /\ fs s' !! join tempDir (className_of code +:+ ".class") = None.
Proof.
  unfold java_case, try_finally.
  set (javaFile := join tempDir (className_of code +:+ ".java")).
  set (javaClass := join tempDir (className_of code +:+ ".class")).
  set (body := try_catch _ _).
  set (fin := try_catch _ _).
  pose proof (java_finally_removes javaFile javaClass) as Hrm. cbv zeta in Hrm.
  fold fin in Hrm.
  destruct (body s) as [[a | e | | ] s1]; try discriminate.
  - specialize (Hrm s1). unfold bind.
    destruct (fin s1) as [[[] | e | | ] s2]; try discriminate.
    intros H. injection H as _ <-. exact Hrm.
  - unfold bind. now destruct (fin s1) as [[[] | e2 | | ] s2].
Qed.

(** When a Java job ends by returning or throwing, its directory holds
    neither [Main.java] nor [Main.class], whoever wrote them; and when
    it returns, the Java file and the class file named after its own
    class are gone too, whatever the compiler and the run did. *)
Theorem java_job_removes_java_and_class_files (w : World) (code input : string)
  (s : State) :
  let tempDir := tmpdir w in
  let className := className_of code in
  let r := executeCode w code "java" input s in
  (fst r <> Hang -> fst r <> Crash ->
   fs (snd r) !! join tempDir "Main.java" = None
   /\ fs (snd r) !! join tempDir "Main.class" = None)
  /\ (forall result, fst r = Ret result ->
      fs (snd r) !! join tempDir (className +:+ ".java") = None
      /\ fs (snd r) !! join tempDir (className +:+ ".class") = None).
Proof.
  intros tempDir className r. subst r.
  pose proof (executeCode_outcome w code "java" input s) as H. cbv zeta in H.
  fold tempDir in H. set (filePath := temp_path tempDir (now s)) in *.
  set (s0 := set_process None s) in *.
  split.
  - intros Hh Hc.
    destruct (fst (job w code "java" input tempDir filePath s0)) eqn:E;
      rewrite H in *; cbn [fst snd] in *;
      try apply cleanup_java_removes_main.
    + rewrite E in Hh. contradiction.
    + rewrite E in Hc. contradiction.
  - intros result Hr.
    destruct (job w code "java" input tempDir filePath s0) as [o sJ] eqn:E.
    cbn [fst snd] in H.
    assert (o = Ret result) as ->.
    { destruct o; rewrite H in Hr; cbn [fst] in Hr; congruence. }
    rewrite H. cbn [snd].
    rewrite java_job in E. unfold bind in E.
    destruct (probe w "java" ["-version"] java_missing s0) as [[[] | e | | ] sA];
      try discriminate.
    cbn [writeFile modify] in E.
    destruct (java_case_leaves_no_file _ _ _ _ _ _ _ E) as (Hf & Hcl).
    split; now apply only_removes_cleanup.
Qed.

Lemma java_job_removes_java_and_class_files_witness :
  fs (snd (executeCode (world_jdk print5_java)
             "public class Foo { }" "java" EmptyString state0))
  !! "/tmp/Foo.java" = None
  /\ fs (snd (executeCode (world_jdk print5_java)
                "public class Foo { }" "java" EmptyString state0))
     !! "/tmp/Foo.class" = None.
Proof.
  apply (proj2 (java_job_removes_java_and_class_files (world_jdk print5_java)
                  "public class Foo { }" EmptyString state0)
           (JavaExecuted
              (Some (trim (strip_metrics (concat_chunks demo_output)))) None
              (seconds_of_ns (parseInt "2512345678")) zero
              (analyzeComplexity "public class Foo { }" "java")
              (generateAISuggestions "public class Foo { }" "java"))).
  vm_compute. reflexivity.
Defined.

(** ** The suggestions and their score *)

Lemma at_most_five_suggestions code language :
  (length (generateAISuggestions code language) <= 5)%nat.
Proof.
  unfold generateAISuggestions. rewrite !length_app.
  repeat match goal with
         | |- context [length (if ?b then _ else _)] => destruct b
         end; cbn [length]; lia.
Qed.

(** There are never more than five suggestions, so the score of a
    result is 10 minus their number and lies between 5 and 10: the
    floor of 1 in [Math.max(1, 10 - suggestions.length)] is never
    reached. The summary says the code looks good exactly when the
    score is 10. *)
Theorem quality_is_ten_minus_the_suggestions (code language : string) :
  let feedback := feedback_of (generateAISuggestions code language) in
  let n := Z.of_nat (length (suggestions feedback)) in
  n <= 5
  /\ overallQuality feedback = 10 - n
  /\ 5 <= overallQuality feedback <= 10
  /\ (overallQuality feedback = 10
      <-> summary feedback = "Code looks good! No major issues detected.").
Proof.
  intros feedback n. subst feedback n. unfold feedback_of.
  pose proof (at_most_five_suggestions code language) as H.
  cbn [suggestions overallQuality summary].
  destruct (length (generateAISuggestions code language)) as [ | k] eqn:E.
  - cbn. repeat split; lia.
  - cbn [Nat.eqb]. split; [lia | ]. split; [lia | ]. split; [lia | ]. split.
    + lia.
    + intros Hs. exfalso. clear -Hs.
      destruct (1 <? S k)%nat; cbn in Hs; discriminate Hs.
Qed.

(** ** Line numbers *)

Lemma line_numbers_from_spec test lines i n :
  In n (line_numbers_from i test lines)
  <-> exists k line,
        nth_error lines k = Some line /\ test line = true /\ n = i + 1 + Z.of_nat k.
Proof.
  revert i. induction lines as [ | l lines IH]; intros i; cbn [line_numbers_from].
  - split; [intros [] | intros (k & line & H & _)]. now destruct k.
  - assert (Htail : In n (line_numbers_from (i + 1) test lines)
                    <-> exists k line, nth_error lines k = Some line
                          /\ test line = true /\ n = i + 1 + Z.of_nat (S k)).
    { rewrite IH. split; intros (k & line & H1 & H2 & H3); exists k, line;
        repeat split; trivial; lia. }
    destruct (test l) eqn:Et.
    + cbn [In]. rewrite Htail. split.
      * intros [<- | (k & line & H1 & H2 & H3)].
        -- exists O, l. repeat split; trivial. cbn. lia.
        -- exists (S k), line. now repeat split.
      * intros ([ | k] & line & H1 & H2 & H3).
        -- left. cbn in H3. lia.
        -- right. exists k, line. now repeat split.
    + rewrite Htail. split.
      * intros (k & line & H1 & H2 & H3). exists (S k), line. now repeat split.
      * intros ([ | k] & line & H1 & H2 & H3).
        -- cbn in H1. injection H1 as ->. congruence.
        -- exists k, line. now repeat split.
Qed.

(** The line numbers a suggestion lists are exactly the numbers,
    counted from 1, of the lines that pass its test. *)
Theorem line_numbers_are_the_matching_lines (test : string -> bool)
  (lines : list string) (n : Z) :
  In n (line_numbers test lines)
  <-> exists line, line_at lines n = Some line /\ test line = true.
Proof.
  unfold line_numbers. rewrite line_numbers_from_spec. unfold line_at. split.
  - intros (k & line & H1 & H2 & ->). exists line. split; [ | exact H2].
    destruct (0 + 1 + Z.of_nat k <=? 0) eqn:E; [apply Z.leb_le in E; lia | ].
    replace (Z.to_nat (0 + 1 + Z.of_nat k - 1)) with k by lia. exact H1.
  - intros (line & H1 & H2).
    destruct (n <=? 0) eqn:E; [discriminate | ]. apply Z.leb_gt in E.
    exists (Z.to_nat (n - 1)), line. repeat split; trivial. lia.
Qed.

Lemma split_lines_cons code : exists l ls, split_lines code = l :: ls.
Proof. unfold split_lines. destruct (split_first_line code) as [l ls]. now exists l, ls. Qed.

(** Every line number of every suggestion is the number of a line of
    the code. *)
Theorem suggested_lines_exist (code language : string) (sug : Suggestion) (n : Z) :
  In sug (generateAISuggestions code language) ->
  In n (lineNumbers sug) ->
  exists line, line_at (split_lines code) n = Some line.
Proof.
  assert (H1 : exists line, line_at (split_lines code) 1 = Some line).
  { destruct (split_lines_cons code) as (l & ls & ->). now exists l. }
  assert (Hn : forall test, In n (line_numbers test (split_lines code)) ->
                 exists line, line_at (split_lines code) n = Some line).
  { intros test Hin. apply line_numbers_from_spec in Hin.
    destruct Hin as (k & line & Hl & _ & ->). exists line. unfold line_at.
    destruct (0 + 1 + Z.of_nat k <=? 0) eqn:E; [apply Z.leb_le in E; lia | ].
    replace (Z.to_nat (0 + 1 + Z.of_nat k - 1)) with k by lia. exact Hl. }
  unfold generateAISuggestions. rewrite !in_app_iff.
  intros [H | [H | [H | [H | H]]]];
    match type of H with
    | In _ (if ?b then _ else _) => destruct b; [ | contradiction]
    end;
    destruct H as [<- | []]; cbn [lineNumbers]; intros Hin;
    first [ now apply Hn in Hin | destruct Hin as [<- | []]; exact H1 ].
Qed.

Lemma suggested_lines_exist_witness :
  exists line,
    line_at (split_lines ("let total = 0;" +:+ nl +:+ "for (const v of values) total += v;"))
      2 = Some line.
Proof.
  apply (suggested_lines_exist
           ("let total = 0;" +:+ nl +:+ "for (const v of values) total += v;")
           "javascript"
           (nth 0 (generateAISuggestions
                     ("let total = 0;" +:+ nl +:+ "for (const v of values) total += v;")
                     "javascript")
              {| type := EmptyString; title := EmptyString; description := EmptyString;
                 lineNumbers := []; severity := info; improvementCode := EmptyString |})
           2).
  - vm_compute. left. reflexivity.
  - vm_compute. left. reflexivity.
Defined.

(** ** Substrings *)

Lemma strip_prefix_sound p s r : strip_prefix p s = Some r -> s = p +:+ r.
Proof.
  revert s. induction p as [ | a p IH]; intros s H.
  - cbn in H. now injection H as ->.
  - destruct s as [ | b s]; [discriminate | ]. cbn in H.
    destruct (Ascii.eqb a b) eqn:E; [ | discriminate].
    apply Ascii.eqb_eq in E. subst b. rewrite append_cons. f_equal. now apply IH.
Qed.

Lemma search_sound {A : Type} (here : string -> option A) s a :
  search here s = Some a -> exists pre suf, s = pre +:+ suf /\ here suf = Some a.
Proof.
  induction s as [ | c s IH]; cbn [search]; destruct (here _) as [x | ] eqn:E; intros H.
  - injection H as ->. now exists EmptyString, EmptyString.
  - discriminate.
  - injection H as ->. now exists EmptyString, (String c s).
  - destruct (IH H) as (pre & suf & -> & Hs). now exists (String c pre), suf.
Qed.

Lemma search_complete {A : Type} (here : string -> option A) pre suf :
  here suf <> None -> search here (pre +:+ suf) <> None.
Proof.
  intros H. induction pre as [ | c pre IH].
  - change (EmptyString +:+ suf) with suf.
    destruct suf; cbn [search]; destruct (here _); congruence.
  - rewrite append_cons. cbn [search].
    destruct (here (String c (pre +:+ suf))); [discriminate | exact IH].
Qed.

Lemma includes_spec p s :
  includes p s = true <-> exists a b, s = a +:+ p +:+ b.
Proof.
  unfold includes. split.
  - destruct (search (strip_prefix p) s) as [r | ] eqn:E; [ | discriminate].
    intros _. apply search_sound in E. destruct E as (pre & suf & -> & Hs).
    apply strip_prefix_sound in Hs. subst suf. now exists pre, r.
  - intros (a & b & ->).
    pose proof (search_complete (strip_prefix p) a (p +:+ b)) as H.
    rewrite strip_prefix_app in H.
    destruct (search _ _); [reflexivity | ]. now contradiction H.
Qed.

(** The suggestion named for nested loops is made for every text in
    which the letters [for] occur anywhere, once is enough, and for no
    other text. *)
Theorem any_for_is_reported_as_nested_loops (code language : string) :
  (exists sug, In sug (generateAISuggestions code language)
               /\ title sug = "Nested Loops Detected")
  <-> exists a b, code = a +:+ "for" +:+ b.
Proof.
  rewrite <- includes_spec. unfold generateAISuggestions. split.
  - intros (sug & Hin & Ht). rewrite !in_app_iff in Hin.
    destruct (includes "for" code); [reflexivity | exfalso].
    cbn [andb] in Hin.
    destruct Hin as [H | [H | [H | [H | H]]]];
      match type of H with
      | In _ (if ?b then _ else _) => destruct b; [ | contradiction]
      | _ => contradiction
      end;
      destruct H as [<- | []]; discriminate Ht.
  - intros ->. cbn [andb]. eexists. split; [apply in_app_iff; left; left; reflexivity | ].
    reflexivity.
Qed.

(** ** Two loops on one line *)

Lemma dots_then_unfold b s :
  dots_then b s
  = match
      match s with
      | EmptyString => None
      | String _ s' => if at_line_end s then None else dots_then b s'
      end
    with
    | Some r => Some r
    | None => strip_prefix b s
    end.
Proof. now destruct s. Qed.

Lemma dots_then_sound b s r :
  dots_then b s = Some r ->
  exists mid,
    s = mid +:+ b +:+ r
    /\ (forall a c m, mid = a +:+ String c m ->
                      at_line_end (String c m +:+ b +:+ r) = false).
Proof.
  assert (Hhere : forall s, strip_prefix b s = Some r ->
            exists mid,
              s = mid +:+ b +:+ r
              /\ (forall a c m, mid = a +:+ String c m ->
                                at_line_end (String c m +:+ b +:+ r) = false)).
  { intros s' H. apply strip_prefix_sound in H. exists EmptyString.
    split; [exact H | ]. intros [ | ? ?] c m E; discriminate E. }
  induction s as [ | c s IH]; rewrite dots_then_unfold.
  - apply Hhere.
  - destruct (at_line_end (String c s)) eqn:Ec; [apply Hhere | ].
    destruct (dots_then b s) as [r' | ] eqn:E; [ | apply Hhere].
    intros H. injection H as ->. destruct (IH eq_refl) as (mid & -> & Hmid).
    exists (String c mid). split; [reflexivity | ].
    intros [ | x a] c' m E'; rewrite ?append_cons in E'.
    + change (EmptyString +:+ String c' m) with (String c' m) in E'.
      injection E' as <- <-. exact Ec.
    + injection E' as <- E'. exact (Hmid a c' m E').
Qed.

Lemma dots_then_complete b mid post :
  (forall a c m, mid = a +:+ String c m ->
                 at_line_end (String c m +:+ b +:+ post) = false) ->
  dots_then b (mid +:+ b +:+ post) <> None.
Proof.
  induction mid as [ | c mid IH]; intros H; rewrite dots_then_unfold.
  - change (EmptyString +:+ b +:+ post) with (b +:+ post).
    rewrite strip_prefix_app.
    now destruct (match b +:+ post with EmptyString => _ | _ => _ end).
  - rewrite append_cons. rewrite <- append_cons.
    rewrite (H EmptyString c mid eq_refl).
    assert (IH' : dots_then b (mid +:+ b +:+ post) <> None).
    { apply IH. intros a c' m E. apply (H (String c a) c' m).
      rewrite append_cons. now rewrite E. }
    now destruct (dots_then b (mid +:+ b +:+ post)).
Qed.

(** No byte of a line terminator is a word character. *)
Lemma line_terminator_bytes t :
  In t line_terminators -> all_in (fun c => negb (is_word c)) t = true.
Proof. intros [<- | [<- | [<- | [<- | []]]]]; reflexivity. Qed.

Lemma at_line_end_app t rest :
  In t line_terminators -> at_line_end (t +:+ rest) = true.
Proof.
  intros H. unfold at_line_end. apply existsb_exists. exists t.
  split; [exact H | ]. now rewrite strip_prefix_app.
Qed.

(** A prefix of [x +:+ rest] is a prefix of [x], or ends in [rest]. *)
Lemma strip_prefix_split t x rest r :
  strip_prefix t (x +:+ rest) = Some r ->
  (exists x', x = t +:+ x')
  \/ (exists t2 c, t = x +:+ String c t2 /\ starts_in (Ascii.eqb c) rest = true).
Proof.
  revert x. induction t as [ | a t IH]; intros x H.
  - left. now exists x.
  - destruct x as [ | b x].
    + right. change (EmptyString +:+ rest) with rest in H.
      destruct rest as [ | b rest]; [discriminate H | ]. cbn [strip_prefix] in H.
      destruct (Ascii.eqb a b) eqn:E; [ | discriminate H].
      exists t, a. split; [reflexivity | exact E].
    + rewrite append_cons in H. cbn [strip_prefix] in H.
      destruct (Ascii.eqb a b) eqn:E; [ | discriminate H].
      apply Ascii.eqb_eq in E. subst b.
      destruct (IH x H) as [(x' & ->) | (t2 & c & -> & Hc)].
      * left. now exists x'.
      * right. exists t2, c. split; [reflexivity | exact Hc].
Qed.

(** A text holds no line terminator exactly when none begins inside it
    with a word after it. *)
Lemma one_line_clear mid rest :
  starts_in is_word rest = true ->
  (one_line mid = true
   <-> forall a c m, mid = a +:+ String c m ->
                     at_line_end (String c m +:+ rest) = false).
Proof.
  intros Hrest. unfold one_line. rewrite negb_true_iff. split.
  - intros Hone a c m ->.
    destruct (at_line_end (String c m +:+ rest)) eqn:E; [exfalso | reflexivity].
    unfold at_line_end in E. apply existsb_exists in E as (t & Hin & Ht).
    destruct (strip_prefix t (String c m +:+ rest)) as [r | ] eqn:Es;
      [clear Ht | discriminate Ht].
    apply strip_prefix_split in Es as [(x' & Hx) | (t2 & d & -> & Hd)].
    + assert (Hinc : includes t (a +:+ String c m) = true).
      { apply includes_spec. exists a, x'. now rewrite Hx. }
      assert (Hex : existsb (fun t => includes t (a +:+ String c m)) line_terminators
                    = true).
      { apply existsb_exists. now exists t. }
      congruence.
    + apply line_terminator_bytes in Hin. rewrite all_in_app in Hin.
      apply andb_prop in Hin as [_ Hin]. cbn [all_in] in Hin.
      apply andb_prop in Hin as [Hin _]. apply negb_true_iff in Hin.
      destruct rest as [ | e rest]; [discriminate Hd | ]. cbn [starts_in] in *.
      apply Ascii.eqb_eq in Hd. congruence.
  - intros Hclear.
    destruct (existsb (fun t => includes t mid) line_terminators) eqn:E;
      [exfalso | reflexivity].
    apply existsb_exists in E as (t & Hin & Ht).
    apply includes_spec in Ht as (a & m & ->).
    assert (Hne : exists c t', t = String c t').
    { destruct Hin as [<- | [<- | [<- | [<- | []]]]]; eexists _, _; reflexivity. }
    destruct Hne as (c & t' & Et).
    pose proof (Hclear a c (t' +:+ m)) as K.
    rewrite <- append_cons, <- Et in K. specialize (K eq_refl).
    rewrite append_assoc, at_line_end_app in K by exact Hin. discriminate K.
Qed.

Lemma count_global_sound here skip s :
  (0 < count_global here skip s)%nat ->
  exists pre suf, s = pre +:+ suf /\ here suf <> None.
Proof.
  revert skip. induction s as [ | c s IH]; intros skip; cbn [count_global].
  - lia.
  - destruct skip as [ | k].
    + destruct (here (String c s)) as [r | ] eqn:E.
      * intros _. exists EmptyString, (String c s). split; [reflexivity | congruence].
      * intros H. destruct (IH _ H) as (pre & suf & -> & Hs). now exists (String c pre), suf.
    + intros H. destruct (IH _ H) as (pre & suf & -> & Hs). now exists (String c pre), suf.
Qed.

Lemma count_global_complete here pre suf :
  here EmptyString = None -> here suf <> None ->
  (0 < count_global here 0 (pre +:+ suf))%nat.
Proof.
  intros He H. induction pre as [ | c pre IH].
  - change (EmptyString +:+ suf) with suf.
    destruct suf as [ | c suf]; [congruence | ]. cbn [count_global].
    destruct (here (String c suf)); [lia | congruence].
  - rewrite append_cons. cbn [count_global].
    destruct (here (String c (pre +:+ suf))); [lia | exact IH].
Qed.

(** [/a.*b/g] finds something exactly when [a] and, later on the same
    line, [b] occur. *)
Lemma count_pair_pos a b code :
  a <> EmptyString -> starts_in is_word b = true ->
  ((0 < count_pair a b code)%nat
   <-> exists pre mid post,
         code = pre +:+ a +:+ mid +:+ b +:+ post /\ one_line mid = true).
Proof.
  intros Ha Hb.
  assert (Hrest : forall post, starts_in is_word (b +:+ post) = true).
  { intros post. now destruct b. }
  unfold count_pair. split.
  - intros H. apply count_global_sound in H. destruct H as (pre & suf & -> & Hs).
    destruct (strip_prefix a suf) as [r | ] eqn:E; [ | now contradiction Hs].
    cbn in Hs. destruct (dots_then b r) as [post | ] eqn:E2; [ | now contradiction Hs].
    apply strip_prefix_sound in E. apply dots_then_sound in E2.
    destruct E2 as (mid & -> & Hmid). subst suf. exists pre, mid, post.
    split; [reflexivity | ]. now apply (one_line_clear mid (b +:+ post)).
  - intros (pre & mid & post & -> & Hmid). apply count_global_complete.
    + destruct a; [now contradiction Ha | reflexivity].
    + rewrite strip_prefix_app. cbn. apply dots_then_complete.
      now apply (one_line_clear mid (b +:+ post)).
Qed.

Lemma time_cases code language :
  let t := time (analyzeComplexity code language) in
  let nested :=
    (count_pair "for" "for" code + count_pair "while" "while" code
     + count_pair "for" "while" code)%nat in
  (t = "O(n²)" -> (0 < nested)%nat)
  /\ ((0 < nested)%nat -> t = "O(n²)" \/ t = "O(2^n)").
Proof.
  intros t nested. subst t. unfold analyzeComplexity. fold nested.
  destruct (_ && negb _) eqn:Efib.
  - split; [ | now right].
    repeat match goal with
           | |- context [if ?b then _ else _] => destruct b
           end; cbn [time]; discriminate.
  - destruct (0 <? nested)%nat eqn:En.
    + apply Nat.ltb_lt in En. split; [now intros _ | intros _; left].
      repeat match goal with
             | |- context [if ?b then _ else _] => destruct b
             end; reflexivity.
    + split.
      * repeat match goal with
               | |- context [if ?b then _ else _] => destruct b
               end; cbn [time]; discriminate.
      * apply Nat.ltb_ge in En. lia.
Qed.

(** The time estimate is quadratic only if two loop keywords stand on
    one line, in one of the orders for/for, while/while or for/while,
    with no line terminator (line feed, carriage return, U+2028,
    U+2029) between them; and when they do, the estimate is quadratic
    unless the text is taken for a recursive Fibonacci. Loops nested
    over several lines are not seen, nor is a [for] after a [while]. *)
Theorem quadratic_time_needs_two_loops_on_one_line (code language : string) :
  let t := time (analyzeComplexity code language) in
  let on_one_line :=
    exists first second pre mid post,
      In (first, second) [("for", "for"); ("while", "while"); ("for", "while")]
      /\ code = pre +:+ first +:+ mid +:+ second +:+ post
      /\ one_line mid = true in
  (t = "O(n²)" -> on_one_line)
  /\ (on_one_line -> t = "O(n²)" \/ t = "O(2^n)").
Proof.
  intros t on_one_line.
  destruct (time_cases code language) as [H1 H2]. cbv zeta in H1, H2. fold t in H1, H2.
  assert (Hfor : "for" <> EmptyString) by discriminate.
  assert (Hwhile : "while" <> EmptyString) by discriminate.
  pose proof (count_pair_pos "for" "for" code Hfor eq_refl) as Pff.
  pose proof (count_pair_pos "while" "while" code Hwhile eq_refl) as Pww.
  pose proof (count_pair_pos "for" "while" code Hfor eq_refl) as Pfw.
  split.
  - intros Ht. specialize (H1 Ht).
    destruct (count_pair "for" "for" code) as [ | n1] eqn:E1.
    + destruct (count_pair "while" "while" code) as [ | n2] eqn:E2.
      * destruct (proj1 Pfw ltac:(lia)) as (pre & mid & post & Hc & Hm).
        exists "for", "while", pre, mid, post. cbn [In]. auto.
      * destruct (proj1 Pww ltac:(lia)) as (pre & mid & post & Hc & Hm).
        exists "while", "while", pre, mid, post. cbn [In]. auto.
    + destruct (proj1 Pff ltac:(lia)) as (pre & mid & post & Hc & Hm).
      exists "for", "for", pre, mid, post. cbn [In]. auto.
  - intros (first & second & pre & mid & post & Hin & Hc & Hm). apply H2.
    assert (Hex : exists pre mid post,
               code = pre +:+ first +:+ mid +:+ second +:+ post
               /\ one_line mid = true)
      by now exists pre, mid, post.
    destruct Hin as [E | [E | [E | []]]]; injection E as <- <-.
    + apply Pff in Hex. lia.
    + apply Pww in Hex. lia.
    + apply Pfw in Hex. lia.
Qed.

(** ** Time and space estimates together *)

(** The estimates take six and three values. A constant time estimate
    comes with a constant space estimate, and a quadratic space
    estimate with a quadratic time estimate. The language plays no
    part. *)
Theorem estimates_agree (code language : string) :
  let c := analyzeComplexity code language in
  In (time c) ["O(1)"; "O(n)"; "O(log n)"; "O(n log n)"; "O(n²)"; "O(2^n)"]
  /\ In (space c) ["O(1)"; "O(n)"; "O(n²)"]
  /\ (time c = "O(1)" -> space c = "O(1)")
  /\ (space c = "O(n²)" -> time c = "O(n²)")
  /\ (forall other, analyzeComplexity code other = c).
Proof.
  intros c. subst c. unfold analyzeComplexity.
  repeat match goal with
         | |- context [if ?b then _ else _] => destruct b
         end; cbn [time space In];
    (split; [tauto | ]); (split; [tauto | ]);
    (split; [first [reflexivity | discriminate] | ]);
    (split; [first [reflexivity | discriminate] | reflexivity]).
Qed.

(** ** Reversal *)

Lemma rev_onto_app s acc : rev_onto s acc = rev s +:+ acc.
Proof.
  unfold rev. revert acc. induction s as [ | c s IH]; intros acc; cbn [rev_onto].
  - reflexivity.
  - rewrite (IH (String c acc)), (IH (String c EmptyString)).
    now rewrite append_assoc.
Qed.

Lemma rev_cons c s : rev (String c s) = rev s +:+ String c EmptyString.
Proof. unfold rev at 1. cbn [rev_onto]. apply rev_onto_app. Qed.

Lemma starts_in_app f a b :
  a <> EmptyString -> starts_in f (a +:+ b) = starts_in f a.
Proof. destruct a; [congruence | reflexivity]. Qed.

Lemma rev_nonempty s : s <> EmptyString -> rev s <> EmptyString.
Proof.
  destruct s as [ | c s]; [congruence | ]. intros _. rewrite rev_cons.
  now destruct (rev s).
Qed.

Lemma ends_in_one f c : ends_in f (String c EmptyString) = f c.
Proof. reflexivity. Qed.

Lemma ends_in_cons f c s :
  s <> EmptyString -> ends_in f (String c s) = ends_in f s.
Proof.
  intros H. unfold ends_in. rewrite rev_cons.
  apply starts_in_app. now apply rev_nonempty.
Qed.

(** ** Poor names *)

Lemma poor_name_from_unfold prev s :
  poor_name_from prev s
  = (negb prev
     && existsb
          (fun a =>
             match strip_prefix a s with
             | Some r => negb (starts_in is_word r)
             | None => false
             end)
          poor_names)
    || match s with
       | EmptyString => false
       | String c s' => poor_name_from (is_word c) s'
       end.
Proof. now destruct s. Qed.

Lemma poor_name_from_spec prev s :
  poor_name_from prev s = true
  <-> exists pre name post,
        s = pre +:+ name +:+ post
        /\ In name poor_names
        /\ (if is_empty pre then prev else ends_in is_word pre) = false
        /\ starts_in is_word post = false.
Proof.
  split.
  - revert prev. induction s as [ | c s IH]; intros prev;
      rewrite poor_name_from_unfold; intros H; apply orb_prop in H as [H | H].
    + apply andb_prop in H as [Hp H]. apply existsb_exists in H as (name & Hin & H).
      destruct (strip_prefix name EmptyString) as [r | ] eqn:E; [ | discriminate].
      apply strip_prefix_sound in E. exists EmptyString, name, r.
      repeat split; trivial.
      * now apply negb_true_iff in Hp.
      * now apply negb_true_iff in H.
    + discriminate.
    + apply andb_prop in H as [Hp H]. apply existsb_exists in H as (name & Hin & H).
      destruct (strip_prefix name (String c s)) as [r | ] eqn:E; [ | discriminate].
      apply strip_prefix_sound in E. exists EmptyString, name, r.
      repeat split; trivial.
      * now apply negb_true_iff in Hp.
      * now apply negb_true_iff in H.
    + destruct (IH _ H) as (pre & name & post & -> & Hin & Hb & Ha).
      exists (String c pre), name, post. repeat split; trivial.
      cbn [is_empty]. destruct pre as [ | d pre].
      * exact Hb.
      * rewrite ends_in_cons by discriminate. exact Hb.
  - intros (pre & name & post & -> & Hin & Hb & Ha). revert prev Hb.
    induction pre as [ | c pre IH]; intros prev Hb; rewrite poor_name_from_unfold.
    + cbn [is_empty] in Hb. subst prev. cbn [negb andb].
      apply orb_true_intro. left. apply existsb_exists. exists name. split; [exact Hin | ].
      change (EmptyString +:+ name +:+ post) with (name +:+ post).
      rewrite strip_prefix_app. now rewrite Ha.
    + apply orb_true_intro. right. rewrite append_cons. apply IH.
      cbn [is_empty] in Hb. destruct pre as [ | d pre].
      * exact Hb.
      * rewrite ends_in_cons in Hb by discriminate. exact Hb.
Qed.

(** The readability check fires on a line exactly when one of the
    names x, y, z, a, b, c, temp, var stands in it as a whole word:
    with no letter, digit or underscore right before or right after. *)
Theorem poor_name_is_a_whole_word (line : string) :
  poor_name line = true
  <-> exists pre name post,
        line = pre +:+ name +:+ post
        /\ In name poor_names
        /\ ends_in is_word pre = false
        /\ starts_in is_word post = false.
Proof.
  unfold poor_name. rewrite poor_name_from_spec.
  split; intros (pre & name & post & Hl & Hin & Hb & Ha); exists pre, name, post;
    repeat split; trivial; destruct pre; trivial.
Qed.

(** ** Duplicated lines *)

(** The duplication check fires exactly when some line, non-blank and
    without a brace, is equal up to surrounding white space to a later
    line. *)
Theorem duplication_is_a_repeated_line (lines : list string) :
  hasDuplication lines = true
  <-> exists before line between nextLine after,
        lines = before ++ line :: between ++ nextLine :: after
        /\ trim line = trim nextLine
        /\ trim line <> EmptyString
        /\ includes "}" line = false
        /\ includes "{" line = false.
Proof.
  induction lines as [ | l lines IH]; cbn [hasDuplication].
  - split; [discriminate | ].
    intros (before & line & between & nextLine & after & H & _). now destruct before.
  - rewrite orb_true_iff, IH, existsb_exists. split.
    + intros [(nextLine & Hin & H) | (before & line & between & nextLine & after & -> & H)].
      * apply in_split in Hin as (between & after & ->).
        apply andb_prop in H as [H H4]. apply andb_prop in H as [H H3].
        apply andb_prop in H as [H1 H2].
        apply String.eqb_eq in H1. apply negb_true_iff in H2, H3, H4.
        exists [], l, between, nextLine, after. repeat split; trivial.
        intros E. rewrite E in H2. discriminate H2.
      * exists (l :: before), line, between, nextLine, after. now split.
    + intros (before & line & between & nextLine & after & Hl & H1 & H2 & H3 & H4).
      destruct before as [ | l' before]; cbn [app] in Hl; injection Hl as -> ->.
      * left. exists nextLine. split; [apply in_app_iff; right; now left | ].
        rewrite H1 at 1. rewrite String.eqb_refl, H3, H4.
        destruct (trim line); [congruence | reflexivity].
      * right. exists before, line, between, nextLine, after. now repeat split.
Qed.

(** ** The metrics block *)

Lemma search_none_here {A : Type} (here : string -> option A) pre suf :
  search here (pre +:+ suf) = None -> here suf = None.
Proof.
  intros H. destruct (here suf) eqn:E; [ | reflexivity].
  exfalso. apply (search_complete here pre suf); congruence.
Qed.

Lemma includes_false p pre suf :
  includes p (pre +:+ suf) = false -> strip_prefix p suf = None.
Proof.
  unfold includes. intros H. apply (search_none_here _ pre).
  now destruct (search (strip_prefix p) (pre +:+ suf)).
Qed.

Lemma includes_false_suffix p pre suf :
  includes p (pre +:+ suf) = false -> includes p suf = false.
Proof.
  intros H. destruct (includes p suf) eqn:E; [ | reflexivity].
  apply includes_spec in E as (a & b & ->).
  rewrite <- H. symmetry. apply includes_spec. exists (pre +:+ a), b.
  now rewrite append_assoc.
Qed.

Lemma metrics_tail_unfold s :
  metrics_tail s
  = match
      match s with
      | EmptyString => None
      | String _ s' => metrics_tail s'
      end
    with
    | Some r => Some r
    | None => memory_line_here s
    end.
Proof. now destruct s. Qed.

Lemma strip_metrics_unfold s :
  strip_metrics s
  = match metrics_here s with
    | Some r => r
    | None =>
        match s with
        | EmptyString => EmptyString
        | String c s' => String c (strip_metrics s')
        end
    end.
Proof. now destruct s. Qed.

Lemma no_memory_no_tail s :
  includes "Memory Usage: " s = false -> metrics_tail s = None.
Proof.
  induction s as [ | c s IH]; intros H; rewrite metrics_tail_unfold.
  - reflexivity.
  - rewrite IH by exact (includes_false_suffix _ (String c EmptyString) s H).
    unfold memory_line_here, memory_here.
    now rewrite (includes_false _ EmptyString _ H).
Qed.

Lemma strip_metrics_skips pre rest :
  (forall a c b, pre = a +:+ String c b -> metrics_here (String c b +:+ rest) = None) ->
  strip_metrics (pre +:+ rest) = pre +:+ strip_metrics rest.
Proof.
  induction pre as [ | c pre IH]; intros H; [reflexivity | ].
  rewrite append_cons, strip_metrics_unfold. rewrite <- append_cons.
  rewrite (H EmptyString c pre eq_refl). rewrite append_cons. f_equal.
  apply IH. intros a c' b E. apply (H (String c a) c' b).
  rewrite append_cons. now rewrite E.
Qed.

(** A text without the header line, or without a memory line, is left
    as it is by the replacement that cuts the metrics block. *)
Theorem text_without_metrics_is_kept (output : string) :
  includes "Performance Metrics:" output = false
  \/ includes "Memory Usage: " output = false ->
  strip_metrics output = output.
Proof.
  intros H.
  rewrite <- (append_empty_r output) at 1.
  rewrite strip_metrics_skips; [apply append_empty_r | ].
  intros a c b E. rewrite append_empty_r. subst output. unfold metrics_here.
  destruct H as [H | H].
  - now rewrite (includes_false _ a _ H).
  - destruct (strip_prefix "Performance Metrics:" (String c b)) as [r | ] eqn:Er;
      [ | reflexivity].
    cbn. apply no_memory_no_tail. apply strip_prefix_sound in Er.
    rewrite Er, <- append_assoc in H.
    exact (includes_false_suffix _ _ _ H).
Qed.

Lemma text_without_metrics_is_kept_witness :
  strip_metrics ("5" +:+ nl +:+ "Execution Time: 0.004 s" +:+ nl) =
  "5" +:+ nl +:+ "Execution Time: 0.004 s" +:+ nl.
Proof.
  apply (text_without_metrics_is_kept
           ("5" +:+ nl +:+ "Execution Time: 0.004 s" +:+ nl)).
  left. vm_compute. reflexivity.
Defined.





(** ** The execution time of a result *)

Lemma span_class f s : all_in f (fst (span f s)) = true.
Proof.
  induction s as [ | c s IH]; [reflexivity | ]. cbn [span].
  destruct (f c) eqn:E; [ | reflexivity].
  destruct (span f s) as [a b]. cbn [fst all_in] in *. now rewrite E.
Qed.

Lemma digit_value_nonneg c : is_digit c = true -> 0 <= Z.of_nat (nat_of_ascii c) - 48.
Proof.
  unfold is_digit, in_range. intros H. apply andb_prop in H as [H _].
  apply Nat.leb_le in H. lia.
Qed.

Lemma digits_value_nonneg acc s :
  0 <= acc -> all_in is_digit s = true -> 0 <= digits_value acc s.
Proof.
  revert acc. induction s as [ | c s IH]; intros acc Hacc H; cbn [digits_value].
  - exact Hacc.
  - cbn [all_in] in H. apply andb_prop in H as [Hc Hs].
    apply IH; [ | exact Hs]. pose proof (digit_value_nonneg c Hc). lia.
Qed.

Lemma round_half_even_nonneg n d : 0 <= n -> 0 < d -> 0 <= round_half_even n d.
Proof.
  intros Hn Hd. unfold round_half_even.
  pose proof (Z.div_pos n d Hn Hd).
  destruct (2 * (n mod d) <? d); [lia | ].
  destruct (d <? 2 * (n mod d)); [lia | ].
  destruct (Z.even (n / d)); lia.
Qed.

(** A double made from a quotient that is not negative is not
    negative. *)
Lemma to_double_nonneg n d q : to_double n d = Num q -> (0 <= q)%Q.
Proof.
  unfold to_double. destruct (n <=? 0) eqn:En.
  { intros H. injection H as <-. apply Qle_refl. }
  apply Z.leb_gt in En. cbv zeta.
  set (k := Z.max _ (-1074)).
  destruct (0 <=? k) eqn:Ek.
  - apply Z.leb_le in Ek.
    assert (Hm : 0 <= round_half_even n (Z.pos d * 2 ^ k)).
    { apply round_half_even_nonneg; [lia | ].
      pose proof (Z.pow_pos_nonneg 2 k ltac:(lia) Ek). lia. }
    destruct (2 ^ 1024 <=? _); [discriminate | ].
    intros H. injection H as <-. unfold Qle, inject_Z. cbn [Qnum Qden].
    pose proof (Z.pow_pos_nonneg 2 k ltac:(lia) Ek). nia.
  - apply Z.leb_gt in Ek.
    assert (Hm : 0 <= round_half_even (n * 2 ^ (- k)) (Z.pos d)).
    { apply round_half_even_nonneg; [ | lia].
      pose proof (Z.pow_pos_nonneg 2 (- k) ltac:(lia) ltac:(lia)). nia. }
    intros H. injection H as <-. rewrite Qred_correct.
    unfold Qle. cbn [Qnum Qden]. lia.
Qed.

Lemma parseFloat_nonneg s q : parseFloat s = Num q -> (0 <= q)%Q.
Proof.
  unfold parseFloat. destruct (span is_digit s) as [ip rest].
  destruct (is_empty ip && is_empty _); [discriminate | ].
  apply to_double_nonneg.
Qed.

Lemma scan_time_nonneg chunks acc :
  (forall q, snd (fst acc) = Num q -> (0 <= q)%Q) ->
  forall q, snd (fst (fold_left on_stdout chunks acc)) = Num q -> (0 <= q)%Q.
Proof.
  revert acc. induction chunks as [ | data chunks IH]; intros acc Hacc; [exact Hacc | ].
  cbn [fold_left]. apply IH. destruct acc as [[output executionTime] memoryUsage].
  cbn [on_stdout fst snd] in *. destruct (timeMatch (toString data)); [ | exact Hacc].
  apply parseFloat_nonneg.
Qed.

(** The time that has been read is never [NaN] once a chunk has set
    it: [parseFloat] finds a digit in every payload. *)
Lemma scan_time_kept chunks output executionTime memoryUsage :
  Forall (fun data => timeMatch (toString data) = None) chunks ->
  snd (fst (fold_left on_stdout chunks (output, executionTime, memoryUsage)))
  = executionTime.
Proof.
  intros H. revert output memoryUsage.
  induction H as [ | data chunks Ht _ IH]; intros output memoryUsage; [reflexivity | ].
  cbn [fold_left]. unfold on_stdout at 2. cbv zeta. rewrite Ht. apply IH.
Qed.

Lemma scan_time_last before data after payload acc :
  timeMatch (toString data) = Some payload ->
  Forall (fun data => timeMatch (toString data) = None) after ->
  snd (fst (fold_left on_stdout (before ++ data :: after) acc)) = parseFloat payload.
Proof.
  intros Ht Hafter. rewrite fold_left_app. cbn [fold_left].
  destruct (fold_left on_stdout before acc) as [[output executionTime] memoryUsage].
  unfold on_stdout at 2. cbv zeta. rewrite Ht. now apply scan_time_kept.
Qed.

(** ** The clock *)

Lemma not_before_refl s : not_before s s.
Proof. unfold not_before. lia. Qed.

Lemma not_before_trans a b c : not_before a b -> not_before b c -> not_before a c.
Proof. unfold not_before. lia. Qed.

(** Takes a computation apart to show that it never sets the clock back. *)
Ltac clock_step :=
  lazymatch goal with
  | |- steps not_before (bind _ _) =>
      apply (steps_bind not_before not_before_trans); [ | intros ? ]
  | |- steps not_before (try_catch _ _) =>
      apply (steps_try_catch not_before not_before_trans); [ | intros ? ]
  | |- steps not_before (try_finally _ _) =>
      apply (steps_try_finally not_before not_before_refl not_before_trans)
  | |- steps not_before (if ?b then _ else _) => destruct b
  | |- steps not_before (let '(_, _) := ?x in _) => destruct x
  | |- steps not_before (match ?x with _ => _ end) => destruct x
  | |- steps not_before (access ?path) =>
      let s := fresh "s" in
      intros s; unfold access, not_before; destruct (fs s !! path); cbn; lia
  | |- steps not_before (unlink ?path) =>
      let s := fresh "s" in
      intros s; unfold unlink, not_before; destruct (fs s !! path); cbn; lia
  | |- steps not_before _ =>
      let s := fresh "s" in
      solve [intros s; unfold not_before; cbn; lia]
  end.

Lemma clock_await_close w h failure : steps not_before (await_close w h failure).
Proof. unfold await_close. repeat clock_step. Qed.

Lemma clock_file_exists path : steps not_before (file_exists path).
Proof. unfold file_exists. repeat clock_step. Qed.

Lemma clock_java_case w code language tempDir :
  steps not_before (java_case w code language tempDir).
Proof.
  unfold java_case.
  repeat first [apply clock_await_close | apply clock_file_exists | clock_step].
Qed.

Lemma clock_cpp_case w code filePath : steps not_before (cpp_case w code filePath).
Proof. unfold cpp_case. repeat first [apply clock_await_close | clock_step]. Qed.

Lemma clock_switch w code language tempDir filePath :
  steps not_before (switch_language w code language tempDir filePath).
Proof.
  unfold switch_language.
  repeat first [apply clock_java_case | apply clock_cpp_case | clock_step].
Qed.

Lemma bind_inv {A B : Type} (m : M A) (k : A -> M B) s b s' :
  bind m k s = (Ret b, s') ->
  exists a s1, m s = (Ret a, s1) /\ k a s1 = (Ret b, s').
Proof.
  unfold bind. destruct (m s) as [[a | e | | ] s1]; try discriminate.
  intros H. now exists a, s1.
Qed.

(** [startTime] is read before the [switch], so the state in which the
    supervision starts is not earlier. *)
Lemma supervision_starts_after_startTime w code language s startTime s1 :
  reaches_supervision w code language s startTime s1 -> startTime <= now s1.
Proof.
  unfold reaches_supervision, prepare. intros H.
  apply bind_inv in H as (? & sa & _ & H).
  apply bind_inv in H as (? & sb & _ & H).
  apply bind_inv in H as (? & sc & _ & H).
  apply bind_inv in H as (t0 & sd & Ht & H).
  apply bind_inv in H as (r & se & Hsw & H).
  injection Ht as <- <-. injection H as <- _ <-.
  pose proof (clock_switch w code language (tmpdir w)
                (temp_path (tmpdir w) (now s)) sc) as Hc.
  rewrite Hsw in Hc. exact Hc.
Qed.

(** The [executionTime] of a run that ends well is never [NaN] and
    never negative: it is a number that is not negative, or
    [Infinity] (from a marker too large for a double). A marker that
    cannot be read, or reads as 0, gives way to the time on the clock
    of the server. A run ends well when the child closes with code 0
    before the deadline and the write of the input does not fail. *)
Theorem execution_time_is_a_number (w : World)
  (code language input : string) (s : State) startTime s1 h t :
  reaches_supervision w code language s startTime s1 ->
  process s1 = Some h ->
  let p := awaited w input s1 h in
  term p = Close t (Some 0) -> (t < timeout)%N ->
  write_fails input p = None ->
  let executionTime :=
    omap executionTime_of (fst (executeCode w code language input s)) in
  (exists q, executionTime = Ret (Num q) /\ (0 <= q)%Q)
  \/ executionTime = Ret Infinity.
Proof.
  intros Hreach Hproc p Hterm Hlt Hw executionTime. subst executionTime.
  pose proof (supervision_starts_after_startTime _ _ _ _ _ _ Hreach) as Hclock.
  pose proof (executeCode_outcome w code language input s) as H.
  cbv zeta in H. rewrite (job_supervised _ _ _ input _ _ _ Hreach) in H.
  rewrite (supervise_unfold _ _ _ _ _ _ _ Hproc) in H. cbv zeta in H.
  fold p in H. rewrite Hw, (race_in_time _ _ _ _ _ _ Hterm Hlt) in H.
  cbn [code_is_zero fst snd] in H. rewrite H. cbn [fst omap executionTime_of].
  pose proof (scan_time_nonneg (stdout p) (EmptyString, zero, zero)) as Hscan.
  assert (Hwall : forall x,
            x = seconds_of_ms
                  (now (set_now
                          (now (if is_empty input then s1 else log (EvStdin input) s1)
                           + Z.of_N t)
                          (set_fs (fs_after p)
                             (if is_empty input then s1 else log (EvStdin input) s1)))
                   - startTime) ->
            exists q, Ret x = Ret (Num q) /\ (0 <= q)%Q).
  { intros x ->. eexists. split; [reflexivity | ].
    unfold seconds_of_ms. rewrite Qred_correct.
    unfold Qle. cbn [Qnum Qden set_now now]. rewrite Z.mul_1_r. cbn [Z.mul].
    assert (now (if is_empty input then s1 else log (EvStdin input) s1) = now s1)
      by now destruct (is_empty input).
    lia. }
  destruct (snd (fst (fold_left on_stdout (stdout p) (EmptyString, zero, zero))))
    as [ | q | ] eqn:E.
  - cbn [truthy]. left. now apply Hwall.
  - destruct (truthy (Num q)).
    + left. exists q. split; [reflexivity | ]. apply Hscan; [ | reflexivity].
      cbn. intros q0 Hq. injection Hq as <-. apply Qle_refl.
    + left. now apply Hwall.
  - cbn [truthy]. now right.
Qed.

Lemma execution_time_is_a_number_witness :
  (exists q,
     omap executionTime_of
       (fst (executeCode world_warning print5_js "javascript" EmptyString state0))
     = Ret (Num q)
     /\ (0 <= q)%Q)
  \/ omap executionTime_of
       (fst (executeCode world_warning print5_js "javascript" EmptyString state0))
     = Ret Infinity.
Proof.
  exact (execution_time_is_a_number world_warning print5_js
           "javascript" EmptyString state0 _ _ _ 120%N
           eq_refl eq_refl eq_refl eq_refl eq_refl).
Defined.

(** The [executionTime] of a run that ends well comes from the last
    chunk of standard output in which the time pattern matches, and
    from the first match in that chunk: it is what [parseFloat] makes
    of the payload, unless that is 0 (also by underflow) or cannot be
    read; then it is the time on the clock of the server from
    [startTime] to the close of the child. *)
Theorem reported_time_is_used_unless_zero (w : World)
  (code language input : string) (s : State) startTime s1 h t
  (before after : list string) (data payload : string) :
  reaches_supervision w code language s startTime s1 ->
  process s1 = Some h ->
  let p := awaited w input s1 h in
  term p = Close t (Some 0) -> (t < timeout)%N ->
  write_fails input p = None ->
  stdout p = before ++ data :: after ->
  timeMatch (toString data) = Some payload ->
  Forall (fun data => timeMatch (toString data) = None) after ->
  omap executionTime_of (fst (executeCode w code language input s))
  = Ret (if truthy (parseFloat payload) then parseFloat payload
         else seconds_of_ms (now s1 + Z.of_N t - startTime)).
Proof.
  intros Hreach Hproc p Hterm Hlt Hw Hout Ht Hafter.
  pose proof (executeCode_outcome w code language input s) as H.
  cbv zeta in H. rewrite (job_supervised _ _ _ input _ _ _ Hreach) in H.
  rewrite (supervise_unfold _ _ _ _ _ _ _ Hproc) in H. cbv zeta in H.
  fold p in H. rewrite Hw, (race_in_time _ _ _ _ _ _ Hterm Hlt) in H.
  cbn [code_is_zero fst snd] in H. rewrite H. cbn [fst omap executionTime_of].
  rewrite Hout, (scan_time_last _ _ _ _ _ Ht Hafter).
  cbn [set_now now set_fs]. now destruct (is_empty input).
Qed.

Lemma reported_time_is_used_unless_zero_witness :
  omap executionTime_of
    (fst (executeCode world_two_markers print5_js "javascript" EmptyString state0))
  = Ret (if truthy (parseFloat "1") then parseFloat "1"
         else seconds_of_ms (1000 + Z.of_N 120 - 1000)).
Proof.
  refine (reported_time_is_used_unless_zero world_two_markers print5_js
            "javascript" EmptyString state0 1000 _ _ 120%N [] [] _ "1"
            eq_refl eq_refl eq_refl eq_refl eq_refl eq_refl eq_refl _).
  constructor.
Defined.

(** ** Memory usage and runs without markers *)

Lemma unmarked_run_defaults_witness :
  omap executionTime_of
    (fst (executeCode world_warning print5_js "javascript" EmptyString state0))
  = Ret (seconds_of_ms (1000 + Z.of_N 120 - 1000))
  /\ omap memoryUsage_of
       (fst (executeCode world_warning print5_js "javascript" EmptyString state0))
     = Ret zero.
Proof.
  refine (unmarked_run_defaults world_warning print5_js
            "javascript" EmptyString state0 1000 _ _ 120%N
            eq_refl eq_refl eq_refl eq_refl eq_refl _).
  repeat constructor.
Defined.

Lemma scan_memory_kept chunks output executionTime memoryUsage :
  Forall (fun data => memoryMatch (toString data) = None) chunks ->
  snd (fold_left on_stdout chunks (output, executionTime, memoryUsage))
  = memoryUsage.
Proof.
  intros H. revert output executionTime.
  induction H as [ | data chunks Ht _ IH]; intros output executionTime; [reflexivity | ].
  cbn [fold_left]. unfold on_stdout at 2. cbv zeta. rewrite Ht. apply IH.
Qed.

Lemma scan_memory_last before data after payload acc :
  memoryMatch (toString data) = Some payload ->
  Forall (fun data => memoryMatch (toString data) = None) after ->
  snd (fold_left on_stdout (before ++ data :: after) acc) = parseFloat payload.
Proof.
  intros Ht Hafter. rewrite fold_left_app. cbn [fold_left].
  destruct (fold_left on_stdout before acc) as [[output executionTime] memoryUsage].
  unfold on_stdout at 2. cbv zeta. rewrite Ht. now apply scan_memory_kept.
Qed.

(** The [memoryUsage] of a run that ends well comes from the last
    chunk of standard output in which the memory pattern matches, and
    from the first match in that chunk: it is what [parseFloat] makes
    of the payload, a double, [Infinity] or [NaN], and nothing
    replaces a value that is 0 or cannot be read. *)
Theorem reported_memory_is_taken_as_read (w : World)
  (code language input : string) (s : State) startTime s1 h t
  (before after : list string) (data payload : string) :
  reaches_supervision w code language s startTime s1 ->
  process s1 = Some h ->
  let p := awaited w input s1 h in
  term p = Close t (Some 0) -> (t < timeout)%N ->
  write_fails input p = None ->
  stdout p = before ++ data :: after ->
  memoryMatch (toString data) = Some payload ->
  Forall (fun data => memoryMatch (toString data) = None) after ->
  omap memoryUsage_of (fst (executeCode w code language input s))
  = Ret (parseFloat payload).
Proof.
  intros Hreach Hproc p Hterm Hlt Hw Hout Ht Hafter.
  pose proof (executeCode_outcome w code language input s) as H.
  cbv zeta in H. rewrite (job_supervised _ _ _ input _ _ _ Hreach) in H.
  rewrite (supervise_unfold _ _ _ _ _ _ _ Hproc) in H. cbv zeta in H.
  fold p in H. rewrite Hw, (race_in_time _ _ _ _ _ _ Hterm Hlt) in H.
  cbn [code_is_zero fst snd] in H. rewrite H. cbn [fst omap memoryUsage_of].
  now rewrite Hout, (scan_memory_last _ _ _ _ _ Ht Hafter).
Qed.

Lemma reported_memory_is_taken_as_read_witness :
  omap memoryUsage_of
    (fst (executeCode world_two_markers print5_js "javascript" EmptyString state0))
  = Ret (parseFloat "9").
Proof.
  refine (reported_memory_is_taken_as_read world_two_markers print5_js
            "javascript" EmptyString state0 1000 _ _ 120%N [] [] _ "9"
            eq_refl eq_refl eq_refl eq_refl eq_refl eq_refl eq_refl _).
  constructor.
Defined.

(** ** A process that cannot be launched *)

(** Nothing listens to the error event of the process the supervision
    code waits for. When that process cannot be launched, the server
    ends: [executeCode] neither returns nor throws, the route sends no
    reply, and the [finally] block does not run, so the files of the
    job stay. *)
Theorem unlaunched_process_ends_the_server (w : World)
  (code language input : string) (s : State) startTime s1 h :
  reaches_supervision w code language s startTime s1 ->
  process s1 = Some h ->
  term (awaited w input s1 h) = SpawnError ->
  is_empty code = false -> is_empty language = false ->
  let r := executeCode w code language input s in
  fst r = Crash
  /\ fs (snd r) = fs s1
  /\ fst (post_execute w (request code language input) s) = Crash.
Proof.
  intros Hreach Hproc Hterm Hc Hl r.
  assert (Hr : fst r = Crash /\ fs (snd r) = fs s1).
  { subst r.
    pose proof (executeCode_outcome w code language input s) as H.
    cbv zeta in H. rewrite (job_supervised _ _ _ input _ _ _ Hreach) in H.
    rewrite (supervise_unfold _ _ _ _ _ _ _ Hproc) in H. cbv zeta in H.
    unfold race in H. rewrite Hterm in H. cbn [fst snd] in H. rewrite H.
    split; [reflexivity | ]. cbn [snd]. now destruct (is_empty input). }
  destruct Hr as [Hr1 Hr2]. repeat split; trivial.
  rewrite (post_execute_outcome _ _ _ _ _ Hc Hl). fold r.
  destruct r as [[a | e | | ] s']; cbn [fst] in *; congruence.
Qed.

Lemma unlaunched_process_ends_the_server_witness :
  fst (executeCode world_bare print5_js "javascript" EmptyString state0) = Crash
  /\ fs (snd (executeCode world_bare print5_js "javascript" EmptyString state0))
     = <["/tmp/code_1000" := wrappedCode print5_js]>
         (<["/tmp/code_1000" := print5_js]> ∅)
  /\ fst (post_execute world_bare (request print5_js "javascript" EmptyString) state0)
     = Crash.
Proof.
  exact (unlaunched_process_ends_the_server world_bare print5_js
           "javascript" EmptyString state0 _ _ _
           (proj1 (script_job_reaches_supervision world_bare print5_js state0))
           eq_refl eq_refl eq_refl eq_refl).
Defined.

(** ** The client and the routes *)

(** What the client's [executeCode] makes of the route's replies, over
    a connection that loses nothing. A 200 is handed on as it is. A 400
    or 500 becomes the client's own failure object around the [errors]
    text of the server, which is also its [summary]: the fallback
    [HTTP error! status: ...] is never used, and the summary the server
    sent is dropped. A server that is gone becomes a failure object
    around the message of [fetch]. The client never throws. *)
Theorem client_reports_what_the_route_replied (w : World) (req : Request)
  (s : State) (down : string) :
  let reply := fst (post_execute w req s) in
  let shown :=
    client_executeCode (fun body => errors_of (body_result body)) (fun _ => true)
      (fetched status down reply) in
  match reply with
  | Ret body =>
      if status body =? 200 then shown = Ret (inl body)
      else exists msg,
             errors_of (body_result body) = Some msg
             /\ shown = Ret (inr (client_failure msg))
  | Crash => shown = Ret (inr (client_failure down))
  | Hang => shown = Hang
  | Throw _ => False
  end.
Proof.
  intros reply shown. subst shown reply. unfold post_execute.
  destruct (req_code req) as [code | ]; [ | now eexists].
  destruct (req_language req) as [language | ]; [ | now eexists].
  destruct (is_empty code || is_empty language); [now eexists | ].
  set (input := match req_input req with Some i => i | None => EmptyString end).
  unfold try_catch, bind.
  pose proof (executeCode_throws_a_message w code language input s) as Ht.
  cbv beta in Ht.
  destruct (executeCode w code language input s) as [[result | e | | ] s1] eqn:E;
    cbn [fst ret status Z.eqb Pos.eqb]; try reflexivity.
  exists e. split; [reflexivity | ].
  specialize (Ht e eq_refl). unfold nonempty in Ht.
  cbn [fetched client_executeCode status body_result errors_of].
  rewrite Ht. reflexivity.
Qed.

(** ** What a supervised job does at its end *)




(** ** What a computation returns *)

Lemma returns_ret {A : Type} (Q : A -> Prop) a : Q a -> returns Q (ret a).
Proof. intros H s b E. injection E as <-. exact H. Qed.

Lemma returns_throw {A : Type} (Q : A -> Prop) e : returns Q (@throw A e).
Proof. intros s b E. discriminate E. Qed.

Lemma returns_bind {A B : Type} (Q : B -> Prop) (m : M A) (k : A -> M B) :
  (forall a, returns Q (k a)) -> returns Q (bind m k).
Proof.
  intros Hk s b. unfold bind.
  destruct (m s) as [[a | e | | ] s1]; cbn [fst]; try discriminate. apply Hk.
Qed.

Lemma returns_try_catch {A : Type} (Q : A -> Prop) (m : M A) (h : string -> M A) :
  returns Q m -> (forall e, returns Q (h e)) -> returns Q (try_catch m h).
Proof.
  intros Hm Hh s b. unfold try_catch. specialize (Hm s).
  destruct (m s) as [[a | e | | ] s1]; cbn [fst] in *; try discriminate.
  - exact (Hm b).
  - apply Hh.
Qed.

Lemma returns_try_finally {A : Type} (Q : A -> Prop) (m : M A) (fin : M unit) :
  returns Q m -> returns Q (try_finally m fin).
Proof.
  intros Hm s b. unfold try_finally. specialize (Hm s).
  destruct (m s) as [[a | e | | ] s1]; cbn [fst] in *; try discriminate.
  - unfold bind. destruct (fin s1) as [[[] | e | | ] s2]; cbn [fst]; try discriminate.
    exact (Hm b).
  - unfold bind. destruct (fin s1) as [[[] | e2 | | ] s2]; cbn [fst]; discriminate.
Qed.

(** ** The results of a Java job *)

Lemma plus_sound f s a b :
  plus f s = Some (a, b) -> a <> EmptyString /\ all_in f a = true.
Proof.
  unfold plus. pose proof (span_class f s) as H.
  destruct (span f s) as [[ | c a'] b']; [discriminate | ].
  intros E. injection E as <- <-. split; [discriminate | exact H].
Qed.

Lemma timeMatchNs_sound text payload :
  timeMatchNs text = Some payload ->
  payload <> EmptyString /\ all_in is_digit payload = true.
Proof.
  unfold timeMatchNs. intros H. apply search_sound in H as (pre & suf & _ & H).
  unfold time_ns_here in H.
  destruct (strip_prefix "Execution Time: " suf) as [r1 | ]; [ | discriminate].
  cbn [mbind option_bind] in H.
  destruct (plus is_digit r1) as [[a r2] | ] eqn:E; [ | discriminate].
  cbn [mbind option_bind] in H.
  destruct (strip_prefix " ns" r2); [ | discriminate].
  cbn [mbind option_bind] in H. injection H as <-. exact (plus_sound _ _ _ _ E).
Qed.

Lemma java_scan_time chunks acc :
  (exists q, snd acc = Num q /\ (0 <= q)%Q) ->
  exists q, snd (fold_left on_java_stdout chunks acc) = Num q /\ (0 <= q)%Q.
Proof.
  revert acc. induction chunks as [ | text chunks IH]; intros acc Hacc; [exact Hacc | ].
  cbn [fold_left]. apply IH. destruct acc as [output executionTime].
  cbn [on_java_stdout snd] in *.
  destruct (timeMatchNs (toString text)) as [payload | ] eqn:E; [ | exact Hacc].
  apply timeMatchNs_sound in E as [Hne Hd]. unfold parseInt.
  destruct payload; [congruence | ]. cbn [is_empty].
  eexists. split; [reflexivity | ].
  unfold Qle, inject_Z. cbn [Qnum Qden].
  pose proof (digits_value_nonneg 0 _ (Z.le_refl 0) Hd). lia.
Qed.

Lemma seconds_of_ns_nonneg q :
  (0 <= q)%Q -> exists q', seconds_of_ns (Num q) = Num q' /\ (0 <= q')%Q.
Proof.
  intros H. eexists. split; [reflexivity | ]. rewrite Qred_correct.
  apply Qmult_le_0_compat; [exact H | ]. apply Qinv_le_0_compat. discriminate.
Qed.

(** A Java job that returns gives one of two objects: an [output] that
    is not empty with [error] null and an [executionTime] that is a
    number and not negative, or [output] null with an [error] and
    [executionTime] 0. In both, [memoryUsage] is 0, and there is no
    [errors] key and no [aiFeedback] key, the keys the route and the
    client read. *)
Theorem java_results_have_output_or_error (w : World) (code input : string)
  (s : State) :
  match fst (executeCode w code "java" input s) with
  | Ret result =>
      errors_of result = None /\ aiFeedback_of result = None
      /\ memoryUsage_of result = zero
      /\ exists output error executionTime,
           result = JavaExecuted output error executionTime zero
                      (analyzeComplexity code "java")
                      (generateAISuggestions code "java")
           /\ ((exists o q, output = Some o /\ o <> EmptyString /\ error = None
                            /\ executionTime = Num q /\ (0 <= q)%Q)
               \/ (exists e, output = None /\ error = Some e
                             /\ executionTime = zero))
  | _ => True
  end.
Proof.
  set (Q := fun result : Result =>
    errors_of result = None /\ aiFeedback_of result = None
    /\ memoryUsage_of result = zero
    /\ exists output error executionTime,
         result = JavaExecuted output error executionTime zero
                    (analyzeComplexity code "java")
                    (generateAISuggestions code "java")
         /\ ((exists o q, output = Some o /\ o <> EmptyString /\ error = None
                          /\ executionTime = Num q /\ (0 <= q)%Q)
             \/ (exists e, output = None /\ error = Some e
                           /\ executionTime = zero))).
  assert (Hcase : returns Q (java_case w code "java" (tmpdir w))).
  { unfold java_case. apply returns_try_finally. apply returns_try_catch.
    - do 5 (apply returns_bind; intros ?).
      match goal with
      | |- returns Q (let '(_, _) := ?x in _) =>
          pose proof (java_scan_time (stdout a3) (EmptyString, zero)
                        ltac:(exists 0%Q; split; [reflexivity | apply Qle_refl])) as Ht;
          destruct x as [output executionTime]
      end.
      cbn [snd] in Ht. destruct Ht as (q & -> & Hq).
      destruct (seconds_of_ns_nonneg q Hq) as (q' & Hs & Hq').
      apply returns_ret. subst Q. cbv beta. repeat split.
      do 3 eexists. split; [reflexivity | left].
      eexists _, q'. repeat split; trivial.
      now destruct (is_empty (trim (strip_metrics output))) eqn:E;
        [ | intros E2; rewrite E2 in E].
    - intros e. apply returns_ret. subst Q. cbv beta. repeat split.
      do 3 eexists. split; [reflexivity | right]. now exists e. }
  pose proof (executeCode_outcome w code "java" input s) as H. cbv zeta in H.
  rewrite java_job in H.
  set (m := probe w "java" ["-version"] java_missing ;;
            writeFile (temp_path (tmpdir w) (now s)) code ;;
            java_case w code "java" (tmpdir w)) in *.
  assert (Hm : returns Q m).
  { subst m. apply returns_bind. intros _. apply returns_bind. intros _. exact Hcase. }
  specialize (Hm (set_process None s)).
  destruct (fst (m (set_process None s))) as [result | e | | ] eqn:E;
    rewrite H; cbn [fst]; trivial.
  - exact (Hm result eq_refl).
  - now rewrite E.
  - now rewrite E.
Qed.

(** ** The indentation of a Python job *)

Lemma split_first_line_app pre rest :
  all_in (fun c => negb (Ascii.eqb c (ascii_of_nat 10))) pre = true ->
  split_first_line (pre +:+ rest)
  = (pre +:+ fst (split_first_line rest), snd (split_first_line rest)).
Proof.
  intros H. induction pre as [ | c pre IH].
  - change (split_first_line rest
            = (fst (split_first_line rest), snd (split_first_line rest))).
    now destruct (split_first_line rest).
  - rewrite append_cons. cbn [split_first_line all_in] in *.
    apply andb_prop in H as [Hc Hp]. rewrite (IH Hp).
    apply negb_true_iff in Hc. now rewrite Hc.
Qed.

Lemma split_prefixed_lines pre s :
  all_in (fun c => negb (Ascii.eqb c (ascii_of_nat 10))) pre = true ->
  split_first_line (prefix_lines pre s)
  = (fst (split_first_line s), map (fun line => pre +:+ line) (snd (split_first_line s))).
Proof.
  intros H. induction s as [ | c s IH]; [reflexivity | ].
  cbn [prefix_lines split_first_line].
  destruct (Ascii.eqb c (ascii_of_nat 10)) eqn:Ec.
  - cbn [split_first_line]. rewrite Ec, (split_first_line_app _ _ H), IH.
    now destruct (split_first_line s).
  - cbn [split_first_line]. rewrite Ec, IH. now destruct (split_first_line s).
Qed.

Lemma indented_lines (pre code : string) :
  all_in (fun c => negb (Ascii.eqb c (ascii_of_nat 10))) pre = true ->
  split_lines (indent_lines pre code)
  = map (fun line => pre +:+ line) (split_lines code).
Proof.
  intros H. unfold split_lines, indent_lines.
  rewrite (split_first_line_app _ _ H), (split_prefixed_lines _ _ H).
  now destruct (split_first_line code).
Qed.

Lemma split_lines_at_line_feed a b :
  split_lines (a +:+ nl +:+ b) = split_lines a ++ split_lines b.
Proof.
  unfold split_lines. induction a as [ | c a IH].
  - change (EmptyString +:+ nl +:+ b) with (String (ascii_of_nat 10) b).
    cbn [split_first_line]. change (Ascii.eqb _ _) with true. cbv iota.
    now destruct (split_first_line b).
  - rewrite append_cons. cbn [split_first_line].
    destruct (split_first_line (a +:+ nl +:+ b)) as [l ls].
    destruct (split_first_line a) as [la lsa].
    destruct (split_first_line b) as [lb lsb].
    cbn [app] in IH. injection IH as -> ->.
    now destruct (Ascii.eqb c (ascii_of_nat 10)).
Qed.

(** What a Python job hands to the interpreter is the file at the
    temporary path, written from [pythonCode]. The lines of that file
    are fixed lines, then the lines of the submitted code, in order and
    each behind four spaces, then fixed lines again: the code stands
    inside the [try] block, after [try:] and before [except]. *)
Theorem python_lines_are_indented :
  exists head tail : list string,
    (forall (w : World) (code : string) (s : State),
       let filePath := temp_path (tmpdir w) (now s) in
       exists s1,
         reaches_supervision w code "python" s (now s) s1
         /\ process s1 = Some ("python", [filePath])
         /\ fs s1 !! filePath = Some (pythonCode code)
         /\ split_lines (pythonCode code)
            = head ++ map (fun line => "    " +:+ line) (split_lines code) ++ tail)
    /\ In "try:" head
    /\ In "except Exception as e:" tail.
Proof.
  pose (template := pythonCode). unfold pythonCode in template.
  match eval unfold template in template with
  | fun code => ?H +:+ indent_lines _ code +:+ ?T =>
      pose (before := rev (match rev H with
                           | String _ r => r
                           | EmptyString => EmptyString
                           end));
      pose (after := match T with
                     | String _ t => t
                     | EmptyString => EmptyString
                     end);
      assert (EH : H = before +:+ nl) by (vm_compute; reflexivity);
      assert (ET : T = nl +:+ after) by (vm_compute; reflexivity)
  end.
  exists (split_lines before), (split_lines after). split; [ | split].
  - intros w code s filePath.
    destruct (script_job_reaches_supervision w code s) as (_ & Hpy).
    cbv zeta in Hpy. eexists. split; [exact Hpy | ].
    split; [reflexivity | ]. split.
    + cbn [fs set_process log set_fs]. apply lookup_insert_eq.
    + unfold pythonCode. rewrite EH, ET, !append_assoc.
      rewrite !split_lines_at_line_feed.
      now rewrite indented_lines by reflexivity.
  - vm_compute. tauto.
  - vm_compute. tauto.
Qed.

(** ** A C++ job that compiles *)

(** When the version check and the compiler both close with code 0, a
    C++ job gets to the common supervision code. Its process is the
    file named to the compiler by [-o], launched without arguments in
    the file system the compiler left; [startTime] was read after the
    check and before the compiler ran, so the time of the compiler is
    part of the time the server measures. *)
Theorem cpp_job_runs_what_the_compiler_left (w : World) (code : string)
  (s : State) tc t :
  let filePath := temp_path (tmpdir w) (now s) in
  let cppFile := filePath +:+ ".cpp" in
  let check := exec w "g++" ["--version"] None (fs s) in
  let flags := [cppFile; "-o"; filePath; "-std=c++11"; "-Wall"] in
  let compile :=
    exec w "g++" flags None
      (<[cppFile := cppCode code]> (<[filePath := code]> (fs_after check))) in
  term check = Close tc (Some 0) ->
  term compile = Close t (Some 0) ->
  exists s1,
    reaches_supervision w code "cpp" s (now s + Z.of_N tc) s1
    /\ process s1 = Some (filePath, [])
    /\ fs s1 = fs_after compile
    /\ now s1 = now s + Z.of_N tc + Z.of_N t
    /\ trace s1
       = trace s
         ++ [EvSpawn "g++" ["--version"]; EvWrite filePath code;
             EvWrite cppFile (cppCode code); EvSpawn "g++" flags;
             EvSpawn filePath []].
Proof.
  intros filePath cppFile check flags compile Htc Hterm.
  set (s0 := set_process None s).
  pose proof (probe_eval w "g++" ["--version"] gpp_missing s0 tc Htc) as Hp.
  change (fs s0) with (fs s) in Hp. fold check in Hp.
  set (sA := set_now _ _) in Hp.
  unfold reaches_supervision, prepare, switch_language. fold filePath s0.
  change (String.eqb "cpp" "java") with false.
  change (String.eqb "cpp" "cpp") with true.
  change (String.eqb "cpp" "javascript") with false.
  change (String.eqb "cpp" "python") with false. cbv iota.
  unfold bind at 1, ret at 1.
  rewrite (bind_ret _ _ _ _ _ Hp).
  unfold bind at 1, writeFile at 1, modify.
  unfold bind at 1, Date_now, get.
  unfold bind at 1. unfold bind at 1. unfold bind at 1, cpp_case.
  unfold bind at 1, writeFile, modify.
  unfold bind at 1, spawn. unfold bind at 1, await_close, bind at 1, child, get.
  subst sA. cbn [fst snd fs log set_fs set_now]. fold cppFile flags compile.
  rewrite Hterm. unfold bind, settle, modify, ret. cbn [code_is_zero].
  eexists. split; [reflexivity | ].
  cbn [process fs now trace log set_fs set_now set_process].
  change (trace s0) with (trace s). change (now s0) with (now s).
  repeat split. rewrite <- !app_assoc. reflexivity.
Qed.

Lemma cpp_job_runs_what_the_compiler_left_witness :
  exists s1,
    reaches_supervision world_slow_compile print5_cpp "cpp" state0
      (1000 + Z.of_N 5) s1
    /\ process s1 = Some ("/tmp/code_1000", [])
    /\ fs s1
       = fs_after
           (exec world_slow_compile "g++"
              ["/tmp/code_1000.cpp"; "-o"; "/tmp/code_1000"; "-std=c++11"; "-Wall"]
              None
              (<["/tmp/code_1000.cpp" := cppCode print5_cpp]>
                 (<["/tmp/code_1000" := print5_cpp]>
                    (fs_after (exec world_slow_compile "g++" ["--version"] None ∅)))))
    /\ now s1 = 1000 + Z.of_N 5 + Z.of_N 20000
    /\ trace s1
       = []
         ++ [EvSpawn "g++" ["--version"]; EvWrite "/tmp/code_1000" print5_cpp;
             EvWrite "/tmp/code_1000.cpp" (cppCode print5_cpp);
             EvSpawn "g++"
               ["/tmp/code_1000.cpp"; "-o"; "/tmp/code_1000"; "-std=c++11"; "-Wall"];
             EvSpawn "/tmp/code_1000" []].
Proof.
  exact (cpp_job_runs_what_the_compiler_left world_slow_compile print5_cpp
           state0 5%N 20000%N eq_refl eq_refl).
Defined.
